(** * Sketch search policy of the auto-scheduler

    A shallow embedding of [auto_scheduler/search_policy/sketch_search_policy.cc]
    (the six sketch generation rules, the five init population rules and the
    outer search loop of [SketchSearchPolicyNode]) together with the properties
    the design document states about them.

    C++ [int] and [int64_t] are carried as [Z]; where the source narrows a
    value or accumulates a product of extents, the wrap-around is written out
    ([to_int32], [to_int64]).  [size_t] loop indices are carried as [nat],
    [Array<T>] and [std::vector<T>] as [list T], [std::set<std::string>] and
    [std::unordered_set<std::string>] as [gset string], [std::unordered_map]
    as [gmap].  Code that is not part of the examined sources (the loop state
    mutators, the helpers of [utils.h], the measurer, the cost models) enters
    through the class [Externals]. *)

From Stdlib Require Import ZArith Lia List Bool Ascii String.
From stdpp Require Import base option gmap sets list strings pretty.

Local Open Scope Z_scope.

(** ** Outcome of a call *)

(** [Fatal] is an aborted call: a failed [CHECK], an [Array] index out of
    range, [std::out_of_range], a division by zero.  [OutOfFuel] belongs to
    the model only: a loop of the source that is not structurally bounded is
    unrolled at most [fuel] times. *)
Inductive result (A : Type) : Type :=
| Ok (a : A)
| Fatal
| OutOfFuel.
Arguments Ok {A} a.
Arguments Fatal {A}.
Arguments OutOfFuel {A}.

Definition result_bind {A B} (f : A -> result B) (m : result A) : result B :=
  match m with
  | Ok a => f a
  | Fatal => Fatal
  | OutOfFuel => OutOfFuel
  end.

#[global] Instance result_mbind : MBind result := @result_bind.
#[global] Instance result_mret : MRet result := @Ok.

(** [arr[i]] on an [Array] or a [std::vector] with an [int] index. *)
Definition at_Z {A} (arr : list A) (i : Z) : result A :=
  if 0 <=? i then
    match arr !! Z.to_nat i with
    | Some a => Ok a
    | None => Fatal
    end
  else Fatal.

(** [CHECK(opt)] followed by [opt.value()]. *)
Definition CHECK_defined {A} (opt : option A) : result A :=
  match opt with
  | Some a => Ok a
  | None => Fatal
  end.

(** [for (size_t i = start; i < bound(s); ++i) s = body(i, s);] where the
    bound is read again at every iteration. *)
Fixpoint for_loop {S} (fuel : nat) (i : nat) (bound : S -> nat)
         (body : nat -> S -> result S) (s : S) : result S :=
  match fuel with
  | O => OutOfFuel
  | Datatypes.S fuel' =>
      if (i <? bound s)%nat then
        s' ← body i s; for_loop fuel' (Datatypes.S i) bound body s'
      else Ok s
  end.

(** ** Loop state *)

(** Modelled from the spec: [loop_state.h] and [transform_step.h] are not among
    the sources; the enumerations and records below follow section 3 of the
    design document and the members the policy reads. *)
Inductive StageKind := kPlaceholder | kCompute.
Inductive ComputeAtKind := kRoot | kInlined | kIter.
Inductive IteratorKind := kSpatial | kReduction.
Inductive IteratorAnnotation := kNone | kParallel | kVectorize | kUnroll | kTensorize.

#[global] Instance StageKind_eq_dec : EqDecision StageKind.
Proof. solve_decision. Defined.
#[global] Instance ComputeAtKind_eq_dec : EqDecision ComputeAtKind.
Proof. solve_decision. Defined.
#[global] Instance IteratorKind_eq_dec : EqDecision IteratorKind.
Proof. solve_decision. Defined.
#[global] Instance IteratorAnnotation_eq_dec : EqDecision IteratorAnnotation.
Proof. solve_decision. Defined.

Record Iterator := mkIterator {
  name : string;
  range : option Z;
  iter_kind : IteratorKind;
  annotation : IteratorAnnotation
}.

Record Operation := mkOperation {
  op_name : string;
  attrs : gmap string (list string)
}.

Record Stage := mkStage {
  op : Operation;
  op_type : StageKind;
  iters : list Iterator;
  compute_at : ComputeAtKind
}.

Record AttachMap := mkAttachMap {
  stage_to_attach_iter : gmap Z (Z * Z);
  iter_to_attached_stages : gmap (Z * Z) (list Z)
}.

Inductive Step :=
| SplitStep (stage_id iter_id : Z) (extent : option Z)
            (lengths : list (option Z)) (inner_to_outer : bool)
| FuseStep (stage_id : Z) (fused_ids : list Z)
| ReorderStep (stage_id : Z) (after_ids : list Z)
| ComputeAtStep (stage_id target_stage_id target_iter_id : Z)
| ComputeInlineStep (stage_id : Z)
| ComputeRootStep (stage_id : Z)
| CacheReadStep (stage_id : Z) (scope_name : string) (reader_stage_ids : list Z)
| CacheWriteStep (stage_id : Z) (scope_name : string)
| RfactorStep (stage_id iter_id factor_iter_id : Z)
| AnnotationStep (stage_id iter_id : Z) (ann : IteratorAnnotation)
| PragmaStep (stage_id iter_id : Z) (pragma_type : string)
| TensorizeStep (stage_id iter_id : Z) (ti_func_name : string).

Record State := mkState {
  stages : list Stage;
  transform_steps : list Step;
  attach_map : AttachMap;
  concrete : bool
}.

Definition set_transform_steps (s : State) (steps : list Step) : State :=
  mkState (stages s) steps (attach_map s) (concrete s).

Definition set_concrete (s : State) (b : bool) : State :=
  mkState (stages s) (transform_steps s) (attach_map s) b.

(** ** Search task, measurement records, cost model, measurer *)

(** A C++ [double], carried as its bit pattern; every operation on doubles is
    an operation of [Externals]. *)
Record double := mkDouble { bits : Z }.

Record SearchTask := mkSearchTask {
  init_state : State;          (* [compute_dag->init_state] *)
  workload_key : string;
  num_cores : Z                (* [hardware_params->num_cores] *)
}.

Record MeasureInput := mkMeasureInput {
  mi_task : SearchTask;
  mi_state : State
}.

Record MeasureResult := mkMeasureResult {
  costs : list double;
  error_no : Z
}.

(** A cost model is an object of [RandomModelNode] or of another subclass of
    [CostModelNode] ([cost_model.h]).  The policy only ever asks for the
    dynamic type and calls [Update]; what the model has been trained on is its
    whole observable state. *)
Record CostModel := mkCostModel {
  is_RandomModelNode : bool;
  updates : list (list MeasureInput * list MeasureResult)
}.

Definition CostModel_Update (m : CostModel) (inputs : list MeasureInput)
           (results : list MeasureResult) : CostModel :=
  mkCostModel (is_RandomModelNode m) (updates m ++ [(inputs, results)]).

(** The calls a [ProgramMeasurer] has received; what it answers is a function
    of them (see [Externals]). *)
Inductive MeasurerCall :=
| CallReset
| CallMeasure (task : SearchTask) (inputs : list MeasureInput).

Record ProgramMeasurer := mkProgramMeasurer {
  calls : list MeasurerCall
}.

Definition is_CallMeasure (c : MeasurerCall) : bool :=
  match c with CallMeasure _ _ => true | CallReset => false end.

(** ** The policy object *)

(** [std::mt19937]: the sequence of 32-bit words it will produce and how many
    have been drawn. *)
Record mt19937 := mkRng {
  draws : nat -> N;
  drawn : nat
}.

Definition rand (g : mt19937) : Z * mt19937 :=
  (Z.of_N (draws g (drawn g)), mkRng (draws g) (Datatypes.S (drawn g))).

(** The entries of [params] the policy reads with [GetIntParam],
    [GetDoubleParam] and [GetStringParam]. *)
Record Params := mkParams {
  eps_greedy : double;
  max_innermost_split_factor : Z;
  max_vectorize_size : Z;
  disable_change_compute_location : Z;
  cpu_structure : string;
  evolutionary_search_population : Z;
  evolutionary_search_use_measured_ratio : double
}.

Inductive ConditionKind := kPass | kApply | kApplyAndSkipRest.
Inductive ResultKind := kValid | kInvalid.

#[global] Instance ConditionKind_eq_dec : EqDecision ConditionKind.
Proof. solve_decision. Defined.
#[global] Instance ResultKind_eq_dec : EqDecision ResultKind.
Proof. solve_decision. Defined.

(** The rule objects.  [RuleMultiLevelTilingWithFusion] has a data member,
    [target_stage_id], written by [MeetCondition] and read by [Apply]. *)
Inductive SketchGenerationRule :=
| RuleAlwaysInline
| RuleAddRfactor
| RuleAddCacheWrite
| RuleMultiLevelTilingWithFusion (target_stage_id : Z)
| RuleMultiLevelTiling
| RuleSkipStage.

Inductive InitPopulationRule :=
| InitFillTileSize
| InitChangeComputeLocation
| InitParallel
| InitVectorization
| InitUnroll.

Record SketchSearchPolicyNode := mkPolicy {
  search_task : SearchTask;
  schedule_cost_model : CostModel;
  rand_gen : mt19937;
  params : Params;
  sketch_rules : list SketchGenerationRule;
  init_rules : list InitPopulationRule;
  measured_states_set_ : gset string;
  measured_states_vector_ : list State;
  measured_states_throughputs_ : list double;
  num_measure_per_iter_ : Z
}.

Definition set_rand_gen (p : SketchSearchPolicyNode) (g : mt19937) :=
  mkPolicy (search_task p) (schedule_cost_model p) g (params p) (sketch_rules p)
           (init_rules p) (measured_states_set_ p) (measured_states_vector_ p)
           (measured_states_throughputs_ p) (num_measure_per_iter_ p).

Definition set_sketch_rules (p : SketchSearchPolicyNode) (rs : list SketchGenerationRule) :=
  mkPolicy (search_task p) (schedule_cost_model p) (rand_gen p) (params p) rs
           (init_rules p) (measured_states_set_ p) (measured_states_vector_ p)
           (measured_states_throughputs_ p) (num_measure_per_iter_ p).

Definition set_num_measure_per_iter (p : SketchSearchPolicyNode) (n : Z) :=
  mkPolicy (search_task p) (schedule_cost_model p) (rand_gen p) (params p)
           (sketch_rules p) (init_rules p) (measured_states_set_ p)
           (measured_states_vector_ p) (measured_states_throughputs_ p) n.

Definition set_cost_model (p : SketchSearchPolicyNode) (m : CostModel) :=
  mkPolicy (search_task p) m (rand_gen p) (params p) (sketch_rules p)
           (init_rules p) (measured_states_set_ p) (measured_states_vector_ p)
           (measured_states_throughputs_ p) (num_measure_per_iter_ p).

Definition push_throughput (p : SketchSearchPolicyNode) (t : double) :=
  mkPolicy (search_task p) (schedule_cost_model p) (rand_gen p) (params p)
           (sketch_rules p) (init_rules p) (measured_states_set_ p)
           (measured_states_vector_ p) (measured_states_throughputs_ p ++ [t])
           (num_measure_per_iter_ p).

(** [measured_states_set_.insert(str); measured_states_vector_.push_back(state)] *)
Definition record_measured (p : SketchSearchPolicyNode) (str : string) (s : State) :=
  mkPolicy (search_task p) (schedule_cost_model p) (rand_gen p) (params p)
           (sketch_rules p) (init_rules p) ({[str]} ∪ measured_states_set_ p)
           (measured_states_vector_ p ++ [s]) (measured_states_throughputs_ p)
           (num_measure_per_iter_ p).

Abbreviation Policy := SketchSearchPolicyNode.

(** [policy->rand_gen()] *)
Definition policy_rand (p : SketchSearchPolicyNode) : Z * SketchSearchPolicyNode :=
  let '(r, g) := rand (rand_gen p) in (r, set_rand_gen p g).

(** ** Code outside the examined sources *)

(** The helpers of [search_policy/utils.h], the mutators of [loop_state.cc],
    [ComputeDAG::InferBound], [State::ToStr], the measurer and the arithmetic
    on doubles.  Mutators and the composite helpers can abort on a violated
    precondition, so they return a [result]. *)
Class Externals := {
  (* predicates of utils.h *)
  IsOutputOp : SearchTask -> State -> Z -> bool;
  HasReduceIter : Stage -> bool;
  HasAttrsFlag : State -> Z -> string -> bool;
  IsStrictInlineable : SearchTask -> State -> Z -> bool;
  NeedsMultilevelTiling : SearchTask -> State -> Z -> bool;
  (* the result, and the value stored through the [int*] argument, if any *)
  HasSingleElementwiseMatchedConsumer : SearchTask -> State -> Z -> bool * option Z;
  HasCacheWriteStage : State -> Z -> bool;
  (* "has a reduction axis fuse-factorable" of the rule table, see [NeedsRfactor] *)
  HasFuseFactorableReduceAxis : SearchTask -> State -> Z -> bool;
  IsTiled : Stage -> bool;
  HasAnnotatedIter : Stage -> IteratorAnnotation -> bool;
  GetSingleConsumerId : SearchTask -> State -> Z -> Z;
  GetExtent : Iterator -> Z;
  GetIterNameSetParam : gmap string (list string) -> string -> gset string;
  ExtractOriginalIterators : string -> gset string -> gset string;
  StrEndsWith : string -> string -> bool;
  (* composite helpers of utils.h *)
  DoMultiLevelTiling : State -> Z -> string -> result (State * list Z);
  FollowTiling : State -> Z -> list Z -> Z -> result State;
  FuseAllReductionIterators :
    State -> Z -> result (State * Iterator * list Iterator * list Iterator);
  RandomSampleStates : list State -> mt19937 -> Z -> list State * mt19937;
  Argsort : list double -> list Z;
  (* mutators of State *)
  State_compute_inline : State -> Z -> result State;
  State_compute_root : State -> Z -> result State;
  State_compute_at : State -> Z -> Z -> Iterator -> result State;
  State_cache_write : State -> Z -> string -> SearchTask -> result (State * Z);
  State_split : State -> Z -> Iterator -> list (option Z) -> result (State * list Iterator);
  State_rfactor : State -> Z -> Iterator -> Z -> SearchTask -> result (State * Z);
  State_reorder : State -> Z -> list Iterator -> result State;
  State_fuse : State -> Z -> list Iterator -> result (State * Iterator);
  State_parallel : State -> Z -> Iterator -> result State;
  State_vectorize : State -> Z -> Iterator -> result State;
  State_unroll : State -> Z -> Iterator -> result State;
  State_pragma : State -> Z -> Iterator -> string -> result State;
  InferBound : SearchTask -> State -> result State;
  ToStr : State -> string;
  (* the measurer *)
  Measure_results : ProgramMeasurer -> SearchTask -> list MeasureInput -> list MeasureResult;
  best_ct : ProgramMeasurer -> string -> Z;
  best_state : ProgramMeasurer -> string -> State;
  (* doubles *)
  double_times_int : double -> Z -> Z;      (* [static_cast<int>(d * n)] *)
  inverse_mean : list double -> double      (* [1.0 / FloatArrayMean(costs)] *)
}.

Definition always_compute_inline : string := "auto_scheduler_always_compute_inline".
Definition no_cache_write : string := "auto_scheduler_no_cache_write".
Definition always_unroll : string := "auto_scheduler_always_unroll".
Definition always_unroll_inner : string := "auto_scheduler_always_unroll_inner".

Section SketchRules.
Context `{Externals}.

(** *** Sketch generation rules *)

Definition ShouldAlwaysBeInlined (policy : SketchSearchPolicyNode) (state : State)
           (stage_id : Z) : result bool :=
  let task := search_task policy in
  stage ← at_Z (stages state) stage_id;
  if decide (op_type stage = kPlaceholder) then Ok false
  else if negb (IsOutputOp task state stage_id) && negb (HasReduceIter stage) then
    if HasAttrsFlag state stage_id always_compute_inline
       || IsStrictInlineable task state stage_id
    then Ok true else Ok false
  else Ok false.

(** The condition of the AlwaysInline row of the rule table in the words of
    the design document: "op is strict-inlinable, is not an output, has no
    reduction, and either is tagged or the analyzer confirms strict
    inlinability".  Only compared with [ShouldAlwaysBeInlined]. *)
Definition AlwaysInline_condition_in_words (policy : SketchSearchPolicyNode)
           (state : State) (stage_id : Z) (stage : Stage) : bool :=
  let task := search_task policy in
  IsStrictInlineable task state stage_id
  && negb (IsOutputOp task state stage_id)
  && negb (HasReduceIter stage)
  && (HasAttrsFlag state stage_id always_compute_inline
      || IsStrictInlineable task state stage_id).

Definition RuleAlwaysInline_MeetCondition (policy : SketchSearchPolicyNode)
           (state : State) (stage_id : Z) : result ConditionKind :=
  b ← ShouldAlwaysBeInlined policy state stage_id;
  Ok (if b : bool then kApplyAndSkipRest else kPass).

Definition RuleAlwaysInline_Apply (policy : SketchSearchPolicyNode)
           (state : State) (stage_id : Z) : result (list (State * Z)) :=
  tmp_s ← State_compute_inline state stage_id;
  Ok [(tmp_s, stage_id - 1)].

Definition RuleSkipStage_MeetCondition (policy : SketchSearchPolicyNode)
           (state : State) (stage_id : Z) : result ConditionKind :=
  Ok kApply.

Definition RuleSkipStage_Apply (policy : SketchSearchPolicyNode)
           (state : State) (stage_id : Z) : result (list (State * Z)) :=
  Ok [(state, stage_id - 1)].

Definition RuleMultiLevelTiling_MeetCondition (policy : SketchSearchPolicyNode)
           (state : State) (stage_id : Z) : result ConditionKind :=
  Ok (if NeedsMultilevelTiling (search_task policy) state stage_id
      then kApply else kPass).

Definition RuleMultiLevelTiling_Apply (policy : SketchSearchPolicyNode)
           (state : State) (stage_id : Z) : result (list (State * Z)) :=
  let multi_level_tiling_structure := cpu_structure (params policy) in
  '(tmp_s, _) ← DoMultiLevelTiling state stage_id multi_level_tiling_structure;
  Ok [(tmp_s, stage_id - 1)].

(** [tolower(c) == 's'] *)
Definition is_spatial_level_char (c : ascii) : bool :=
  (Ascii.eqb c "s"%char || Ascii.eqb c "S"%char)%bool.

(** [tolower(structure[level - 1]) == 's'].  [operator[]] at the length of a
    [std::string] reads the terminating zero, which is not ['s']. *)
Definition level_is_spatial (structure : string) (level : Z) : bool :=
  match String.get (Z.to_nat (level - 1)) structure with
  | Some c => is_spatial_level_char c
  | None => false
  end.

(** Returns the condition and the new value of the member [target_stage_id].
    The right operand of [&&] runs, and may store, only when the left holds. *)
Definition RuleMultiLevelTilingWithFusion_MeetCondition
           (policy : SketchSearchPolicyNode) (target_stage_id : Z)
           (state : State) (stage_id : Z) : result (ConditionKind * Z) :=
  if NeedsMultilevelTiling (search_task policy) state stage_id then
    let '(matched, stored) :=
      HasSingleElementwiseMatchedConsumer (search_task policy) state stage_id in
    let target_stage_id := default target_stage_id stored in
    if matched then
      Ok (if HasCacheWriteStage state stage_id then kApplyAndSkipRest else kApply,
          target_stage_id)
    else Ok (kPass, target_stage_id)
  else Ok (kPass, target_stage_id).

(** One iteration of [for (int level : follow_tiling_levels)]. *)
Definition fusion_variant (base_state : State) (target_stage_id stage_id : Z)
           (spatial_split_step_ids : list Z) (level : Z) : result (State * Z) :=
  tmp_s ← FollowTiling base_state target_stage_id spatial_split_step_ids level;
  target_stage ← at_Z (stages tmp_s) target_stage_id;
  target_iter ← at_Z (iters target_stage)
                     (level * Z.of_nat (length spatial_split_step_ids) - 1);
  tmp_s ← State_compute_at tmp_s stage_id target_stage_id target_iter;
  Ok (tmp_s, stage_id - 1).

Fixpoint fusion_levels (structure : string) (base_state : State)
         (target_stage_id stage_id : Z) (spatial_split_step_ids : list Z)
         (follow_tiling_levels : list Z) : result (list (State * Z)) :=
  match follow_tiling_levels with
  | [] => Ok []
  | level :: rest =>
      if negb (level_is_spatial structure level) then
        fusion_levels structure base_state target_stage_id stage_id
                      spatial_split_step_ids rest
      else
        v ← fusion_variant base_state target_stage_id stage_id
                            spatial_split_step_ids level;
        ret ← fusion_levels structure base_state target_stage_id stage_id
                             spatial_split_step_ids rest;
        Ok (v :: ret)
  end.

Definition RuleMultiLevelTilingWithFusion_Apply (policy : SketchSearchPolicyNode)
           (target_stage_id : Z) (state : State) (stage_id : Z)
  : result (list (State * Z)) :=
  let multi_level_tiling_structure := cpu_structure (params policy) in
  '(base_state, spatial_split_step_ids) ←
    DoMultiLevelTiling state stage_id multi_level_tiling_structure;
  fusion_levels multi_level_tiling_structure base_state target_stage_id stage_id
                spatial_split_step_ids [1; 2].

Definition RuleAddCacheWrite_MeetCondition (policy : SketchSearchPolicyNode)
           (state : State) (stage_id : Z) : result ConditionKind :=
  if HasAttrsFlag state stage_id no_cache_write then Ok kPass
  else if NeedsMultilevelTiling (search_task policy) state stage_id
          && negb (HasSingleElementwiseMatchedConsumer
                     (search_task policy) state stage_id).1
  then Ok kApply
  else Ok kPass.

Definition RuleAddCacheWrite_Apply (policy : SketchSearchPolicyNode)
           (state : State) (stage_id : Z) : result (list (State * Z)) :=
  '(tmp_s, _) ← State_cache_write state stage_id "local" (search_task policy);
  Ok [(tmp_s, stage_id)].

(** Modelled from the spec: [NeedsRfactor] ([utils.h]) is not among the
    sources.  The design document gives the rule's condition as "op needs
    multi-level tiling, no cache-write yet, has a reduction axis
    fuse-factorable"; the cache-write test is in the rule itself, the other two
    are [NeedsRfactor]. *)
Definition NeedsRfactor (task : SearchTask) (state : State) (stage_id : Z) : bool :=
  NeedsMultilevelTiling task state stage_id
  && HasFuseFactorableReduceAxis task state stage_id.

Definition RuleAddRfactor_MeetCondition (policy : SketchSearchPolicyNode)
           (state : State) (stage_id : Z) : result ConditionKind :=
  Ok (if NeedsRfactor (search_task policy) state stage_id
         && negb (HasCacheWriteStage state stage_id)
      then kApply else kPass).

(** [new_order]: every iterator of the rfactor stage but the one at position
    [space_iters.size()], then that one. *)
Fixpoint rfactor_new_order (its : list Iterator) (i skip : nat) : list Iterator :=
  match its with
  | [] => []
  | it :: rest =>
      if (i =? skip)%nat then rfactor_new_order rest (Datatypes.S i) skip
      else it :: rfactor_new_order rest (Datatypes.S i) skip
  end.

(** The body of [for (const auto& split_iter : split_res)] at position [i] of
    [split_res].  [split_iter == split_res[1]] compares object identities;
    the iterators [State::split] returns are distinct objects, so it holds at
    position 1 only.  [split_res[1]] is read at every iteration. *)
Definition rfactor_variant (policy : SketchSearchPolicyNode) (base_state : State)
           (stage_id : Z) (space_iters : list Iterator)
           (split_res : list Iterator) (i : nat) (split_iter : Iterator)
  : result (State * Z) :=
  let factor_axis_id := Z.of_nat (length space_iters) in
  '(tmp_s, rstage_id) ←
    State_rfactor base_state stage_id split_iter factor_axis_id (search_task policy);
  _ ← at_Z split_res 1;
  tmp_s ←
    (if (i =? 1)%nat then
       rstage ← at_Z (stages tmp_s) rstage_id;
       let new_order := rfactor_new_order (iters rstage) 0 (length space_iters) in
       space_iter ← at_Z (iters rstage) (Z.of_nat (length space_iters));
       State_reorder tmp_s rstage_id (new_order ++ [space_iter])
     else Ok tmp_s);
  Ok (tmp_s, rstage_id - 1).

Fixpoint rfactor_variants (policy : SketchSearchPolicyNode) (base_state : State)
         (stage_id : Z) (space_iters : list Iterator) (split_res : list Iterator)
         (i : nat) (todo : list Iterator) : result (list (State * Z)) :=
  match todo with
  | [] => Ok []
  | split_iter :: rest =>
      v ← rfactor_variant policy base_state stage_id space_iters split_res i split_iter;
      ret ← rfactor_variants policy base_state stage_id space_iters split_res
                              (Datatypes.S i) rest;
      Ok (v :: ret)
  end.

Definition RuleAddRfactor_Apply (policy : SketchSearchPolicyNode)
           (state : State) (stage_id : Z) : result (list (State * Z)) :=
  '(base_state, fused_reduce_iter, space_iters, reduce_iters) ←
    FuseAllReductionIterators state stage_id;
  '(base_state, split_res) ←
    State_split base_state stage_id fused_reduce_iter [Some 1];
  rfactor_variants policy base_state stage_id space_iters split_res 0 split_res.

(** Virtual dispatch.  [MeetCondition] returns the rule object as it is after
    the call. *)
Definition MeetCondition (rule : SketchGenerationRule) (policy : SketchSearchPolicyNode)
           (state : State) (stage_id : Z) : result (ConditionKind * SketchGenerationRule) :=
  match rule with
  | RuleAlwaysInline =>
      c ← RuleAlwaysInline_MeetCondition policy state stage_id; Ok (c, rule)
  | RuleAddRfactor =>
      c ← RuleAddRfactor_MeetCondition policy state stage_id; Ok (c, rule)
  | RuleAddCacheWrite =>
      c ← RuleAddCacheWrite_MeetCondition policy state stage_id; Ok (c, rule)
  | RuleMultiLevelTilingWithFusion target_stage_id =>
      '(c, t) ← RuleMultiLevelTilingWithFusion_MeetCondition
                  policy target_stage_id state stage_id;
      Ok (c, RuleMultiLevelTilingWithFusion t)
  | RuleMultiLevelTiling =>
      c ← RuleMultiLevelTiling_MeetCondition policy state stage_id; Ok (c, rule)
  | RuleSkipStage =>
      c ← RuleSkipStage_MeetCondition policy state stage_id; Ok (c, rule)
  end.

Definition Apply (rule : SketchGenerationRule) (policy : SketchSearchPolicyNode)
           (state : State) (stage_id : Z) : result (list (State * Z)) :=
  match rule with
  | RuleAlwaysInline => RuleAlwaysInline_Apply policy state stage_id
  | RuleAddRfactor => RuleAddRfactor_Apply policy state stage_id
  | RuleAddCacheWrite => RuleAddCacheWrite_Apply policy state stage_id
  | RuleMultiLevelTilingWithFusion target_stage_id =>
      RuleMultiLevelTilingWithFusion_Apply policy target_stage_id state stage_id
  | RuleMultiLevelTiling => RuleMultiLevelTiling_Apply policy state stage_id
  | RuleSkipStage => RuleSkipStage_Apply policy state stage_id
  end.

End SketchRules.

(** ** Init population rules *)

(** The positive divisors of [e]. *)
Definition divisors (e : Z) : list Z :=
  filter (fun d => e mod d = 0) (Z.of_nat <$> seq 1 (Z.to_nat e)).

(** The lists of [k] positive integers whose product is [e], outermost factor
    first. *)
Fixpoint factorizations (k : nat) (e : Z) : list (list Z) :=
  match k with
  | O => if decide (e = 1) then [[]] else []
  | Datatypes.S k' =>
      d ← divisors e; (d ::.) <$> factorizations k' (e / d)
  end.

(** Modelled from the spec: [SplitFactorizationMemo::GetFactorizationSchemes]
    ([utils.h]) is not among the sources.  The design document: it
    "enumerates all factorizations of [extent] into [n+1] positive integers
    where the innermost factor ≤ [max_innermost_split_factor]", [n] being the
    number of lengths of the split step; the memo table only saves
    recomputation.  The innermost factor is the last one. *)
Definition GetFactorizationSchemes (extent : Z) (n_lengths : nat)
           (max_innermost_factor : Z) : list (list Z) :=
  filter (fun scheme => List.last scheme 0 <= max_innermost_factor)
         (factorizations (Datatypes.S n_lengths) extent).

Definition all_defined (lengths : list (option Z)) : bool :=
  forallb (fun len => bool_decide (is_Some len)) lengths.

(** The 32-bit [int] an [int64_t] converts to. *)
Definition to_int32 (z : Z) : Z :=
  (z + 2 ^ 31) mod 2 ^ 32 - 2 ^ 31.

(** The [int64_t] a product of two [int64_t] wraps to. *)
Definition to_int64 (z : Z) : Z :=
  (z + 2 ^ 63) mod 2 ^ 64 - 2 ^ 63.

Section InitRules.
Context `{Externals}.

(** The body of the loop of [InitFillTileSize::Apply] at [step_id]. *)
Definition fill_tile_size_step (step_id : nat) (ps : Policy * State)
  : result (Policy * State) :=
  let '(policy, pstate) := ps in
  match transform_steps pstate !! step_id with
  | Some (SplitStep stage_id iter_id extent lengths inner_to_outer) =>
      if all_defined lengths then Ok (policy, pstate)
      else
        extent_v ← CHECK_defined extent;
        (* [int extent = GetIntImm(ps->extent.value())]: the 64-bit value of
           the immediate is narrowed to [int] *)
        let extent_i := to_int32 extent_v in
        let candidate_lens :=
          GetFactorizationSchemes extent_i (length lengths)
                                  (max_innermost_split_factor (params policy)) in
        let '(r, policy) := policy_rand policy in
        if decide (candidate_lens = []) then Fatal
        else
          candidate_lengths ←
            at_Z candidate_lens (r mod Z.of_nat (length candidate_lens));
          Ok (policy,
              set_transform_steps pstate
                (<[step_id := SplitStep stage_id iter_id extent
                                        (Some <$> candidate_lengths)
                                        inner_to_outer]> (transform_steps pstate)))
  | Some _ => Ok (policy, pstate)
  | None => Fatal
  end.

(** [for (size_t step_id = 0; step_id < transform_steps.size(); ++step_id)]:
    [Set] keeps the size, so the body runs once for each of the [todo] steps
    from [step_id] on. *)
Fixpoint fill_tile_size_loop (todo : nat) (step_id : nat) (ps : Policy * State)
  : result (Policy * State) :=
  match todo with
  | O => Ok ps
  | Datatypes.S todo' =>
      ps ← fill_tile_size_step step_id ps;
      fill_tile_size_loop todo' (Datatypes.S step_id) ps
  end.

Definition InitFillTileSize_Apply (policy : Policy) (state : State)
  : result (ResultKind * Policy * State) :=
  '(policy, pstate) ←
    fill_tile_size_loop (length (transform_steps state)) 0 (policy, state);
  Ok (kValid, policy, set_concrete pstate true).

(** [attrs.count(key) ? GetIterNameSetParam(attrs, key) : {}] *)
Definition unroll_name_set (o : Operation) (key : string) : gset string :=
  if decide (is_Some (attrs o !! key)) then GetIterNameSetParam (attrs o) key else ∅.

Definition has_attached (state : State) (stage_id iter_id : Z) : bool :=
  bool_decide (is_Some (iter_to_attached_stages (attach_map state) !! (stage_id, iter_id))).

(** The first enumeration loop of [InitChangeComputeLocation::Apply], from
    position [i] on; [todo] are the iterators of the target stage from [i]. *)
Fixpoint enumerate_target (state : State) (target_stage_id : Z)
         (to_unroll_name_set : gset string)
         (target_compute_at_other target_is_tiled : bool)
         (todo : list Iterator) (i : nat) (visited_reduce : bool)
         (candidates : list (Z * Z)) : list (Z * Z) :=
  match todo with
  | [] => candidates
  | target_iter :: rest =>
      let continue_with visited_reduce candidates :=
        enumerate_target state target_stage_id to_unroll_name_set
                         target_compute_at_other target_is_tiled rest
                         (Datatypes.S i) visited_reduce candidates in
      let after_kind_test visited_reduce :=
        if bool_decide (name target_iter ∈ to_unroll_name_set) then candidates
        else if decide (GetExtent target_iter = 1) then
          continue_with visited_reduce candidates
        else if target_compute_at_other
                && bool_decide (iter_kind target_iter = kSpatial)
                && StrEndsWith (name target_iter) ".0" then
          continue_with visited_reduce candidates
        else
          let candidates := candidates ++ [(target_stage_id, Z.of_nat i)] in
          if has_attached state target_stage_id (Z.of_nat i) then candidates
          else continue_with visited_reduce candidates in
      match iter_kind target_iter with
      | kReduction =>
          if negb target_is_tiled then candidates else after_kind_test true
      | kSpatial =>
          if visited_reduce then candidates else after_kind_test visited_reduce
      end
  end.

(** The second enumeration loop, over the iterators of [target_target_stage]. *)
Fixpoint enumerate_target_target (state : State) (target_target_stage_id : Z)
         (to_unroll_name_set : gset string)
         (todo : list Iterator) (i : nat)
         (candidates : list (Z * Z)) : list (Z * Z) :=
  match todo with
  | [] => candidates
  | target_target_iter :: rest =>
      if bool_decide (iter_kind target_target_iter = kReduction)
         || has_attached state target_target_stage_id (Z.of_nat i) then candidates
      else if bool_decide (name target_target_iter ∈ to_unroll_name_set) then candidates
      else if decide (GetExtent target_target_iter = 1) then
        enumerate_target_target state target_target_stage_id to_unroll_name_set
                                rest (Datatypes.S i) candidates
      else
        enumerate_target_target state target_target_stage_id to_unroll_name_set
                                rest (Datatypes.S i)
                                (candidates ++ [(target_target_stage_id, Z.of_nat i)])
  end.

(** The body of the stage loop of [InitChangeComputeLocation::Apply]. *)
Definition change_compute_location_stage (stage_id : Z) (ps : Policy * State)
  : result (Policy * State) :=
  let '(policy, state) := ps in
  stage ← at_Z (stages state) stage_id;
  if bool_decide (op_type stage = kPlaceholder)
     || bool_decide (compute_at stage = kInlined) then Ok ps
  else if IsTiled stage || NeedsMultilevelTiling (search_task policy) state stage_id
  then Ok ps
  else
    let target_stage_id := GetSingleConsumerId (search_task policy) state stage_id in
    if target_stage_id <? 0 then Ok ps
    else
      target_stage ← at_Z (stages state) target_stage_id;
      let to_unroll_name_set := unroll_name_set (op target_stage) always_unroll in
      let target_compute_at_other := bool_decide (compute_at target_stage = kIter) in
      let target_is_tiled := IsTiled target_stage in
      let candidates :=
        enumerate_target state target_stage_id to_unroll_name_set
                         target_compute_at_other target_is_tiled
                         (iters target_stage) 0 false [] in
      candidates ←
        (if target_compute_at_other then
           attach ← CHECK_defined
                      (stage_to_attach_iter (attach_map state) !! target_stage_id);
           let target_target_stage_id := attach.1 in
           target_target_stage ← at_Z (stages state) target_target_stage_id;
           let to_unroll_name_set :=
             unroll_name_set (op target_target_stage) always_unroll in
           Ok (enumerate_target_target state target_target_stage_id
                                       to_unroll_name_set
                                       (iters target_target_stage) 0 candidates)
         else Ok candidates);
      let '(r, policy) := policy_rand policy in
      let choice := r mod (Z.of_nat (length candidates) + 2) in
      if decide (choice = 0) then
        if negb (HasReduceIter stage) then
          if decide (is_Some (stage_to_attach_iter (attach_map state) !! stage_id))
          then state ← State_compute_inline state stage_id; Ok (policy, state)
          else Ok (policy, state)
        else Ok (policy, state)
      else if decide (choice = 1) then
        state ← State_compute_root state stage_id; Ok (policy, state)
      else
        let choice := choice - 2 in
        candidate ← at_Z candidates choice;
        stage' ← at_Z (stages state) candidate.1;
        it ← at_Z (iters stage') candidate.2;
        state ← State_compute_at state stage_id candidate.1 it;
        Ok (policy, state)
  .

(** [for (int stage_id = size - 1; stage_id >= 0; stage_id--)]: [n] stages are
    left, the next one is [n - 1]. *)
Fixpoint change_compute_location_loop (n : nat) (ps : Policy * State)
  : result (Policy * State) :=
  match n with
  | O => Ok ps
  | Datatypes.S n' =>
      ps ← change_compute_location_stage (Z.of_nat n') ps;
      change_compute_location_loop n' ps
  end.

Definition InitChangeComputeLocation_Apply (policy : Policy) (state : State)
  : result (ResultKind * Policy * State) :=
  if negb (disable_change_compute_location (params policy) =? 0) then
    Ok (kValid, policy, state)
  else
    '(policy, state) ← change_compute_location_loop (length (stages state))
                                                     (policy, state);
    state ← InferBound (search_task policy) state;
    Ok (kValid, policy, state).

(** The scan of [annotate_parallel] from [iter_id] on; [todo] are the
    iterators of the stage from [iter_id].  Returns [to_fuse],
    [parallel_degree] and the value of [iter_id] when the loop is left.
    [parallel_degree] is an [int64_t] and [num_cores * 16] an [int]: both
    products wrap. *)
Fixpoint parallel_scan (policy : Policy) (state : State) (stage_id : Z)
         (todo : list Iterator) (iter_id : nat)
         (to_fuse : list Iterator) (parallel_degree : Z)
  : list Iterator * Z * nat :=
  match todo with
  | [] => (to_fuse, parallel_degree, iter_id)
  | it :: rest =>
      if bool_decide (iter_kind it = kReduction)
         || negb (bool_decide (annotation it = kNone))
      then (to_fuse, parallel_degree, iter_id)
      else
        let to_fuse := to_fuse ++ [it] in
        let parallel_degree := to_int64 (parallel_degree * GetExtent it) in
        if to_int32 (num_cores (search_task policy) * 16) <? parallel_degree
        then (to_fuse, parallel_degree, iter_id)
        else if has_attached state stage_id (Z.of_nat iter_id)
        then (to_fuse, parallel_degree, iter_id)
        else parallel_scan policy state stage_id rest (Datatypes.S iter_id)
                           to_fuse parallel_degree
  end.

(** The recursive lambda [annotate_parallel].  It is not structurally
    recursive (it follows the attach map), hence the fuel. *)
Fixpoint annotate_parallel (fuel : nat) (policy : Policy) (state : State)
         (stage_id : Z) (iter_offset : nat) : result State :=
  match fuel with
  | O => OutOfFuel
  | Datatypes.S fuel' =>
      stage ← at_Z (stages state) stage_id;
      let '(to_fuse, parallel_degree, iter_id) :=
        parallel_scan policy state stage_id (drop iter_offset (iters stage))
                      iter_offset [] 1 in
      state ←
        (if decide (parallel_degree = 1) then
           match iter_to_attached_stages (attach_map state)
                 !! (stage_id, Z.of_nat iter_id) with
           | Some attached =>
               state ←
                 foldl (fun acc attached_stage_id =>
                          state ← acc;
                          annotate_parallel fuel' policy state attached_stage_id 0)
                       (Ok state) attached;
               annotate_parallel fuel' policy state stage_id (Datatypes.S iter_id)
           | None => Ok state
           end
         else Ok state);
      match to_fuse with
      | [] => Ok state
      | [it] => State_parallel state stage_id it
      | _ =>
          '(state, fused_iter) ← State_fuse state stage_id to_fuse;
          State_parallel state stage_id fused_iter
      end
  end.

Definition init_parallel_stage (fuel : nat) (policy : Policy)
           (stage_id : nat) (state : State) : result State :=
  stage ← at_Z (stages state) (Z.of_nat stage_id);
  if negb (bool_decide (compute_at stage = kRoot))
     || bool_decide (op_type stage = kPlaceholder) then Ok state
  else annotate_parallel fuel policy state (Z.of_nat stage_id) 0.

Definition InitParallel_Apply (fuel : nat) (policy : Policy) (state : State)
  : result (ResultKind * Policy * State) :=
  state ← for_loop fuel 0 (fun s => length (stages s))
                   (init_parallel_stage fuel policy) state;
  Ok (kValid, policy, state).

(** The [while (num_fusible < stage->iters.size())] loop of
    [InitVectorization::Apply]; [todo] is [iters.size() - num_fusible], so the
    loop condition holds exactly when [todo] is not zero. *)
Fixpoint count_fusible (policy : Policy) (state : State) (stage : Stage)
         (stage_id : Z) (to_unroll_name_set : gset string)
         (todo : nat) (num_fusible : Z) (cum_length_prod : Z) : Z :=
  match todo with
  | O => num_fusible
  | Datatypes.S todo' =>
      let iter_id := Z.of_nat (length (iters stage)) - 1 - num_fusible in
      if has_attached state stage_id iter_id then num_fusible
      else
        match iters stage !! Z.to_nat iter_id with
        | None => num_fusible
        | Some it =>
            if bool_decide (iter_kind it = kReduction)
               || negb (bool_decide (annotation it = kNone))
               || bool_decide (name it ∈ to_unroll_name_set)
            then num_fusible
            else if IsTiled stage && negb (num_fusible =? 0) then num_fusible
            else
              let cum_length_prod := to_int32 (cum_length_prod * GetExtent it) in
              if max_vectorize_size (params policy) <? cum_length_prod
              then num_fusible
              else count_fusible policy state stage stage_id to_unroll_name_set
                                 todo' (num_fusible + 1) cum_length_prod
        end
  end.

(** [Array<Iterator>(iters.end() + (-n), iters.end())] *)
Definition last_iters (its : list Iterator) (n : Z) : list Iterator :=
  drop (length its - Z.to_nat n)%nat its.

Definition init_vectorization_stage (stage_id : nat) (ps : Policy * State)
  : result (Policy * State) :=
  let '(policy, state) := ps in
  stage ← at_Z (stages state) (Z.of_nat stage_id);
  if bool_decide (compute_at stage = kInlined)
     || bool_decide (op_type stage = kPlaceholder) then Ok ps
  else if HasAnnotatedIter stage kTensorize then Ok ps
  else
    let to_unroll_name_set := unroll_name_set (op stage) always_unroll in
    let num_fusible :=
      count_fusible policy state stage (Z.of_nat stage_id) to_unroll_name_set
                    (length (iters stage)) 0 1 in
    let '(num_fusible, policy) :=
      if 1 <? num_fusible then
        let '(r, policy) := policy_rand policy in
        (1 + r mod (num_fusible - 1), policy)
      else (num_fusible, policy) in
    if decide (num_fusible = 1) then
      back ← CHECK_defined (List.last (Some <$> iters stage) None);
      state ← State_vectorize state (Z.of_nat stage_id) back;
      Ok (policy, state)
    else if 1 <? num_fusible then
      let to_fuse := last_iters (iters stage) num_fusible in
      '(state, fused_iter) ← State_fuse state (Z.of_nat stage_id) to_fuse;
      state ← State_vectorize state (Z.of_nat stage_id) fused_iter;
      Ok (policy, state)
    else Ok (policy, state).

Definition InitVectorization_Apply (fuel : nat) (policy : Policy) (state : State)
  : result (ResultKind * Policy * State) :=
  '(policy, state) ←
    for_loop fuel 0 (fun ps => length (stages ps.2))
             init_vectorization_stage (policy, state);
  Ok (kValid, policy, state).

(** The first [while (n >= 0)] loop of [InitUnroll::Apply] (attribute
    [always_unroll_inner]); [todo] are the iterators of the stage in reverse
    order, from position [n] down. *)
Fixpoint unroll_inner_loop (state : State) (stage_id : Z)
         (to_unroll_name_set : gset string) (todo : list Iterator)
         (visited_names : gset string) : result State :=
  match todo with
  | [] => Ok state
  | it :: rest =>
      let visited_names' := ExtractOriginalIterators (name it) visited_names in
      if decide (size visited_names = size visited_names') then Ok state
      else
        let name_set := ExtractOriginalIterators (name it) ∅ in
        state ←
          (match elements name_set with
           | [first] =>
               if bool_decide (first ∈ to_unroll_name_set)
                  && bool_decide (annotation it = kNone)
               then State_unroll state stage_id it
               else Ok state
           | _ => Ok state
           end);
        unroll_inner_loop state stage_id to_unroll_name_set rest visited_names'
  end.

(** The second [while (n >= 0)] loop (attribute [always_unroll]). *)
Fixpoint unroll_named_loop (state : State) (stage_id : Z)
         (to_unroll_name_set : gset string) (todo : list Iterator) : result State :=
  match todo with
  | [] => Ok state
  | it :: rest =>
      state ←
        (if bool_decide (name it ∈ to_unroll_name_set)
         then State_unroll state stage_id it else Ok state);
      unroll_named_loop state stage_id to_unroll_name_set rest
  end.

Definition auto_unroll_configs : list Z := [0; 16; 64; 512].

Definition init_unroll_stage (stage_id : nat) (ps : Policy * State)
  : result (Policy * State) :=
  let '(policy, state) := ps in
  stage ← at_Z (stages state) (Z.of_nat stage_id);
  if bool_decide (compute_at stage = kInlined)
     || bool_decide (op_type stage = kPlaceholder) then Ok ps
  else
    state ←
      (if decide (is_Some (attrs (op stage) !! always_unroll_inner)) then
         unroll_inner_loop state (Z.of_nat stage_id)
           (GetIterNameSetParam (attrs (op stage)) always_unroll_inner)
           (rev (iters stage)) ∅
       else Ok state);
    state ←
      (if decide (is_Some (attrs (op stage) !! always_unroll)) then
         unroll_named_loop state (Z.of_nat stage_id)
           (GetIterNameSetParam (attrs (op stage)) always_unroll)
           (rev (iters stage))
       else Ok state);
    let annotate_auto_unroll := HasReduceIter stage in
    if annotate_auto_unroll then
      let '(r, policy) := policy_rand policy in
      value ← at_Z auto_unroll_configs
                   (r mod Z.of_nat (length auto_unroll_configs));
      cur_stage ← at_Z (stages state) (Z.of_nat stage_id);
      it ← at_Z (iters cur_stage) 0;
      state ← State_pragma state (Z.of_nat stage_id) it
                           ("auto_unroll_max_step" +:+ "$" +:+ pretty value);
      Ok (policy, state)
    else Ok (policy, state).

Definition InitUnroll_Apply (fuel : nat) (policy : Policy) (state : State)
  : result (ResultKind * Policy * State) :=
  '(policy, state) ←
    for_loop fuel 0 (fun ps => length (stages ps.2))
             init_unroll_stage (policy, state);
  Ok (kValid, policy, state).

(** Virtual dispatch of [InitPopulationRule::Apply]. *)
Definition InitPopulationRule_Apply (rule : InitPopulationRule) (fuel : nat)
           (policy : Policy) (state : State)
  : result (ResultKind * Policy * State) :=
  match rule with
  | InitFillTileSize => InitFillTileSize_Apply policy state
  | InitChangeComputeLocation => InitChangeComputeLocation_Apply policy state
  | InitParallel => InitParallel_Apply fuel policy state
  | InitVectorization => InitVectorization_Apply fuel policy state
  | InitUnroll => InitUnroll_Apply fuel policy state
  end.

End InitRules.

(** ** The search policy *)

Section SearchPolicy.
Context `{Externals}.

(** The loop [for (const auto& rule : sketch_rules)] of [GenerateSketches] for
    one state.  Returns what is pushed to [pnext] (with the entries written to
    [cur_stage_id_map]) and the rule objects as the calls leave them. *)
Fixpoint try_rules (policy : Policy) (rules : list SketchGenerationRule)
         (state : State) (stage_id : Z)
  : result (list (State * Z) * list SketchGenerationRule) :=
  match rules with
  | [] => Ok ([], [])
  | rule :: rest =>
      '(cond, rule) ← MeetCondition rule policy state stage_id;
      if decide (cond = kPass) then
        '(pairs, rest) ← try_rules policy rest state stage_id;
        Ok (pairs, rule :: rest)
      else
        applied ← Apply rule policy state stage_id;
        if decide (cond = kApplyAndSkipRest) then Ok (applied, rule :: rest)
        else
          '(pairs, rest) ← try_rules policy rest state stage_id;
          Ok (applied ++ pairs, rule :: rest)
  end.

(** The loop [for (const State& state : *pnow)].  [cur_stage_id_map] is keyed
    by object identity and every state of a frontier is an object of its own
    or carries the same stage id, so each state travels with its stage id. *)
Fixpoint expand_frontier (policy : Policy) (pnow : list (State * Z))
         (rules : list SketchGenerationRule) (pnext : list (State * Z))
         (out_states : list State)
  : result (list (State * Z) * list State * list SketchGenerationRule) :=
  match pnow with
  | [] => Ok (pnext, out_states, rules)
  | (state, stage_id) :: rest =>
      if stage_id <? 0 then
        expand_frontier policy rest rules pnext (out_states ++ [state])
      else
        '(pairs, rules) ← try_rules policy rules state stage_id;
        expand_frontier policy rest rules (pnext ++ pairs) out_states
  end.

(** [while (!pnow->empty())] *)
Fixpoint enumerate_sketches (fuel : nat) (policy : Policy) (pnow : list (State * Z))
         (rules : list SketchGenerationRule) (out_states : list State)
  : result (list State * list SketchGenerationRule) :=
  match fuel with
  | O => OutOfFuel
  | Datatypes.S fuel' =>
      match pnow with
      | [] => Ok (out_states, rules)
      | _ =>
          '(pnext, out_states, rules) ←
            expand_frontier policy pnow rules [] out_states;
          enumerate_sketches fuel' policy pnext rules out_states
      end
  end.

Definition is_RfactorStep (s : Step) : bool :=
  match s with RfactorStep _ _ _ => true | _ => false end.

(** The body of the inner loop of the rfactor pass at [step_id]. *)
Definition unset_rfactor_split (step_id : nat) (steps : list Step)
  : result (list Step) :=
  match steps !! step_id with
  | Some step =>
      if is_RfactorStep step then
        if (1 <=? step_id)%nat then
          let split_step_id := (step_id - 1)%nat in
          match steps !! split_step_id with
          | Some (SplitStep stage_id iter_id extent _ inner_to_outer) =>
              Ok (<[split_step_id :=
                      SplitStep stage_id iter_id extent [None] inner_to_outer]> steps)
          | _ => Fatal
          end
        else Fatal
      else Ok steps
  | None => Fatal
  end.

(** [for (step_id = 0; step_id < transform_steps.size(); ++step_id)]; [Set]
    keeps the size. *)
Fixpoint rfactor_pass (todo : nat) (step_id : nat) (steps : list Step)
  : result (list Step) :=
  match todo with
  | O => Ok steps
  | Datatypes.S todo' =>
      steps ← unset_rfactor_split step_id steps;
      rfactor_pass todo' (Datatypes.S step_id) steps
  end.

Definition rfactor_hack (state : State) : result State :=
  steps ← rfactor_pass (length (transform_steps state)) 0 (transform_steps state);
  Ok (set_transform_steps state steps).

Fixpoint rfactor_hack_all (out_states : list State) : result (list State) :=
  match out_states with
  | [] => Ok []
  | state :: rest =>
      state ← rfactor_hack state;
      rest ← rfactor_hack_all rest;
      Ok (state :: rest)
  end.

Definition GenerateSketches (fuel : nat) (policy : Policy)
  : result (list State * Policy) :=
  let init_state := init_state (search_task policy) in
  let pnow := [(init_state, Z.of_nat (length (stages init_state)) - 1)] in
  '(out_states, rules) ←
    enumerate_sketches fuel policy pnow (sketch_rules policy) [];
  out_states ← rfactor_hack_all out_states;
  Ok (out_states, set_sketch_rules policy rules).

(** The loop [for (const auto& rule : init_rules)] of [SampleInitPopulation]. *)
Fixpoint apply_init_rules (rules : list InitPopulationRule) (fuel : nat)
         (policy : Policy) (tmp_s : State) : result (bool * Policy * State) :=
  match rules with
  | [] => Ok (true, policy, tmp_s)
  | rule :: rest =>
      '(kind, policy, tmp_s) ← InitPopulationRule_Apply rule fuel policy tmp_s;
      if decide (kind = kInvalid) then Ok (false, policy, tmp_s)
      else apply_init_rules rest fuel policy tmp_s
  end.

(** The [while] loop of [SampleInitPopulation]; [budget] bounds its
    iterations, [fuel] is handed to the rules. *)
Fixpoint sample_loop (budget : nat) (fuel : nat) (sketches : list State)
         (out_size : Z) (policy : Policy) (out_states : list State) (fail_ct : Z)
  : result (list State * Z * Policy) :=
  if (Z.of_nat (length out_states) <? out_size) && (fail_ct <? out_size) then
    match budget with
    | O => OutOfFuel
    | Datatypes.S budget' =>
        let '(r, policy) := policy_rand policy in
        if decide (sketches = []) then Fatal
        else
          tmp_s ← at_Z sketches (r mod Z.of_nat (length sketches));
          '(valid, policy, tmp_s) ←
            apply_init_rules (init_rules policy) fuel policy tmp_s;
          if valid : bool then
            sample_loop budget' fuel sketches out_size policy
                        (out_states ++ [tmp_s]) fail_ct
          else
            sample_loop budget' fuel sketches out_size policy
                        out_states (fail_ct + 1)
    end
  else Ok (out_states, fail_ct, policy).

(** [SampleInitPopulation], with the final value of [fail_ct] (which the
    source prints).  Every iteration adds a state or increments [fail_ct], and
    the loop stops when either reaches [out_size]: [2 * out_size] iterations
    are never all used. *)
Definition SampleInitPopulation_ct (fuel : nat) (policy : Policy)
           (sketches : list State) (out_size : Z)
  : result (list State * Z * Policy) :=
  sample_loop (Z.to_nat (2 * out_size)) fuel sketches out_size policy [] 0.

Definition SampleInitPopulation (fuel : nat) (policy : Policy)
           (sketches : list State) (out_size : Z)
  : result (list State * Policy) :=
  '(out_states, _, policy) ←
    SampleInitPopulation_ct fuel policy sketches out_size;
  Ok (out_states, policy).

(** The body was removed from the source ("To be added later"): the array
    that is returned is never written. *)
Definition EvolutionarySearch (policy : Policy) (init_populations : list State)
           (out_size : Z) : list State :=
  let best_states : list State := [] in
  best_states.

(** [for (int i = 0; i < num_use_measured; i++)
       init_populations.push_back(measured_states_vector_[indices[i]]);] *)
Fixpoint add_measured (policy : Policy) (indices : list Z) (count : nat) (i : Z)
         (init_populations : list State) : result (list State) :=
  match count with
  | O => Ok init_populations
  | Datatypes.S count' =>
      idx ← at_Z indices i;
      s ← at_Z (measured_states_vector_ policy) idx;
      add_measured policy indices count' (i + 1) (init_populations ++ [s])
  end.

(** [random_states] is the array the pointer argument designates, or [None]
    for [nullptr]; the second component of the result is that array (the
    temporary one for [nullptr]) when the call returns. *)
Definition SearchOneRound (fuel : nat) (policy : Policy) (num_random_states : Z)
           (random_states : option (list State))
  : result (list State * list State * Policy) :=
  let random_states : list State := [] in
  let population := evolutionary_search_population (params policy) in
  let num_use_measured :=
    Z.min (Z.of_nat (length (measured_states_vector_ policy)))
          (double_times_int (evolutionary_search_use_measured_ratio (params policy))
                            population) in
  let is_cost_model_reasonable :=
    negb (is_RandomModelNode (schedule_cost_model policy)) in
  '(sketches, policy) ← GenerateSketches fuel policy;
  '(init_populations, policy) ←
    SampleInitPopulation fuel policy sketches
      (if is_cost_model_reasonable then population - num_use_measured
       else population);
  if is_cost_model_reasonable then
    let indices := Argsort (measured_states_throughputs_ policy) in
    init_populations ←
      add_measured policy indices (Z.to_nat num_use_measured) 0 init_populations;
    let best_states :=
      EvolutionarySearch policy init_populations (num_measure_per_iter_ policy * 2) in
    let '(random_states, g) :=
      RandomSampleStates init_populations (rand_gen policy) (num_random_states * 10) in
    Ok (best_states, random_states, set_rand_gen policy g)
  else
    let '(best_states, g) :=
      RandomSampleStates init_populations (rand_gen policy)
                         (num_measure_per_iter_ policy * 3) in
    Ok (best_states, random_states, set_rand_gen policy g).

(** The [while] loop of [PickStatesWithEpsGreedy]. *)
Fixpoint pick_loop (budget : nat) (best_states random_states : list State)
         (limit num_good : Z) (policy : Policy) (inputs : list MeasureInput)
         (offset_best offset_random : nat)
  : result (list MeasureInput * Policy) :=
  if Z.of_nat (length inputs) <? limit then
    match budget with
    | O => OutOfFuel
    | Datatypes.S budget' =>
        let has_best := best_states !! offset_best in
        let has_random := random_states !! offset_random in
        let picked :=
          if Z.of_nat (length inputs) <? num_good then
            match has_best, has_random with
            | Some state, _ => Some (state, Datatypes.S offset_best, offset_random)
            | None, Some state => Some (state, offset_best, Datatypes.S offset_random)
            | None, None => None
            end
          else
            match has_random, has_best with
            | Some state, _ => Some (state, offset_best, Datatypes.S offset_random)
            | None, Some state => Some (state, Datatypes.S offset_best, offset_random)
            | None, None => None
            end in
        match picked with
        | None => Ok (inputs, policy)
        | Some (state, offset_best, offset_random) =>
            let state_str := ToStr state in
            if bool_decide (state_str ∈ measured_states_set_ policy) then
              pick_loop budget' best_states random_states limit num_good policy
                        inputs offset_best offset_random
            else
              pick_loop budget' best_states random_states limit num_good
                        (record_measured policy state_str state)
                        (inputs ++ [mkMeasureInput (search_task policy) state])
                        offset_best offset_random
        end
    end
  else Ok (inputs, policy).

(** Every iteration but the last takes a state from one of the two arrays. *)
Definition PickStatesWithEpsGreedy (policy : Policy)
           (best_states random_states : list State) (remaining_n_trials : Z)
  : result (list MeasureInput * Policy) :=
  let num_random :=
    double_times_int (eps_greedy (params policy)) (num_measure_per_iter_ policy) in
  let num_good := num_measure_per_iter_ policy - num_random in
  pick_loop (Datatypes.S (length best_states + length random_states))
            best_states random_states
            (Z.min (num_measure_per_iter_ policy) remaining_n_trials) num_good
            policy [] 0 0.

Definition Measurer_Reset (m : ProgramMeasurer) : ProgramMeasurer :=
  mkProgramMeasurer (calls m ++ [CallReset]).

(** [measurer->Measure(task, policy, inputs, &results)] *)
Definition Measurer_Measure (m : ProgramMeasurer) (task : SearchTask)
           (inputs : list MeasureInput) : list MeasureResult * ProgramMeasurer :=
  (Measure_results m task inputs,
   mkProgramMeasurer (calls m ++ [CallMeasure task inputs])).

(** [std::numeric_limits<int>::max() >> 1] *)
Definition int_max_shr_1 : Z := Z.shiftr (2 ^ 31 - 1) 1.

(** The [while (ct < n_trials)] loop of [Search]. *)
Fixpoint search_loop (budget fuel : nat) (n_trials early_stopping num_random : Z)
         (ct : Z) (inputs : list MeasureInput) (results : list MeasureResult)
         (policy : Policy) (measurer : ProgramMeasurer)
  : result (Policy * ProgramMeasurer) :=
  if ct <? n_trials then
    match budget with
    | O => OutOfFuel
    | Datatypes.S budget' =>
        let policy :=
          if decide (inputs = []) then policy
          else set_cost_model policy
                 (CostModel_Update (schedule_cost_model policy) inputs results) in
        '(best_states, random_states, policy) ←
          SearchOneRound fuel policy num_random (Some []);
        best_states ← mapM (InferBound (search_task policy)) best_states;
        random_states ← mapM (InferBound (search_task policy)) random_states;
        '(inputs, policy) ←
          PickStatesWithEpsGreedy policy best_states random_states (n_trials - ct);
        if decide (inputs = []) then Ok (policy, measurer)
        else
          let '(results, measurer) :=
            Measurer_Measure measurer (search_task policy) inputs in
          let ct := ct + Z.of_nat (length inputs) in
          if early_stopping <? ct - best_ct measurer (workload_key (search_task policy))
          then Ok (policy, measurer)
          else
            let policy :=
              foldl (fun p res => push_throughput p (inverse_mean (costs res)))
                    policy results in
            search_loop budget' fuel n_trials early_stopping num_random
                        ct inputs results policy measurer
    end
  else Ok (policy, measurer).

(** [SketchSearchPolicyNode::Search].  Besides the state it returns the policy
    and the measurer as the call leaves them. *)
Definition Search (fuel : nat) (policy : Policy) (n_trials early_stopping
           num_measure_per_iter : Z) (measurer : ProgramMeasurer)
  : result (State * Policy * ProgramMeasurer) :=
  let policy := set_num_measure_per_iter policy num_measure_per_iter in
  if n_trials <=? 1 then
    '(best_states, _, policy) ← SearchOneRound fuel policy 0 None;
    if 0 <? Z.of_nat (length best_states) then
      first ← at_Z best_states 0;
      Ok (first, policy, measurer)
    else Fatal
  else
    let num_random :=
      double_times_int (eps_greedy (params policy)) num_measure_per_iter in
    let measurer := Measurer_Reset measurer in
    let early_stopping :=
      if early_stopping <? 0 then int_max_shr_1 else early_stopping in
    '(policy, measurer) ←
      search_loop (Z.to_nat n_trials) fuel n_trials early_stopping num_random
                  0 [] [] policy measurer;
    Ok (best_state measurer (workload_key (search_task policy)), policy, measurer).

End SearchPolicy.

(** ** Vocabulary of the statements *)

Definition product (l : list Z) : Z := foldr Z.mul 1 l.

(** A step [InitFillTileSize] has to fill: a split with a length that is not
    defined. *)
Definition needs_fill (step : Step) : bool :=
  match step with
  | SplitStep _ _ _ lengths _ => negb (all_defined lengths)
  | _ => false
  end.

(** How [InitFillTileSize] changes the step at position [i] of the history
    [steps], for a generator [g] and the bound [max] on the innermost factor:
    a step to fill gets the scheme at index [r mod size] of the schemes of its
    extent as an [int], [r] being the next word of the generator, one word
    per filled step; every other step is kept. *)
Definition filled_step (max : Z) (g : mt19937) (steps : list Step) (i : nat)
           (step step' : Step) : Prop :=
  match step with
  | SplitStep stage_id iter_id extent lengths inner_to_outer =>
      if all_defined lengths then step' = step
      else
        exists e scheme,
          let schemes := GetFactorizationSchemes (to_int32 e) (length lengths) max in
          let r := Z.of_N (draws g (drawn g + length (filter (fun s => needs_fill s = true)
                                                             (take i steps)))) in
          extent = Some e
          /\ schemes !! Z.to_nat (r mod Z.of_nat (length schemes)) = Some scheme
          /\ step' = SplitStep stage_id iter_id extent (Some <$> scheme) inner_to_outer
  | _ => step' = step
  end.

Section VectorizeVocabulary.
Context `{Externals}.

(** The count of the Vectorize rule in the words of the design document:
    "walking from innermost outward while iterators are spatial, unannotated,
    and the cumulative extent stays within [max_vectorize_size]";
    [inner_to_outer] are the iterators from the innermost outward.  Only
    compared with [count_fusible]. *)
Fixpoint num_fusible_in_words (max : Z) (inner_to_outer : list Iterator)
         (cum_extent : Z) : Z :=
  match inner_to_outer with
  | [] => 0
  | it :: rest =>
      if bool_decide (iter_kind it = kSpatial)
         && bool_decide (annotation it = kNone)
         && (cum_extent * GetExtent it <=? max)
      then 1 + num_fusible_in_words max rest (cum_extent * GetExtent it)
      else 0
  end.

(** [cum_length_prod] after the [j] innermost iterators. *)
Definition cum_length (stage : Stage) (j : nat) : Z :=
  foldl (fun c it => to_int32 (c * GetExtent it)) 1 (take j (rev (iters stage))).

(** The iterator [it], the [j]-th from the innermost one, is counted by the
    loop of [InitVectorization]. *)
Definition fusible_here (policy : Policy) (state : State) (stage : Stage)
           (stage_id : Z) (j : nat) (it : Iterator) : Prop :=
  has_attached state stage_id (Z.of_nat (length (iters stage)) - 1 - Z.of_nat j) = false
  /\ iter_kind it = kSpatial
  /\ annotation it = kNone
  /\ (name it ∉ unroll_name_set (op stage) always_unroll)
  /\ (IsTiled stage = false \/ j = O)
  /\ cum_length stage (Datatypes.S j) <= max_vectorize_size (params policy).

End VectorizeVocabulary.

(** Everything of the policy object but the generator and the rule objects is
    the same in [p] and [p']. *)
Definition policy_frame (p p' : Policy) : Prop :=
  search_task p' = search_task p
  /\ schedule_cost_model p' = schedule_cost_model p
  /\ params p' = params p
  /\ init_rules p' = init_rules p
  /\ measured_states_set_ p' = measured_states_set_ p
  /\ measured_states_vector_ p' = measured_states_vector_ p
  /\ measured_states_throughputs_ p' = measured_states_throughputs_ p
  /\ num_measure_per_iter_ p' = num_measure_per_iter_ p.

(** The step before position [i] of [steps] is a split whose only length is
    unset. *)
Definition split_unset_before (steps : list Step) (i : nat) : Prop :=
  (1 <= i)%nat
  /\ exists stage_id iter_id extent inner_to_outer,
       steps !! (i - 1)%nat
       = Some (SplitStep stage_id iter_id extent [None] inner_to_outer).

(** The rfactor pass has done its work on the first [k] steps of [cur]. *)
Definition rfactor_pass_invariant (k : nat) (cur : list Step) : Prop :=
  forall i step, (i < k)%nat -> cur !! i = Some step ->
                 is_RfactorStep step = true -> split_unset_before cur i.

(** [p'] is [p] but for the measured states it keeps. *)
Definition policy_frame_but_measured (p p' : Policy) : Prop :=
  search_task p' = search_task p
  /\ schedule_cost_model p' = schedule_cost_model p
  /\ rand_gen p' = rand_gen p
  /\ params p' = params p
  /\ sketch_rules p' = sketch_rules p
  /\ init_rules p' = init_rules p
  /\ measured_states_throughputs_ p' = measured_states_throughputs_ p
  /\ num_measure_per_iter_ p' = num_measure_per_iter_ p.

Section PickVocabulary.
Context `{Externals}.

(** The canonical strings of the states wrapped in a list of measure inputs. *)
Definition input_strs (inputs : list MeasureInput) : list string :=
  (fun mi => ToStr (mi_state mi)) <$> inputs.

(** A sequence of calls to [PickStatesWithEpsGreedy] on one policy object,
    with what they return; between two calls the policy object may change in
    any way that leaves [measured_states_set_] alone (nothing but
    [PickStatesWithEpsGreedy] writes it). *)
Inductive pick_run : Policy -> list (list MeasureInput) -> Policy -> Prop :=
| pick_run_done (p : Policy) : pick_run p [] p
| pick_run_between (p p1 p2 : Policy) (outs : list (list MeasureInput)) :
    measured_states_set_ p1 = measured_states_set_ p ->
    pick_run p1 outs p2 ->
    pick_run p outs p2
| pick_run_pick (p p1 p2 : Policy) (best_states random_states : list State)
                (remaining_n_trials : Z) (inputs : list MeasureInput)
                (outs : list (list MeasureInput)) :
    PickStatesWithEpsGreedy p best_states random_states remaining_n_trials
    = Ok (inputs, p1) ->
    pick_run p1 outs p2 ->
    pick_run p (inputs :: outs) p2.

(** What one run of the loop of [PickStatesWithEpsGreedy] adds to the inputs
    and to the policy object. *)
Definition picked_since (p : Policy) (inputs : list MeasureInput)
           (p' : Policy) (inputs' : list MeasureInput) : Prop :=
  exists new,
    inputs' = inputs ++ new
    /\ NoDup (input_strs new)
    /\ (forall x, x ∈ input_strs new -> x ∉ measured_states_set_ p)
    /\ measured_states_set_ p' = list_to_set (input_strs new) ∪ measured_states_set_ p
    /\ measured_states_vector_ p' = measured_states_vector_ p ++ (mi_state <$> new)
    /\ Forall (fun mi => mi_task mi = search_task p) new
    /\ policy_frame_but_measured p p'.

(** The inputs of the [Measure] calls in a list of calls to the measurer. *)
Definition measured_inputs (cs : list MeasurerCall) : list MeasureInput :=
  c ← cs; match c with CallMeasure _ inputs => inputs | CallReset => [] end.

End PickVocabulary.

(** The state of the loop of [InitFillTileSize] before step [k], for the
    policy and the state the rule was called with. *)
Definition fill_invariant (policy0 : Policy) (state0 : State) (k : nat)
           (ps : Policy * State) : Prop :=
  let steps0 := transform_steps state0 in
  let max := max_innermost_split_factor (params policy0) in
  stages ps.2 = stages state0
  /\ attach_map ps.2 = attach_map state0
  /\ concrete ps.2 = concrete state0
  /\ params ps.1 = params policy0
  /\ draws (rand_gen ps.1) = draws (rand_gen policy0)
  /\ drawn (rand_gen ps.1)
     = (drawn (rand_gen policy0)
        + length (filter (fun s => needs_fill s = true) (take k steps0)))%nat
  /\ length (transform_steps ps.2) = length steps0
  /\ (forall i step, (i < k)%nat -> steps0 !! i = Some step ->
        exists step', transform_steps ps.2 !! i = Some step'
                      /\ filled_step max (rand_gen policy0) steps0 i step step')
  /\ (forall i, (k <= i)%nat -> transform_steps ps.2 !! i = steps0 !! i).

(** ** A small implementation of the externals

    Enough of the loop state and of the analyses to run the policy on small
    examples.  The results of the access analysis are read from tags in the
    [attrs] of an operation; every mutator appends its step to the history and
    updates the iterators of the stage in the simplest way. *)
Module Demo.

Definition has_tag (st : State) (stage_id : Z) (key : string) : bool :=
  match at_Z (stages st) stage_id with
  | Ok stage => bool_decide (is_Some (attrs (op stage) !! key))
  | _ => false
  end.

Definition has_reduce_iter (stage : Stage) : bool :=
  existsb (fun it => bool_decide (iter_kind it = kReduction)) (iters stage).

Definition push_step (st : State) (step : Step) : State :=
  set_transform_steps st (transform_steps st ++ [step]).

Definition set_iters (st : State) (stage_id : Z) (its : list Iterator) : State :=
  mkState (alter (fun stage => mkStage (op stage) (op_type stage) its (compute_at stage))
                 (Z.to_nat stage_id) (stages st))
          (transform_steps st) (attach_map st) (concrete st).

Definition set_compute_at (st : State) (stage_id : Z) (k : ComputeAtKind) : State :=
  mkState (alter (fun stage => mkStage (op stage) (op_type stage) (iters stage) k)
                 (Z.to_nat stage_id) (stages st))
          (transform_steps st) (attach_map st) (concrete st).

Fixpoint iter_index (its : list Iterator) (it : Iterator) (i : Z) : Z :=
  match its with
  | [] => i
  | x :: rest => if String.eqb (name x) (name it) then i else iter_index rest it (i + 1)
  end.

Definition annotate (st : State) (stage_id : Z) (it : Iterator)
           (ann : IteratorAnnotation) : result State :=
  stage ← at_Z (stages st) stage_id;
  let i := iter_index (iters stage) it 0 in
  Ok (push_step
        (set_iters st stage_id
           (alter (fun x => mkIterator (name x) (range x) (iter_kind x) ann)
                  (Z.to_nat i) (iters stage)))
        (AnnotationStep stage_id i ann)).

Definition split_names (it : Iterator) (lens : list (option Z)) : list Iterator :=
  (fun k => mkIterator (name it +:+ "." +:+ pretty (Z.of_nat k)) None
                       (iter_kind it) kNone)
    <$> seq 0 (Datatypes.S (length lens)).

Definition split (st : State) (stage_id : Z) (it : Iterator)
           (lens : list (option Z)) : result (State * list Iterator) :=
  stage ← at_Z (stages st) stage_id;
  let i := iter_index (iters stage) it 0 in
  let res := split_names it lens in
  Ok (push_step
        (set_iters st stage_id
           (take (Z.to_nat i) (iters stage) ++ res
                 ++ drop (Datatypes.S (Z.to_nat i)) (iters stage)))
        (SplitStep stage_id i (range it) lens true),
      res).

Definition fuse (st : State) (stage_id : Z) (its : list Iterator)
  : result (State * Iterator) :=
  stage ← at_Z (stages st) stage_id;
  first ← at_Z its 0;
  let i := iter_index (iters stage) first 0 in
  let fused :=
    mkIterator (foldr (fun x acc => name x +:+ "@" +:+ acc) "" its)
               (foldr (fun x acc => e ← range x; a ← acc; Some (e * a)) (Some 1) its)
               (iter_kind first) kNone in
  Ok (push_step
        (set_iters st stage_id
           (take (Z.to_nat i) (iters stage) ++ [fused]
                 ++ drop (Z.to_nat i + length its) (iters stage)))
        (FuseStep stage_id ((fun x => iter_index (iters stage) x 0) <$> its)),
      fused).

Definition rfactor (st : State) (stage_id : Z) (it : Iterator) (factor_iter_id : Z)
           (task : SearchTask) : result (State * Z) :=
  stage ← at_Z (stages st) stage_id;
  let rstage :=
    mkStage (mkOperation (op_name (op stage) +:+ ".rf") (attrs (op stage)))
            kCompute (iters stage) kRoot in
  Ok (mkState (take (Z.to_nat stage_id) (stages st) ++ [rstage]
                    ++ drop (Z.to_nat stage_id) (stages st))
              (transform_steps st
                 ++ [RfactorStep stage_id (iter_index (iters stage) it 0) factor_iter_id])
              (attach_map st) (concrete st),
      stage_id).

Definition multi_level_tiling (st : State) (stage_id : Z) (structure : string)
  : result (State * list Z) :=
  stage ← at_Z (stages st) stage_id;
  it ← at_Z (iters stage) 0;
  '(st, _) ← split st stage_id it [None; None];
  Ok (st, [Z.of_nat (length (transform_steps st)) - 1]).

Definition fuse_all_reduction (st : State) (stage_id : Z)
  : result (State * Iterator * list Iterator * list Iterator) :=
  stage ← at_Z (stages st) stage_id;
  let space_iters := filter (fun it => iter_kind it = kSpatial) (iters stage) in
  let reduce_iters := filter (fun it => iter_kind it = kReduction) (iters stage) in
  match reduce_iters with
  | [] => Fatal
  | [r] => Ok (st, r, space_iters, reduce_iters)
  | _ => '(st, fused) ← fuse st stage_id reduce_iters;
         Ok (st, fused, space_iters, reduce_iters)
  end.

Fixpoint random_sample (n : nat) (l : list State) (g : mt19937)
  : list State * mt19937 :=
  match n with
  | O => ([], g)
  | Datatypes.S n' =>
      let '(r, g) := rand g in
      match l !! Z.to_nat (r mod Z.of_nat (length l)) with
      | Some s => let '(rest, g) := random_sample n' l g in (s :: rest, g)
      | None => ([], g)
      end
  end.

Definition str_ends_with (s suffix : string) : bool :=
  String.eqb
    (String.substring (String.length s - String.length suffix)
                      (String.length suffix) s)
    suffix.

Definition to_str (st : State) : string :=
  pretty (Z.of_nat (length (stages st))) +:+ "/"
  +:+ pretty (Z.of_nat (length (transform_steps st))).

Definition empty_state : State := mkState [] [] (mkAttachMap ∅ ∅) false.

#[export] Instance externals : Externals := {|
  IsOutputOp := fun _ st id => has_tag st id "output";
  HasReduceIter := has_reduce_iter;
  HasAttrsFlag := has_tag;
  IsStrictInlineable := fun _ st id => has_tag st id "strict_inlineable";
  NeedsMultilevelTiling := fun _ st id => has_tag st id "needs_multi_level_tiling";
  HasSingleElementwiseMatchedConsumer := fun _ st id =>
    if has_tag st id "matched_consumer" then (true, Some (id + 1)) else (false, None);
  HasCacheWriteStage := fun st id =>
    existsb (fun step => match step with
                         | CacheWriteStep sid _ => sid =? id
                         | _ => false
                         end) (transform_steps st);
  HasFuseFactorableReduceAxis := fun _ st id =>
    match at_Z (stages st) id with Ok stage => has_reduce_iter stage | _ => false end;
  IsTiled := fun stage => bool_decide (is_Some (attrs (op stage) !! "tiled"));
  HasAnnotatedIter := fun stage ann =>
    existsb (fun it => bool_decide (annotation it = ann)) (iters stage);
  GetSingleConsumerId := fun _ _ _ => -1;
  GetExtent := fun it => default (-1) (range it);
  GetIterNameSetParam := fun a key => list_to_set (default [] (a !! key));
  ExtractOriginalIterators := fun n visited => {[n]} ∪ visited;
  StrEndsWith := str_ends_with;
  DoMultiLevelTiling := multi_level_tiling;
  FollowTiling := fun st _ _ _ => Ok st;
  FuseAllReductionIterators := fuse_all_reduction;
  RandomSampleStates := fun l g n => random_sample (Z.to_nat n) l g;
  Argsort := fun l => Z.of_nat <$> seq 0 (length l);
  State_compute_inline := fun st id =>
    Ok (push_step (set_compute_at st id kInlined) (ComputeInlineStep id));
  State_compute_root := fun st id =>
    Ok (push_step (set_compute_at st id kRoot) (ComputeRootStep id));
  State_compute_at := fun st id target it =>
    target_stage ← at_Z (stages st) target;
    Ok (push_step (set_compute_at st id kIter)
                  (ComputeAtStep id target (iter_index (iters target_stage) it 0)));
  State_cache_write := fun st id scope_name _ =>
    Ok (push_step st (CacheWriteStep id scope_name), id);
  State_split := split;
  State_rfactor := rfactor;
  State_reorder := fun st id order =>
    stage ← at_Z (stages st) id;
    Ok (push_step (set_iters st id order)
                  (ReorderStep id ((fun x => iter_index (iters stage) x 0) <$> order)));
  State_fuse := fuse;
  State_parallel := fun st id it => annotate st id it kParallel;
  State_vectorize := fun st id it => annotate st id it kVectorize;
  State_unroll := fun st id it => annotate st id it kUnroll;
  State_pragma := fun st id it pragma_type =>
    stage ← at_Z (stages st) id;
    Ok (push_step st (PragmaStep id (iter_index (iters stage) it 0) pragma_type));
  InferBound := fun _ st => Ok st;
  ToStr := to_str;
  Measure_results := fun _ _ inputs => (fun _ => mkMeasureResult [mkDouble 1] 0) <$> inputs;
  best_ct := fun _ _ => 0;
  best_state := fun _ _ => empty_state;
  double_times_int := fun d n => bits d * n / 100;
  inverse_mean := fun _ => mkDouble 1
|}.

Definition tags (keys : list string) : gmap string (list string) :=
  list_to_map ((fun k => (k, [])) <$> keys).

Definition spatial (n : string) (e : Z) : Iterator := mkIterator n (Some e) kSpatial kNone.
Definition reduction (n : string) (e : Z) : Iterator := mkIterator n (Some e) kReduction kNone.

Definition placeholder_stage (n : string) (its : list Iterator) : Stage :=
  mkStage (mkOperation n ∅) kPlaceholder its kRoot.

Definition compute_stage (n : string) (keys : list string) (its : list Iterator) : Stage :=
  mkStage (mkOperation n (tags keys)) kCompute its kRoot.

Definition state_of (sts : list Stage) : State :=
  mkState sts [] (mkAttachMap ∅ ∅) false.

Definition default_params : Params :=
  mkParams (mkDouble 50) 64 16 0 "SSRSRS" 4 (mkDouble 25).

Definition default_sketch_rules : list SketchGenerationRule :=
  [RuleAlwaysInline; RuleAddRfactor; RuleAddCacheWrite;
   RuleMultiLevelTilingWithFusion 0; RuleMultiLevelTiling; RuleSkipStage].

Definition default_init_rules : list InitPopulationRule :=
  [InitFillTileSize; InitChangeComputeLocation; InitParallel;
   InitVectorization; InitUnroll].

(** The policy the constructor builds for the task with initial state
    [init]; [random_model] tells whether the cost model is a [RandomModel]. *)
Definition policy_for (init : State) (random_model : bool) (p : Params)
           (seed : nat -> N) : Policy :=
  mkPolicy (mkSearchTask init "demo" 4) (mkCostModel random_model [])
           (mkRng seed 0) p default_sketch_rules default_init_rules ∅ [] [] 0.

(** A stage tagged for inlining that the analyzer does not find strictly
    inlineable. *)
Definition tagged_state : State :=
  state_of [placeholder_stage "A" [spatial "i" 8];
            compute_stage "B" [always_compute_inline] [spatial "i" 8];
            compute_stage "C" ["output"] [spatial "i" 8]].

(** A reduction: [i] spatial, [k] and [l] reduced. *)
Definition reduce_state : State :=
  state_of [placeholder_stage "A" [spatial "i" 4; spatial "k" 8];
            compute_stage "C" ["output"; "needs_multi_level_tiling"; no_cache_write]
                          [spatial "i" 4; reduction "k" 8; reduction "l" 2]].

(** A tiled operation [conv] with the elementwise consumer [bias]. *)
Definition fusion_state : State :=
  state_of [placeholder_stage "data" [spatial "i" 8; spatial "j" 8];
            compute_stage "conv" ["needs_multi_level_tiling"; "matched_consumer"]
                          [spatial "i" 8; spatial "j" 8; reduction "k" 4];
            compute_stage "bias" ["output"] [spatial "i" 8; spatial "j" 8]].

(** Two stages; [B] is attached to the innermost iterator of [C]. *)
Definition attached_state : State :=
  mkState [mkStage (mkOperation "B" ∅) kCompute [spatial "i" 4; spatial "j" 4] kIter;
           compute_stage "C" ["output"] [spatial "i" 4; spatial "j" 4]]
          [] (mkAttachMap {[0 := (1, 1)]} {[(1, 1) := [0]]}) false.

(** Three small spatial loops. *)
Definition loops_state : State :=
  state_of [compute_stage "D" ["output"] [spatial "i" 2; spatial "j" 2; spatial "k" 2]].

(** A history with a split to fill. *)
Definition unfilled_state : State :=
  mkState [compute_stage "C" ["output"] [spatial "i" 12]]
          [SplitStep 0 0 (Some 12) [None; None] true; FuseStep 0 [0; 1];
           SplitStep 0 0 (Some 12) [Some 3] true]
          (mkAttachMap ∅ ∅) false.

Definition input_state : State := state_of [placeholder_stage "A" [spatial "i" 8]].

(** A split to fill whose extent, [2 ^ 32 + 12], is not in the range of
    [int]. *)
Definition wide_state : State :=
  mkState [compute_stage "C" ["output"] [spatial "i" (2 ^ 32 + 12)]]
          [SplitStep 0 0 (Some (2 ^ 32 + 12)) [None] true]
          (mkAttachMap ∅ ∅) false.

Definition counting (n : nat) : N := N.of_nat n.

Definition tagged_policy : Policy :=
  policy_for tagged_state true default_params counting.
Definition reduce_policy : Policy :=
  policy_for reduce_state true default_params counting.
Definition reduce_policy_trained : Policy :=
  policy_for reduce_state false default_params counting.
Definition attached_policy : Policy :=
  policy_for attached_state true default_params counting.
Definition loops_policy : Policy :=
  policy_for loops_state true default_params counting.
Definition unfilled_policy : Policy :=
  policy_for unfilled_state true default_params counting.
Definition input_policy : Policy :=
  policy_for input_state true default_params counting.

Definition fusion_policy : Policy :=
  policy_for fusion_state true default_params counting.

Definition fresh_measurer : ProgramMeasurer := mkProgramMeasurer [].

End Demo.

(** ** Further vocabulary *)

(** More small examples. *)
Module DemoMore.

(** A policy that has measured [Demo.tagged_state] already. *)
Definition seen_policy : Policy :=
  record_measured (set_num_measure_per_iter Demo.reduce_policy 4)
                  (Demo.to_str Demo.tagged_state) Demo.tagged_state.

(** An elementwise output stage over a placeholder: no sketch rule but
    [RuleSkipStage] meets its condition. *)
Definition plain_state : State :=
  Demo.state_of [Demo.placeholder_stage "A" [Demo.spatial "i" 8];
                 Demo.compute_stage "C" ["output"] [Demo.spatial "i" 8]].

Definition plain_policy : Policy :=
  Demo.policy_for plain_state true Demo.default_params Demo.counting.

(** A placeholder and an inlined stage only. *)
Definition inlined_state : State :=
  Demo.state_of [Demo.placeholder_stage "A" [Demo.spatial "i" 8];
                 mkStage (mkOperation "B" ∅) kCompute [Demo.spatial "i" 8] kInlined].

Definition inlined_policy : Policy :=
  Demo.policy_for inlined_state true Demo.default_params Demo.counting.




End DemoMore.

(** The batches of inputs of the [Measure] calls in a list of calls to the
    measurer, in order. *)
Definition measure_batches (cs : list MeasurerCall) : list (list MeasureInput) :=
  omap (fun c => match c with
                 | CallMeasure _ inputs => Some inputs
                 | CallReset => None
                 end) cs.

(** What stays of the policy object over a whole search: the task, the batch
    size and the dynamic type of the cost model. *)
Definition same_search (p p' : Policy) : Prop :=
  search_task p' = search_task p
  /\ num_measure_per_iter_ p' = num_measure_per_iter_ p
  /\ params p' = params p
  /\ is_RandomModelNode (schedule_cost_model p')
     = is_RandomModelNode (schedule_cost_model p).

(** The sketch rules in the order in which the constructor
    [SketchSearchPolicy::SketchSearchPolicy] pushes the static rule objects;
    [target_stage_id] is the value the member of
    [rule_multi_level_tiling_with_fusion] holds. *)
Definition default_sketch_rules (target_stage_id : Z) : list SketchGenerationRule :=
  [RuleAlwaysInline; RuleAddRfactor; RuleAddCacheWrite;
   RuleMultiLevelTilingWithFusion target_stage_id; RuleMultiLevelTiling;
   RuleSkipStage].

(** The init population rules in the order of the constructor. *)
Definition default_init_rules : list InitPopulationRule :=
  [InitFillTileSize; InitChangeComputeLocation; InitParallel;
   InitVectorization; InitUnroll].

Definition is_SplitStep (s : Step) : bool :=
  match s with SplitStep _ _ _ _ _ => true | _ => false end.

(** A split step with its lengths replaced by one undefined length; any other
    step as it is. *)
Definition unset_lengths (step : Step) : Step :=
  match step with
  | SplitStep stage_id iter_id extent _ inner_to_outer =>
      SplitStep stage_id iter_id extent [None] inner_to_outer
  | _ => step
  end.

(** The step after position [i] of [steps] is an [RfactorStep]. *)
Definition before_rfactor (steps : list Step) (i : nat) : bool :=
  match steps !! Datatypes.S i with
  | Some step => is_RfactorStep step
  | None => false
  end.

(** Every [RfactorStep] of [steps] comes directly after a [SplitStep]. *)
Definition rfactor_after_split (steps : list Step) : Prop :=
  forall i step, steps !! i = Some step -> is_RfactorStep step = true ->
                 (1 <= i)%nat
                 /\ exists prev, steps !! (i - 1)%nat = Some prev
                                 /\ is_SplitStep prev = true.

(** The history of [steps0] while the rfactor pass is at position [k]: the
    splits before the [RfactorStep]s met so far have their lengths unset. *)
Definition rfactor_pass_state (steps0 : list Step) (k : nat) (cur : list Step)
  : Prop :=
  length cur = length steps0
  /\ forall i step, steps0 !! i = Some step ->
       cur !! i = Some (if (Datatypes.S i <? k)%nat && before_rfactor steps0 i
                        then unset_lengths step else step).

(** A stage the annotation rules pass over. *)
Definition not_scheduled (stage : Stage) : Prop :=
  op_type stage = kPlaceholder \/ compute_at stage = kInlined.

Section SampleVocabulary.
Context `{Externals}.

(** The rules of a list applied one after the other to a state, the policy
    going from [p] to [p'], none of them finding the state invalid. *)
Inductive rules_applied (fuel : nat)
  : list InitPopulationRule -> Policy -> State -> Policy -> State -> Prop :=
| rules_applied_nil (p : Policy) (s : State) : rules_applied fuel [] p s p s
| rules_applied_cons (rule : InitPopulationRule) (rest : list InitPopulationRule)
                     (p p1 p' : Policy) (s s1 s' : State) :
    InitPopulationRule_Apply rule fuel p s = Ok (kValid, p1, s1) ->
    rules_applied fuel rest p1 s1 p' s' ->
    rules_applied fuel (rule :: rest) p s p' s'.

(** The states sampled one after the other from [sketches], the policy going
    from [p] to [p']: each is the sketch at index [r mod sketches.size()], [r]
    the next word of the policy's generator, after the init rules of the
    policy; the next sample starts from the policy as these rules leave it. *)
Inductive samples (fuel : nat) (sketches : list State)
  : Policy -> list State -> Policy -> Prop :=
| samples_nil (p : Policy) : samples fuel sketches p [] p
| samples_cons (p p1 p' : Policy) (sketch s : State) (out : list State) :
    sketches !! Z.to_nat ((policy_rand p).1 mod Z.of_nat (length sketches))
    = Some sketch ->
    rules_applied fuel (init_rules p) (policy_rand p).2 sketch p1 s ->
    samples fuel sketches p1 out p' ->
    samples fuel sketches p (s :: out) p'.

End SampleVocabulary.

Section LocationVocabulary.
Context `{Externals}.



End LocationVocabulary.

Section ParallelVocabulary.
Context `{Externals}.

(** [parallel_degree] after the iterators [its], from the value [d]: the
    product of their extents as the [int64_t] accumulates it. *)
Definition parallel_degree_of (d : Z) (its : list Iterator) : Z :=
  foldl (fun d it => to_int64 (d * GetExtent it)) d its.

End ParallelVocabulary.

(** * Properties *)

(** ** General facts *)

Lemma bind_Ok {A B} (m : result A) (f : A -> result B) (b : B) :
  m ≫= f = Ok b -> exists a, m = Ok a /\ f a = Ok b.
Proof. destruct m; simpl; intros E; try discriminate. eauto. Qed.

Lemma at_Z_Ok {A} (l : list A) (i : Z) (a : A) :
  at_Z l i = Ok a <-> 0 <= i /\ l !! Z.to_nat i = Some a.
Proof.
  unfold at_Z. destruct (Z.leb_spec 0 i).
  - destruct (l !! Z.to_nat i); split; intros; try discriminate;
      intuition congruence.
  - split; [discriminate | lia].
Qed.

Lemma at_Z_of_nat {A} (l : list A) (i : nat) :
  at_Z l (Z.of_nat i) = match l !! i with Some a => Ok a | None => Fatal end.
Proof.
  unfold at_Z. destruct (Z.leb_spec 0 (Z.of_nat i)); [|lia].
  by rewrite Nat2Z.id.
Qed.

(** ** Sketch generation rules *)

Section SketchRuleFacts.
Context `{Externals}.

(** C5 (as the code has it): [RuleAlwaysInline] fires, with
    apply-and-skip-rest, exactly when the stage is not a placeholder, is not an
    output, has no reduction iterator, and either carries the
    [always_compute_inline] tag or the analyzer finds it strictly inlineable;
    it never fires on a placeholder, otherwise it passes; applying it emits
    [compute_inline] on the stage and moves to [stage_id - 1]. *)
Theorem RuleAlwaysInline_fires_iff (policy : Policy) (state : State)
        (stage_id : Z) (stage : Stage) :
  at_Z (stages state) stage_id = Ok stage ->
  (RuleAlwaysInline_MeetCondition policy state stage_id = Ok kApplyAndSkipRest <->
     op_type stage <> kPlaceholder
     /\ IsOutputOp (search_task policy) state stage_id = false
     /\ HasReduceIter stage = false
     /\ (HasAttrsFlag state stage_id always_compute_inline = true
         \/ IsStrictInlineable (search_task policy) state stage_id = true))
  /\ (op_type stage = kPlaceholder ->
      RuleAlwaysInline_MeetCondition policy state stage_id = Ok kPass)
  /\ (RuleAlwaysInline_MeetCondition policy state stage_id = Ok kApplyAndSkipRest
      \/ RuleAlwaysInline_MeetCondition policy state stage_id = Ok kPass)
  /\ RuleAlwaysInline_Apply policy state stage_id
     = (tmp_s ← State_compute_inline state stage_id; Ok [(tmp_s, stage_id - 1)]).
Proof.
  intros Hst.
  unfold RuleAlwaysInline_MeetCondition, ShouldAlwaysBeInlined.
  rewrite Hst. simpl.
  destruct (decide (op_type stage = kPlaceholder)) as [Hp|Hp]; simpl.
  - repeat split; auto; try (intros; discriminate); intros (? & _); contradiction.
  - destruct (IsOutputOp _ state stage_id), (HasReduceIter stage),
      (HasAttrsFlag state stage_id always_compute_inline),
      (IsStrictInlineable _ state stage_id); simpl;
      repeat split; auto; try (intros; discriminate); try contradiction;
      try (intros (_ & ? & ? & [?|?]); discriminate).
Qed.

Lemma level_is_spatial_char (structure : string) (level : Z) :
  level_is_spatial structure level = true <->
  exists c, String.get (Z.to_nat (level - 1)) structure = Some c
            /\ (c = "s"%char \/ c = "S"%char).
Proof.
  unfold level_is_spatial, is_spatial_level_char.
  destruct (String.get _ structure) as [c|].
  - rewrite orb_true_iff, !Ascii.eqb_eq. split.
    + intros Hc. exists c. auto.
    + intros (c' & [= ->] & Hc). exact Hc.
  - split; [discriminate | intros (c & [=] & _)].
Qed.

Lemma fusion_levels_mapM structure base target_stage_id stage_id ids levels :
  fusion_levels structure base target_stage_id stage_id ids levels
  = mapM (fusion_variant base target_stage_id stage_id ids)
         (filter (fun level => level_is_spatial structure level = true) levels).
Proof.
  induction levels as [|level rest IH]; simpl; [done|].
  rewrite filter_cons.
  destruct (level_is_spatial structure level); simpl.
  - destruct (decide (true = true)); [|done]. simpl. by rewrite IH.
  - destruct (decide (false = true)); [done|]. apply IH.
Qed.

(** C6: [RuleMultiLevelTilingWithFusion] applies (does not pass) exactly when
    the stage needs multi-level tiling and has a single elementwise-matched
    consumer; it answers apply-and-skip-rest exactly when, in addition, the
    stage has a cache-write stage; it remembers the consumer found; applied, it
    performs the multi-level tiling once and emits, for each level of 1 and 2
    whose character in the structure string is ['s'] or ['S'], in that order,
    the state obtained by follow-tiling the consumer at that level and
    computing the stage at the consumer's iterator
    [level * (number of spatial split steps) - 1], paired with
    [stage_id - 1]. *)
Theorem RuleMultiLevelTilingWithFusion_spec (policy : Policy) (member : Z)
        (state : State) (stage_id : Z) :
  let task := search_task policy in
  let needs := NeedsMultilevelTiling task state stage_id in
  let found := HasSingleElementwiseMatchedConsumer task state stage_id in
  let structure := cpu_structure (params policy) in
  (exists cond target,
      RuleMultiLevelTilingWithFusion_MeetCondition policy member state stage_id
      = Ok (cond, target)
      /\ (cond <> kPass <-> needs = true /\ found.1 = true)
      /\ (cond = kApplyAndSkipRest <->
          needs = true /\ found.1 = true /\ HasCacheWriteStage state stage_id = true)
      /\ (needs = true -> target = default member found.2)
      /\ (needs = false -> target = member))
  /\ RuleMultiLevelTilingWithFusion_Apply policy member state stage_id
     = ('(base_state, spatial_split_step_ids) ←
          DoMultiLevelTiling state stage_id structure;
        mapM (fun level =>
                tmp_s ← FollowTiling base_state member spatial_split_step_ids level;
                target_stage ← at_Z (stages tmp_s) member;
                target_iter ←
                  at_Z (iters target_stage)
                       (level * Z.of_nat (length spatial_split_step_ids) - 1);
                tmp_s ← State_compute_at tmp_s stage_id member target_iter;
                Ok (tmp_s, stage_id - 1))
             (filter (fun level => level_is_spatial structure level = true) [1; 2]))
  /\ (forall level,
        level_is_spatial structure level = true <->
        exists c, String.get (Z.to_nat (level - 1)) structure = Some c
                  /\ (c = "s"%char \/ c = "S"%char)).
Proof.
  cbv zeta. split; [|split; [|apply level_is_spatial_char]].
  - unfold RuleMultiLevelTilingWithFusion_MeetCondition.
    destruct (NeedsMultilevelTiling _ state stage_id).
    + destruct (HasSingleElementwiseMatchedConsumer _ state stage_id)
        as [matched stored]. simpl.
      destruct matched, (HasCacheWriteStage state stage_id);
        eexists _, _; (split; [reflexivity|]);
        repeat split; auto; try discriminate; try tauto;
        try (intros (_ & ? & _); discriminate);
        try (intros (_ & _ & ?); discriminate);
        try (intros (_ & ?); discriminate).
    + eexists _, _; (split; [reflexivity|]).
      repeat split; auto; try discriminate; try tauto;
        try (intros (? & _); discriminate).
  - unfold RuleMultiLevelTilingWithFusion_Apply.
    destruct (DoMultiLevelTiling state stage_id _) as [[base ids]| |]; auto.
    change (fusion_levels (cpu_structure (params policy)) base member stage_id
                          ids [1; 2]
            = mapM (fusion_variant base member stage_id ids)
                   (filter (fun level =>
                              level_is_spatial (cpu_structure (params policy)) level
                              = true) [1; 2])).
    apply fusion_levels_mapM.
Qed.

Lemma rfactor_new_order_delete (its : list Iterator) (i skip : nat) :
  (i <= skip)%nat ->
  rfactor_new_order its i skip = delete (skip - i)%nat its.
Proof.
  revert i. induction its as [|it rest IH]; intros i Hi; simpl; [done|].
  destruct (Nat.eqb_spec i skip) as [->|Hne].
  - rewrite Nat.sub_diag. simpl.
    clear IH Hi. generalize (Datatypes.S skip) (Nat.lt_succ_diag_r skip).
    induction rest as [|x rest IH]; intros j Hj; simpl; [done|].
    destruct (Nat.eqb_spec j skip); [lia|]. f_equal. apply IH. lia.
  - replace (skip - i)%nat with (Datatypes.S (skip - Datatypes.S i)) by lia.
    simpl. f_equal. apply IH. lia.
Qed.

(** C7: [RuleAddRfactor] applies exactly when the stage needs multi-level
    tiling, has a fuse-factorable reduction axis and has no cache-write stage,
    otherwise it passes; applied, it fuses all reduction iterators, splits the
    fused iterator with the single length 1 and, the split returning its two
    iterators, emits exactly two successors unless a step aborts: the rfactor
    on the first split iterator as it is, and the rfactor on the second one
    followed by the reorder that moves the iterator at position
    [space_iters.size()] of the rfactor stage to the innermost position; each
    is paired with the rfactor stage's id minus one. *)
Theorem RuleAddRfactor_spec (policy : Policy) (state : State) (stage_id : Z) :
  let task := search_task policy in
  (RuleAddRfactor_MeetCondition policy state stage_id = Ok kApply <->
     NeedsMultilevelTiling task state stage_id = true
     /\ HasCacheWriteStage state stage_id = false
     /\ HasFuseFactorableReduceAxis task state stage_id = true)
  /\ (RuleAddRfactor_MeetCondition policy state stage_id = Ok kApply
      \/ RuleAddRfactor_MeetCondition policy state stage_id = Ok kPass)
  /\ forall base_state fused_reduce_iter space_iters reduce_iters
            split_state it0 it1,
      FuseAllReductionIterators state stage_id
      = Ok (base_state, fused_reduce_iter, space_iters, reduce_iters) ->
      State_split base_state stage_id fused_reduce_iter [Some 1]
      = Ok (split_state, [it0; it1]) ->
      let n_space := length space_iters in
      RuleAddRfactor_Apply policy state stage_id
      = ('(s0, rstage_id0) ←
           State_rfactor split_state stage_id it0 (Z.of_nat n_space) task;
         '(s1, rstage_id1) ←
           State_rfactor split_state stage_id it1 (Z.of_nat n_space) task;
         rstage ← at_Z (stages s1) rstage_id1;
         space_iter ← at_Z (iters rstage) (Z.of_nat n_space);
         s1 ← State_reorder s1 rstage_id1
                            (delete n_space (iters rstage) ++ [space_iter]);
         Ok [(s0, rstage_id0 - 1); (s1, rstage_id1 - 1)])
      /\ forall ret, RuleAddRfactor_Apply policy state stage_id = Ok ret ->
                     length ret = 2%nat.
Proof.
  cbv zeta. split; [|split].
  - unfold RuleAddRfactor_MeetCondition, NeedsRfactor.
    destruct (NeedsMultilevelTiling _ state stage_id),
      (HasFuseFactorableReduceAxis _ state stage_id),
      (HasCacheWriteStage state stage_id); simpl;
      split; try discriminate; try tauto;
      try (intros (? & ? & ?); discriminate).
  - unfold RuleAddRfactor_MeetCondition.
    destruct (_ && _); auto.
  - intros base fused space reduce split_state it0 it1 Hfuse Hsplit.
    assert (Heq : RuleAddRfactor_Apply policy state stage_id
      = ('(s0, rstage_id0) ←
           State_rfactor split_state stage_id it0 (Z.of_nat (length space))
                         (search_task policy);
         '(s1, rstage_id1) ←
           State_rfactor split_state stage_id it1 (Z.of_nat (length space))
                         (search_task policy);
         rstage ← at_Z (stages s1) rstage_id1;
         space_iter ← at_Z (iters rstage) (Z.of_nat (length space));
         s1 ← State_reorder s1 rstage_id1
                            (delete (length space) (iters rstage) ++ [space_iter]);
         Ok [(s0, rstage_id0 - 1); (s1, rstage_id1 - 1)])).
    { unfold RuleAddRfactor_Apply. rewrite Hfuse. simpl. rewrite Hsplit. simpl.
      unfold rfactor_variant. simpl.
      destruct (State_rfactor split_state stage_id it0 _ _) as [[s0 r0]| |];
        simpl; auto.
      destruct (State_rfactor split_state stage_id it1 _ _) as [[s1 r1]| |];
        simpl; auto.
      destruct (at_Z (stages s1) r1) as [rstage| |]; simpl; auto.
      rewrite rfactor_new_order_delete by lia. rewrite Nat.sub_0_r.
      destruct (at_Z (iters rstage) _) as [sp| |]; simpl; auto.
      destruct (State_reorder s1 r1 _) as [s1'| |]; simpl; auto. }
    split; [exact Heq|].
    intros ret. rewrite Heq. clear Heq.
    destruct (State_rfactor split_state stage_id it0 _ _) as [[s0 r0]| |];
      simpl; try discriminate.
    destruct (State_rfactor split_state stage_id it1 _ _) as [[s1 r1]| |];
      simpl; try discriminate.
    destruct (at_Z (stages s1) r1) as [rstage| |]; simpl; try discriminate.
    destruct (at_Z (iters rstage) _) as [sp| |]; simpl; try discriminate.
    destruct (State_reorder s1 r1 _) as [s1'| |]; simpl; try discriminate.
    intros [= <-]. reflexivity.
Qed.

End SketchRuleFacts.

(** ** Factorization schemes *)

Lemma elem_of_divisors (e d : Z) :
  d ∈ divisors e <-> 0 < d <= e /\ e mod d = 0.
Proof.
  unfold divisors. rewrite list_elem_of_filter, list_elem_of_fmap.
  split.
  - intros (Hm & n & -> & Hn). apply elem_of_seq in Hn. split; [lia | exact Hm].
  - intros (Hd & Hm). split; [exact Hm|].
    exists (Z.to_nat d). split; [lia|]. apply elem_of_seq. lia.
Qed.

Lemma product_pos (l : list Z) : Forall (fun x => 0 < x) l -> 0 < product l.
Proof. induction 1; simpl; lia. Qed.

Lemma elem_of_factorizations (k : nat) (e : Z) (l : list Z) :
  l ∈ factorizations k e <->
  length l = k /\ Forall (fun x => 0 < x) l /\ product l = e.
Proof.
  revert e l. induction k as [|k IH]; intros e l; simpl.
  - destruct (decide (e = 1)) as [->|Hne].
    + rewrite list_elem_of_singleton. split.
      * intros ->. auto.
      * intros (Hl & _). by apply nil_length_inv in Hl.
    + split; [intros Hin; inversion Hin|].
      intros (Hl & _ & Hp). apply nil_length_inv in Hl. subst l. simpl in Hp. lia.
  - rewrite list_elem_of_bind. split.
    + intros (d & Hl & Hd). apply elem_of_divisors in Hd as (Hd & Hm).
      apply list_elem_of_fmap in Hl as (l' & -> & Hl').
      apply IH in Hl' as (Hlen & Hpos & Hp).
      repeat split; simpl; [lia | constructor; [lia | exact Hpos] |].
      rewrite Hp. apply Z.mod_divide in Hm; [|lia].
      destruct Hm as [q ->]. rewrite Z.div_mul by lia. lia.
    + intros (Hlen & Hpos & Hp). destruct l as [|d l']; [discriminate|].
      inversion Hpos as [|? ? Hd Hpos']; subst. simpl in *.
      pose proof (product_pos l' Hpos') as HP.
      exists d. split.
      * apply list_elem_of_fmap. exists l'. split; [done|].
        apply IH. repeat split; [lia | exact Hpos' |].
        rewrite Z.mul_comm, Z.div_mul; lia.
      * apply elem_of_divisors. split; [nia|].
        rewrite Z.mul_comm. apply Z.mod_mul. lia.
Qed.

(** What the design document says of the schemes: exactly the factorizations
    of the extent into [n + 1] positive integers with innermost factor at most
    [max_innermost_factor]. *)
Lemma elem_of_GetFactorizationSchemes (extent : Z) (n : nat) (max : Z) (scheme : list Z) :
  scheme ∈ GetFactorizationSchemes extent n max <->
  length scheme = Datatypes.S n
  /\ Forall (fun x => 0 < x) scheme
  /\ product scheme = extent
  /\ List.last scheme 0 <= max.
Proof.
  unfold GetFactorizationSchemes.
  rewrite list_elem_of_filter, elem_of_factorizations. tauto.
Qed.

(** ** InitFillTileSize *)

Lemma policy_rand_draw (p : Policy) :
  policy_rand p
  = (Z.of_N (draws (rand_gen p) (drawn (rand_gen p))),
     set_rand_gen p (mkRng (draws (rand_gen p)) (Datatypes.S (drawn (rand_gen p))))).
Proof. reflexivity. Qed.

Lemma take_S_filter_length {A} (P : A -> Prop) `{!forall x, Decision (P x)}
      (l : list A) (k : nat) (x : A) :
  l !! k = Some x ->
  length (filter P (take (Datatypes.S k) l))
  = (length (filter P (take k l)) + if decide (P x) then 1 else 0)%nat.
Proof.
  intros Hk. rewrite (take_S_r _ _ _ Hk), filter_app, length_app.
  f_equal. rewrite filter_cons, filter_nil. by destruct (decide (P x)).
Qed.

Lemma fill_tile_size_step_invariant policy0 state0 k ps ps' :
  (k < length (transform_steps state0))%nat ->
  fill_invariant policy0 state0 k ps ->
  fill_tile_size_step k ps = Ok ps' ->
  fill_invariant policy0 state0 (Datatypes.S k) ps'.
Proof.
  intros Hk (Hst & Ham & Hc & Hpar & Hdr & Hdn & Hlen & Hdone & Htodo) Hstep.
  destruct ps as [policy pstate]. simpl in *.
  destruct (lookup_lt_is_Some_2 _ _ Hk) as [step0 Hstep0].
  unfold fill_tile_size_step in Hstep.
  rewrite (Htodo k (le_n k)), Hstep0 in Hstep.
  assert (Hkeep : ps' = (policy, pstate) -> needs_fill step0 = false ->
                  fill_invariant policy0 state0 (Datatypes.S k) ps').
  { intros -> Hnf. unfold fill_invariant. simpl.
    rewrite (take_S_filter_length _ _ _ _ Hstep0), Hnf.
    destruct (decide (false = true)); [done|]. rewrite Nat.add_0_r.
    repeat split; auto.
    - intros i step Hi Hs. destruct (decide (i = k)) as [->|Hne].
      + exists step0. rewrite (Htodo k (le_n k)). split; [done|].
        assert (step = step0) as -> by congruence.
        unfold filled_step. destruct step0; auto.
        simpl in Hnf. apply negb_false_iff in Hnf. by rewrite Hnf.
      + apply Hdone; [lia | done].
    - intros i Hi. apply Htodo. lia. }
  destruct step0 as [sid iid ext lens ito| | | | | | | | | | |];
    try (apply Hkeep; [congruence | reflexivity]).
  destruct (all_defined lens) eqn:Hdef.
  { apply Hkeep; [congruence | simpl; by rewrite Hdef]. }
  apply bind_Ok in Hstep as (e & He & Hstep).
  destruct ext as [e'|]; [|discriminate]. injection He as ->.
  destruct (decide (_ = [])); [discriminate|].
  apply bind_Ok in Hstep as (scheme & Hsch & Hstep).
  injection Hstep as <-.
  apply at_Z_Ok in Hsch as (_ & Hsch).
  unfold fill_invariant. simpl.
  rewrite (take_S_filter_length _ _ _ _ Hstep0). simpl. rewrite Hdef. simpl.
  destruct (decide (true = true)); [|done].
  rewrite length_insert.
  repeat split; auto; try lia.
  - intros i step Hi Hs. destruct (decide (i = k)) as [->|Hne].
    + eexists. rewrite list_lookup_insert_eq by lia. split; [reflexivity|].
      assert (step = SplitStep sid iid (Some e) lens ito) as -> by congruence.
      unfold filled_step. rewrite Hdef. exists e, scheme. cbv zeta.
      repeat split. rewrite <- Hdn, <- Hdr, <- Hpar. exact Hsch.
    + rewrite list_lookup_insert_ne by done. apply Hdone; [lia | done].
  - intros i Hi. rewrite list_lookup_insert_ne by lia. apply Htodo. lia.
Qed.

Lemma fill_tile_size_loop_invariant policy0 state0 todo k ps ps' :
  (k + todo <= length (transform_steps state0))%nat ->
  fill_invariant policy0 state0 k ps ->
  fill_tile_size_loop todo k ps = Ok ps' ->
  fill_invariant policy0 state0 (k + todo) ps'.
Proof.
  revert k ps. induction todo as [|todo IH]; intros k ps Hk Hinv Hloop; simpl in Hloop.
  - injection Hloop as <-. by rewrite Nat.add_0_r.
  - apply bind_Ok in Hloop as (ps1 & Hstep & Hloop).
    replace (k + Datatypes.S todo)%nat with (Datatypes.S k + todo)%nat by lia.
    apply (IH _ ps1); [lia | | exact Hloop].
    eapply fill_tile_size_step_invariant; [lia | exact Hinv | exact Hstep].
Qed.

Lemma all_defined_Forall (lengths : list (option Z)) :
  all_defined lengths = true <-> Forall is_Some lengths.
Proof.
  unfold all_defined. induction lengths as [|x l IH]; simpl.
  - split; auto.
  - rewrite andb_true_iff, bool_decide_eq_true, IH, Forall_cons. tauto.
Qed.

(** A value in the range of [int] is not changed by the narrowing. *)
Lemma to_int32_id (z : Z) : - 2 ^ 31 <= z < 2 ^ 31 -> to_int32 z = z.
Proof.
  intros Hz. unfold to_int32. rewrite Z.mod_small; lia.
Qed.

Lemma Forall_is_Some_fmap (l : list Z) : Forall is_Some (Some <$> l).
Proof. induction l; simpl; constructor; eauto. Qed.

(** C4 (as the code has it): whenever [InitFillTileSize] returns, it returns
    [kValid] and a state with the concrete flag set and the same stages; the
    history has the same length; every split step that had an undefined length
    is replaced by the split of the same stage, iterator, extent and direction
    whose lengths are one of the factorization schemes of its extent as an
    [int] ([n + 1] positive integers, [n] the former number of lengths, with
    innermost factor at most [max_innermost_split_factor] and of product the
    extent narrowed to 32 bits, which is the extent itself when it is within
    the range of [int]), the one at index [r mod (number of schemes)] for [r]
    the next word of the policy's generator; every other step is kept; hence
    every split step of the returned history has all its lengths defined. *)
Theorem InitFillTileSize_fills_every_split (policy : Policy) (state : State)
        (kind : ResultKind) (policy' : Policy) (state' : State) :
  InitFillTileSize_Apply policy state = Ok (kind, policy', state') ->
  let max := max_innermost_split_factor (params policy) in
  let steps := transform_steps state in
  let steps' := transform_steps state' in
  kind = kValid
  /\ concrete state' = true
  /\ stages state' = stages state
  /\ length steps' = length steps
  /\ (forall i step, steps !! i = Some step ->
        exists step', steps' !! i = Some step'
                      /\ filled_step max (rand_gen policy) steps i step step')
  /\ (forall i stage_id iter_id extent lengths inner_to_outer,
        steps !! i = Some (SplitStep stage_id iter_id extent lengths inner_to_outer) ->
        all_defined lengths = false ->
        exists e scheme,
          extent = Some e
          /\ steps' !! i
             = Some (SplitStep stage_id iter_id extent (Some <$> scheme) inner_to_outer)
          /\ scheme ∈ GetFactorizationSchemes (to_int32 e) (length lengths) max
          /\ length scheme = Datatypes.S (length lengths)
          /\ Forall (fun x => 0 < x) scheme
          /\ product scheme = to_int32 e
          /\ (- 2 ^ 31 <= e < 2 ^ 31 -> product scheme = e)
          /\ List.last scheme 0 <= max)
  /\ (forall i stage_id iter_id extent lengths inner_to_outer,
        steps' !! i = Some (SplitStep stage_id iter_id extent lengths inner_to_outer) ->
        Forall is_Some lengths).
Proof.
  intros Happ. cbv zeta. unfold InitFillTileSize_Apply in Happ.
  apply bind_Ok in Happ as ([p1 s1] & Hloop & Hret).
  injection Hret as <- <- <-.
  apply (fill_tile_size_loop_invariant policy state) in Hloop; [|simpl; lia|].
  2:{ unfold fill_invariant. simpl.
      rewrite Nat.add_0_r. repeat split; auto. intros; lia. }
  destruct Hloop as (Hst & _ & _ & _ & _ & _ & Hlen & Hdone & _). simpl in *.
  assert (Hall : forall i step, transform_steps state !! i = Some step ->
            exists step', transform_steps s1 !! i = Some step'
              /\ filled_step (max_innermost_split_factor (params policy))
                             (rand_gen policy) (transform_steps state) i step step').
  { intros i step Hi. apply Hdone; [|done]. by apply lookup_lt_Some in Hi. }
  repeat split; auto.
  - intros i sid iid ext lens ito Hi Hdef.
    destruct (Hall _ _ Hi) as (step' & Hi' & Hfill).
    unfold filled_step in Hfill. rewrite Hdef in Hfill.
    destruct Hfill as (e & scheme & Hext & Hsch & ->).
    exists e, scheme. split; [done|]. split; [done|].
    apply list_elem_of_lookup_2 in Hsch.
    split; [done|].
    apply elem_of_GetFactorizationSchemes in Hsch as (Hn & Hpos & Hprod & Hlast).
    split; [done|]. split; [done|]. split; [done|]. split; [|done].
    intros He. rewrite Hprod. by apply to_int32_id.
  - intros i sid iid ext lens ito Hi'.
    assert (is_Some (transform_steps state !! i)) as [step Hi].
    { apply lookup_lt_is_Some. rewrite <- Hlen. by apply lookup_lt_Some in Hi'. }
    destruct (Hall _ _ Hi) as (step' & Hi'' & Hfill).
    assert (step' = SplitStep sid iid ext lens ito) as -> by congruence.
    destruct step; simpl in Hfill; try discriminate.
    destruct (all_defined lengths) eqn:Hdef.
    + injection Hfill as -> -> -> -> ->. by apply all_defined_Forall.
    + destruct Hfill as (e & scheme & _ & _ & [= -> -> -> -> ->]).
      apply Forall_is_Some_fmap.
Qed.

Lemma last_replicate_1 (n : nat) (e : Z) :
  (1 <= n)%nat -> List.last (e :: replicate n 1) 0 = 1.
Proof.
  intros Hn. destruct n as [|n]; [lia|]. clear Hn. revert e.
  induction n as [|n IH]; intros e; [done|].
  change (List.last (e :: replicate (Datatypes.S (Datatypes.S n)) 1) 0)
    with (List.last (1 :: replicate (Datatypes.S n) 1) 0).
  apply IH.
Qed.

Lemma product_replicate_1 (n : nat) : product (replicate n 1) = 1.
Proof. induction n as [|n IH]; simpl; [done|]. rewrite IH. lia. Qed.

(** A positive extent always has a scheme: the extent itself outermost, then
    ones. *)
Lemma GetFactorizationSchemes_nonempty (extent : Z) (n : nat) (max : Z) :
  0 < extent -> (1 <= n)%nat -> 1 <= max ->
  GetFactorizationSchemes extent n max <> [].
Proof.
  intros He Hn Hmax Hnil.
  assert (Hin : extent :: replicate n 1 ∈ GetFactorizationSchemes extent n max).
  { apply elem_of_GetFactorizationSchemes.
    split; [simpl; by rewrite length_replicate|].
    split; [constructor; [done|]; apply Forall_replicate; lia|].
    split; [simpl; rewrite product_replicate_1; lia|].
    rewrite last_replicate_1 by done. exact Hmax. }
  rewrite Hnil in Hin. inversion Hin.
Qed.

Lemma fill_tile_size_loop_returns policy0 state0 todo k ps :
  1 <= max_innermost_split_factor (params policy0) ->
  (forall i stage_id iter_id extent lengths inner_to_outer,
      transform_steps state0 !! i
      = Some (SplitStep stage_id iter_id extent lengths inner_to_outer) ->
      all_defined lengths = false -> exists e, extent = Some e /\ 0 < to_int32 e) ->
  (k + todo <= length (transform_steps state0))%nat ->
  fill_invariant policy0 state0 k ps ->
  exists ps', fill_tile_size_loop todo k ps = Ok ps'.
Proof.
  intros Hmax Hext. revert k ps.
  induction todo as [|todo IH]; intros k ps Hk Hinv; simpl; [eauto|].
  assert (Hstep : exists ps1, fill_tile_size_step k ps = Ok ps1).
  { destruct Hinv as (_ & _ & _ & Hpar & _ & _ & _ & _ & Htodo).
    destruct ps as [p s]. simpl in *. unfold fill_tile_size_step.
    rewrite (Htodo k (le_n k)).
    destruct (lookup_lt_is_Some_2 (transform_steps state0) k) as [step0 Hs0]; [lia|].
    rewrite Hs0.
    destruct step0 as [sid iid ext lens ito| | | | | | | | | | |]; eauto.
    destruct (all_defined lens) eqn:Hdef; [eauto|].
    destruct (Hext _ _ _ _ _ _ Hs0 Hdef) as (e & -> & He). simpl.
    assert (Hlens : (1 <= length lens)%nat).
    { destruct lens; [discriminate | simpl; lia]. }
    rewrite Hpar.
    pose proof (GetFactorizationSchemes_nonempty (to_int32 e) (length lens) _
                  He Hlens Hmax) as Hne.
    destruct (decide (_ = [])); [done|].
    set (schemes := GetFactorizationSchemes _ _ _) in *.
    set (r := Z.of_N _).
    assert (Hidx : 0 <= r mod Z.of_nat (length schemes) < Z.of_nat (length schemes)).
    { apply Z.mod_pos_bound. destruct schemes; [done | simpl; lia]. }
    destruct (lookup_lt_is_Some_2 schemes (Z.to_nat (r mod Z.of_nat (length schemes))))
      as [scheme Hsch]; [lia|].
    assert (Hat : at_Z schemes (r mod Z.of_nat (length schemes)) = Ok scheme).
    { apply at_Z_Ok. split; [lia | done]. }
    rewrite Hat. simpl. eauto. }
  destruct Hstep as (ps1 & Hstep). rewrite Hstep. simpl.
  apply IH; [lia|].
  eapply fill_tile_size_step_invariant; [lia | exact Hinv | exact Hstep].
Qed.

(** [InitFillTileSize] does return when every split to fill has an extent
    that is positive as an [int] and [max_innermost_split_factor] is at least
    1. *)
Lemma InitFillTileSize_returns (policy : Policy) (state : State) :
  1 <= max_innermost_split_factor (params policy) ->
  (forall i stage_id iter_id extent lengths inner_to_outer,
      transform_steps state !! i
      = Some (SplitStep stage_id iter_id extent lengths inner_to_outer) ->
      all_defined lengths = false -> exists e, extent = Some e /\ 0 < to_int32 e) ->
  exists policy' state',
    InitFillTileSize_Apply policy state = Ok (kValid, policy', state').
Proof.
  intros Hmax Hext. unfold InitFillTileSize_Apply.
  destruct (fill_tile_size_loop_returns policy state
              (length (transform_steps state)) 0 (policy, state) Hmax Hext)
    as ([p1 s1] & Hl); [simpl; lia| |rewrite Hl; simpl; eauto].
  unfold fill_invariant. simpl. rewrite Nat.add_0_r.
  repeat split; auto. intros; lia.
Qed.

(** ** InitVectorization *)

Section VectorizeFacts.
Context `{Externals}.

Lemma rev_lookup_inner (its : list Iterator) (j : nat) (it : Iterator) :
  (j < length its)%nat ->
  its !! (length its - 1 - j)%nat = Some it -> rev its !! j = Some it.
Proof.
  intros Hj Hit. rewrite rev_alt.
  change (rev_append its []) with (reverse its). rewrite reverse_lookup by done.
  rewrite <- Hit. f_equal. lia.
Qed.

Lemma cum_length_S (stage : Stage) (j : nat) (it : Iterator) :
  (j < length (iters stage))%nat ->
  iters stage !! (length (iters stage) - 1 - j)%nat = Some it ->
  cum_length stage (Datatypes.S j) = to_int32 (cum_length stage j * GetExtent it).
Proof.
  intros Hj Hit. unfold cum_length.
  rewrite (take_S_r _ _ _ (rev_lookup_inner _ _ _ Hj Hit)), foldl_app. reflexivity.
Qed.

Lemma count_fusible_spec (policy : Policy) (state : State) (stage : Stage)
      (stage_id : Z) (todo nf : nat) :
  let n := length (iters stage) in
  (nf + todo = n)%nat ->
  exists m : nat,
    count_fusible policy state stage stage_id
                  (unroll_name_set (op stage) always_unroll)
                  todo (Z.of_nat nf) (cum_length stage nf)
    = Z.of_nat m
    /\ (nf <= m <= n)%nat
    /\ (forall j, (nf <= j < m)%nat ->
          exists it, iters stage !! (n - 1 - j)%nat = Some it
                     /\ fusible_here policy state stage stage_id j it)
    /\ ((m < n)%nat ->
          exists it, iters stage !! (n - 1 - m)%nat = Some it
                     /\ ~ fusible_here policy state stage stage_id m it).
Proof.
  cbv zeta. revert nf. induction todo as [|todo IH]; intros nf Hn; simpl.
  - exists nf. repeat split; try lia; try (intros; lia).
  - set (n := length (iters stage)) in *.
    assert (Hidx : Z.to_nat (Z.of_nat n - 1 - Z.of_nat nf) = (n - 1 - nf)%nat) by lia.
    rewrite Hidx.
    destruct (lookup_lt_is_Some_2 (iters stage) (n - 1 - nf)%nat) as [it Hit];
      [unfold n in *; lia|].
    rewrite Hit.
    assert (Hstop : ~ fusible_here policy state stage stage_id nf it ->
      exists m : nat, Z.of_nat nf = Z.of_nat m /\ (nf <= m <= n)%nat
        /\ (forall j, (nf <= j < m)%nat ->
              exists it, iters stage !! (n - 1 - j)%nat = Some it
                         /\ fusible_here policy state stage stage_id j it)
        /\ ((m < n)%nat ->
              exists it, iters stage !! (n - 1 - m)%nat = Some it
                         /\ ~ fusible_here policy state stage stage_id m it)).
    { intros Hnot. exists nf. split; [done|]. split; [lia|]. split.
      - intros j Hj; lia.
      - intros _. exists it. auto. }
    destruct (has_attached state stage_id _) eqn:Hatt.
    { apply Hstop. intros (Ha & _). fold n in Ha. congruence. }
    destruct (bool_decide (iter_kind it = kReduction)) eqn:Hk.
    { apply Hstop. apply bool_decide_eq_true in Hk. intros (_ & ? & _). congruence. }
    destruct (bool_decide (annotation it = kNone)) eqn:Ha; simpl.
    2:{ apply Hstop. apply bool_decide_eq_false in Ha. intros (_ & _ & ? & _). done. }
    destruct (bool_decide (name it ∈ _)) eqn:Hu.
    { apply Hstop. apply bool_decide_eq_true in Hu. intros (_ & _ & _ & ? & _). done. }
    destruct (IsTiled stage) eqn:Ht; simpl.
    + destruct (Z.eqb_spec (Z.of_nat nf) 0) as [Hz|Hnz]; simpl.
      2:{ apply Hstop. intros (_ & _ & _ & _ & [?|?] & _); [congruence | lia]. }
      rewrite <- (cum_length_S stage nf it) by (fold n; (lia || done)).
      destruct (Z.ltb_spec (max_vectorize_size (params policy))
                           (cum_length stage (Datatypes.S nf))) as [Hgt|Hle].
      { apply Hstop. intros (_ & _ & _ & _ & _ & ?). lia. }
      replace (Z.of_nat nf + 1) with (Z.of_nat (Datatypes.S nf)) by lia.
      destruct (IH (Datatypes.S nf)) as (m & Hm & Hrange & Hin & Hout); [lia|].
      exists m. split; [exact Hm|]. split; [lia|]. split; [|exact Hout].
      intros j Hj. destruct (decide (j = nf)) as [->|Hne]; [|apply Hin; lia].
      exists it. split; [done|].
      apply bool_decide_eq_false in Hk, Hu. apply bool_decide_eq_true in Ha.
      repeat split; auto; [by destruct (iter_kind it) | right; lia].
    + rewrite <- (cum_length_S stage nf it) by (fold n; (lia || done)).
      destruct (Z.ltb_spec (max_vectorize_size (params policy))
                           (cum_length stage (Datatypes.S nf))) as [Hgt|Hle].
      { apply Hstop. intros (_ & _ & _ & _ & _ & ?). lia. }
      replace (Z.of_nat nf + 1) with (Z.of_nat (Datatypes.S nf)) by lia.
      destruct (IH (Datatypes.S nf)) as (m & Hm & Hrange & Hin & Hout); [lia|].
      exists m. split; [exact Hm|]. split; [lia|]. split; [|exact Hout].
      intros j Hj. destruct (decide (j = nf)) as [->|Hne]; [|apply Hin; lia].
      exists it. split; [done|].
      apply bool_decide_eq_false in Hk, Hu. apply bool_decide_eq_true in Ha.
      repeat split; auto. by destruct (iter_kind it).
Qed.

Lemma last_Some_lookup (its : list Iterator) :
  List.last (Some <$> its) None = its !! (length its - 1)%nat.
Proof.
  induction its as [|x l IH]; [done|].
  destruct l as [|y l']; [done|].
  change (List.last (Some <$> x :: y :: l') None)
    with (List.last (Some <$> y :: l') None).
  rewrite IH. simpl. by rewrite Nat.sub_0_r.
Qed.

(** C9 (as the code has it): on a stage that is not inlined, not a
    placeholder and not tensorized, the number of fusible iterators is the
    length of the longest run of innermost iterators each of which has no
    stage attached to it, is spatial, is not annotated, is not named in the
    [always_unroll] attribute, is the innermost one if the stage is tiled, and
    keeps the cumulative extent within [max_vectorize_size].  With no such
    iterator the stage is left alone; with one, the innermost iterator is
    vectorized; with more, [1 + r mod (num_fusible - 1)] of them, [r] the next
    word of the generator (so between 1 and [num_fusible - 1]), are fused and
    the fused iterator is vectorized (a single one is vectorized as it is).
    Inlined, placeholder and tensorized stages are skipped. *)
Theorem InitVectorization_stage_spec (policy : Policy) (state : State)
        (stage_id : nat) (stage : Stage) :
  at_Z (stages state) (Z.of_nat stage_id) = Ok stage ->
  let n := length (iters stage) in
  let sid := Z.of_nat stage_id in
  let outcome := init_vectorization_stage stage_id (policy, state) in
  let r := (policy_rand policy).1 in
  let policy' := (policy_rand policy).2 in
  (compute_at stage = kInlined \/ op_type stage = kPlaceholder
   \/ HasAnnotatedIter stage kTensorize = true ->
   outcome = Ok (policy, state))
  /\ (compute_at stage <> kInlined -> op_type stage <> kPlaceholder ->
      HasAnnotatedIter stage kTensorize = false ->
      exists num_fusible : nat,
        (num_fusible <= n)%nat
        /\ (forall j, (j < num_fusible)%nat ->
              exists it, iters stage !! (n - 1 - j)%nat = Some it
                         /\ fusible_here policy state stage sid j it)
        /\ ((num_fusible < n)%nat ->
              exists it, iters stage !! (n - 1 - num_fusible)%nat = Some it
                         /\ ~ fusible_here policy state stage sid num_fusible it)
        /\ (num_fusible = 0%nat -> outcome = Ok (policy, state))
        /\ (num_fusible = 1%nat ->
              exists back, iters stage !! (n - 1)%nat = Some back
                /\ outcome = (s ← State_vectorize state sid back; Ok (policy, s)))
        /\ ((1 < num_fusible)%nat ->
              let chosen := 1 + r mod (Z.of_nat num_fusible - 1) in
              1 <= chosen <= Z.of_nat num_fusible - 1
              /\ exists back, iters stage !! (n - 1)%nat = Some back
                /\ outcome
                   = if decide (chosen = 1) then
                       s ← State_vectorize state sid back; Ok (policy', s)
                     else
                       '(s, fused_iter) ←
                         State_fuse state sid (last_iters (iters stage) chosen);
                       s ← State_vectorize s sid fused_iter;
                       Ok (policy', s))).
Proof.
  intros Hst. cbv zeta. unfold init_vectorization_stage. rewrite Hst. simpl.
  split.
  - intros [Hi | [Hp | Ht]].
    + rewrite bool_decide_eq_true_2 by done. reflexivity.
    + rewrite (bool_decide_eq_true_2 (op_type stage = kPlaceholder)) by done.
      by rewrite orb_true_r.
    + rewrite Ht. by destruct (_ || _).
  - intros Hi Hp Ht.
    rewrite !bool_decide_eq_false_2 by done. simpl. rewrite Ht.
    destruct (count_fusible_spec policy state stage (Z.of_nat stage_id)
                                 (length (iters stage)) 0 eq_refl)
      as (m & Hm & Hrange & Hin & Hout).
    change (cum_length stage 0) with 1 in Hm. change (Z.of_nat 0) with 0 in Hm.
    rewrite Hm. exists m.
    split; [lia|]. split; [intros j Hj; apply Hin; lia|]. split; [exact Hout|].
    assert (Hback : (0 < m)%nat ->
                    exists back, iters stage !! (length (iters stage) - 1)%nat = Some back).
    { intros Hpos. apply lookup_lt_is_Some_2. lia. }
    split; [|split].
    + intros ->. reflexivity.
    + intros ->. destruct (Hback ltac:(lia)) as (back & Hb).
      exists back. split; [done|]. simpl.
      by rewrite last_Some_lookup, Hb.
    + intros Hgt. destruct (Hback ltac:(lia)) as (back & Hb).
      destruct (Z.ltb_spec 1 (Z.of_nat m)) as [_|?]; [|lia].
      set (chosen := 1 + _ `mod` _).
      assert (Hc : 1 <= chosen <= Z.of_nat m - 1).
      { unfold chosen.
        pose proof (Z.mod_pos_bound
                      (Z.of_N (draws (rand_gen policy) (drawn (rand_gen policy))))
                      (Z.of_nat m - 1) ltac:(lia)). lia. }
      split; [exact Hc|]. exists back. split; [done|].
      destruct (decide (chosen = 1)) as [->|Hne].
      * simpl. by rewrite last_Some_lookup, Hb.
      * destruct (Z.ltb_spec 1 chosen); [reflexivity | lia].
Qed.

End VectorizeFacts.

(** ** What the rules leave of the policy object *)

Lemma policy_frame_refl (p : Policy) : policy_frame p p.
Proof. unfold policy_frame. tauto. Qed.

Lemma policy_frame_trans (p q r : Policy) :
  policy_frame p q -> policy_frame q r -> policy_frame p r.
Proof. unfold policy_frame. intuition congruence. Qed.

Lemma policy_frame_rand (p : Policy) : policy_frame p (policy_rand p).2.
Proof. unfold policy_frame. simpl. tauto. Qed.

Lemma policy_frame_set_rand_gen (p : Policy) (g : mt19937) :
  policy_frame p (set_rand_gen p g).
Proof. unfold policy_frame. simpl. tauto. Qed.

Lemma policy_frame_set_sketch_rules (p : Policy) (rs : list SketchGenerationRule) :
  policy_frame p (set_sketch_rules p rs).
Proof. unfold policy_frame. simpl. tauto. Qed.

Create HintDb frame.
#[local] Hint Resolve policy_frame_refl policy_frame_rand policy_frame_set_rand_gen
  policy_frame_set_sketch_rules : frame.

Lemma for_loop_invariant {S} (I : S -> Prop) (fuel i : nat) (bound : S -> nat)
      (body : nat -> S -> result S) (s s' : S) :
  (forall j x x', I x -> body j x = Ok x' -> I x') ->
  I s -> for_loop fuel i bound body s = Ok s' -> I s'.
Proof.
  intros Hbody. revert i s. induction fuel as [|fuel IH]; intros i s Hs Hloop;
    simpl in Hloop; [discriminate|].
  destruct (i <? bound s)%nat.
  - apply bind_Ok in Hloop as (s1 & Hb & Hloop). eauto.
  - by injection Hloop as <-.
Qed.

Section RuleFrames.
Context `{Externals}.

(** Splits an equation [... = Ok x] along the binds and matches of its left
    side. *)
Ltac split_Ok H :=
  unfold policy_rand, rand in H; simpl in H;
  repeat first
    [ discriminate H
    | apply bind_Ok in H as (? & ? & H)
    | match type of H with
      | context [match ?x with _ => _ end] => destruct x eqn:?
      | context [if ?x then _ else _] => destruct x eqn:?
      end ].

Lemma fill_tile_size_step_frame (k : nat) (ps ps' : Policy * State) :
  fill_tile_size_step k ps = Ok ps' -> policy_frame ps.1 ps'.1.
Proof.
  destruct ps as [p s]. unfold fill_tile_size_step. intros Hs.
  split_Ok Hs; injection Hs as <-; simpl; auto with frame.
Qed.

Lemma fill_tile_size_loop_frame (todo k : nat) (ps ps' : Policy * State) :
  fill_tile_size_loop todo k ps = Ok ps' -> policy_frame ps.1 ps'.1.
Proof.
  revert k ps. induction todo as [|todo IH]; intros k ps Hl; simpl in Hl.
  - injection Hl as <-. auto with frame.
  - apply bind_Ok in Hl as (ps1 & Hs & Hl).
    eapply policy_frame_trans; [eapply fill_tile_size_step_frame | eapply IH]; eauto.
Qed.

Lemma change_compute_location_stage_frame (stage_id : Z) (ps ps' : Policy * State) :
  change_compute_location_stage stage_id ps = Ok ps' -> policy_frame ps.1 ps'.1.
Proof.
  destruct ps as [p s]. unfold change_compute_location_stage. intros Hs.
  split_Ok Hs; injection Hs as <-; simpl; auto with frame.
Qed.

Lemma change_compute_location_loop_frame (n : nat) (ps ps' : Policy * State) :
  change_compute_location_loop n ps = Ok ps' -> policy_frame ps.1 ps'.1.
Proof.
  revert ps. induction n as [|n IH]; intros ps Hl; simpl in Hl.
  - injection Hl as <-. auto with frame.
  - apply bind_Ok in Hl as (ps1 & Hs & Hl).
    eapply policy_frame_trans;
      [eapply change_compute_location_stage_frame | eapply IH]; eauto.
Qed.

Lemma init_vectorization_stage_frame (stage_id : nat) (ps ps' : Policy * State) :
  init_vectorization_stage stage_id ps = Ok ps' -> policy_frame ps.1 ps'.1.
Proof.
  destruct ps as [p s]. unfold init_vectorization_stage. intros Hs.
  split_Ok Hs; simplify_eq;
    try match goal with
        | Hq : (if ?c then _ else _) = (_, _) |- _ => destruct c; simplify_eq
        end; simpl; auto with frame.
Qed.

Lemma init_unroll_stage_frame (stage_id : nat) (ps ps' : Policy * State) :
  init_unroll_stage stage_id ps = Ok ps' -> policy_frame ps.1 ps'.1.
Proof.
  destruct ps as [p s]. unfold init_unroll_stage. intros Hs.
  apply bind_Ok in Hs as (stage & _ & Hs).
  destruct (_ || _); [injection Hs as <-; auto with frame|].
  apply bind_Ok in Hs as (s1 & _ & Hs).
  apply bind_Ok in Hs as (s2 & _ & Hs).
  destruct (HasReduceIter stage); [|injection Hs as <-; auto with frame].
  rewrite policy_rand_draw in Hs.
  split_Ok Hs; injection Hs as <-; simpl; auto with frame.
Qed.

(** An init population rule that returns returns [kValid], and leaves the
    policy object as it is but for the generator. *)
Lemma InitPopulationRule_Apply_kValid (rule : InitPopulationRule) (fuel : nat)
      (policy : Policy) (state : State) (kind : ResultKind) (policy' : Policy)
      (state' : State) :
  InitPopulationRule_Apply rule fuel policy state = Ok (kind, policy', state') ->
  kind = kValid /\ policy_frame policy policy'.
Proof.
  destruct rule; simpl; intros Ha.
  - unfold InitFillTileSize_Apply in Ha.
    apply bind_Ok in Ha as ([p1 s1] & Hl & Ha). injection Ha as <- <- <-.
    split; [done|]. by apply fill_tile_size_loop_frame in Hl.
  - unfold InitChangeComputeLocation_Apply in Ha.
    destruct (negb _); [injection Ha as <- <- <-; auto with frame|].
    apply bind_Ok in Ha as ([p1 s1] & Hl & Ha).
    apply bind_Ok in Ha as (s2 & _ & Ha). injection Ha as <- <- <-.
    split; [done|]. by apply change_compute_location_loop_frame in Hl.
  - unfold InitParallel_Apply in Ha.
    apply bind_Ok in Ha as (s1 & _ & Ha). injection Ha as <- <- <-.
    auto with frame.
  - unfold InitVectorization_Apply in Ha.
    apply bind_Ok in Ha as ([p1 s1] & Hl & Ha). injection Ha as <- <- <-.
    split; [done|].
    revert Hl. apply (for_loop_invariant (fun ps => policy_frame policy ps.1));
      [|simpl; auto with frame].
    intros j x x' Hx Hb. eapply policy_frame_trans; [exact Hx|].
    by eapply init_vectorization_stage_frame.
  - unfold InitUnroll_Apply in Ha.
    apply bind_Ok in Ha as ([p1 s1] & Hl & Ha). injection Ha as <- <- <-.
    split; [done|].
    revert Hl. apply (for_loop_invariant (fun ps => policy_frame policy ps.1));
      [|simpl; auto with frame].
    intros j x x' Hx Hb. eapply policy_frame_trans; [exact Hx|].
    by eapply init_unroll_stage_frame.
Qed.

End RuleFrames.

(** ** SampleInitPopulation *)

Section SampleFacts.
Context `{Externals}.

Lemma apply_init_rules_valid (rules : list InitPopulationRule) (fuel : nat)
      (policy : Policy) (tmp_s : State) (valid : bool) (policy' : Policy)
      (tmp_s' : State) :
  apply_init_rules rules fuel policy tmp_s = Ok (valid, policy', tmp_s') ->
  valid = true /\ policy_frame policy policy'.
Proof.
  revert policy tmp_s. induction rules as [|rule rest IH]; intros p s Ha; simpl in Ha.
  - injection Ha as <- <- <-. split; [done | apply policy_frame_refl].
  - apply bind_Ok in Ha as ([[kind p1] s1] & Hr & Ha).
    apply InitPopulationRule_Apply_kValid in Hr as (-> & Hf).
    destruct (decide (kValid = kInvalid)); [discriminate|].
    apply IH in Ha as (-> & Hf'). split; [done|].
    eapply policy_frame_trans; eauto.
Qed.

Lemma sample_loop_unfold (budget fuel : nat) (sketches : list State) (out_size : Z)
      (policy : Policy) (out_states : list State) (fail_ct : Z) :
  sample_loop budget fuel sketches out_size policy out_states fail_ct
  = if (Z.of_nat (length out_states) <? out_size) && (fail_ct <? out_size) then
      match budget with
      | O => OutOfFuel
      | Datatypes.S budget' =>
          let '(r, policy) := policy_rand policy in
          if decide (sketches = []) then Fatal
          else
            tmp_s ← at_Z sketches (r mod Z.of_nat (length sketches));
            '(valid, policy, tmp_s) ←
              apply_init_rules (init_rules policy) fuel policy tmp_s;
            if valid : bool then
              sample_loop budget' fuel sketches out_size policy
                          (out_states ++ [tmp_s]) fail_ct
            else
              sample_loop budget' fuel sketches out_size policy
                          out_states (fail_ct + 1)
      end
    else Ok (out_states, fail_ct, policy).
Proof. destruct budget; reflexivity. Qed.

Lemma sample_loop_returns (budget fuel : nat) (sketches : list State) (out_size : Z)
      (policy : Policy) (out_states : list State) (fail_ct : Z)
      (out : list State) (fail_ct' : Z) (policy' : Policy) :
  sample_loop budget fuel sketches out_size policy out_states fail_ct
  = Ok (out, fail_ct', policy') ->
  fail_ct' = fail_ct
  /\ policy_frame policy policy'
  /\ (fail_ct < out_size ->
      Z.of_nat (length out) = Z.max (Z.of_nat (length out_states)) out_size)
  /\ (Z.of_nat (length out_states) < out_size -> fail_ct < out_size -> sketches <> []).
Proof.
  revert policy out_states. induction budget as [|budget IH]; intros p out0 Hl;
    rewrite sample_loop_unfold in Hl.
  - destruct (Z.ltb_spec (Z.of_nat (length out0)) out_size),
      (Z.ltb_spec fail_ct out_size); simpl in Hl; try discriminate;
      injection Hl as <- <- <-;
      (split; [done|]; split; [apply policy_frame_refl|]; split; intros; lia).
  - destruct (Z.ltb_spec (Z.of_nat (length out0)) out_size),
      (Z.ltb_spec fail_ct out_size); simpl in Hl;
      try (injection Hl as <- <- <-;
           split; [done|]; split; [apply policy_frame_refl|]; split; intros; lia).
    destruct (decide (sketches = [])) as [|Hne]; [discriminate|].
    apply bind_Ok in Hl as (tmp_s & _ & Hl).
    apply bind_Ok in Hl as ([[valid p1] s1] & Hr & Hl).
    apply apply_init_rules_valid in Hr as (-> & Hf).
    apply IH in Hl as (-> & Hf' & Hlen & _).
    split; [done|]. split.
    { eapply policy_frame_trans; [|exact Hf'].
      eapply policy_frame_trans; [apply (policy_frame_rand p) | exact Hf]. }
    split; [|done]. intros _. rewrite Hlen by done. rewrite length_app. simpl. lia.
Qed.

Lemma sample_loop_total (budget fuel : nat) (sketches : list State) (out_size : Z)
      (policy0 policy : Policy) (out_states : list State) :
  sketches <> [] ->
  0 < out_size ->
  policy_frame policy0 policy ->
  (forall p s, policy_frame policy0 p -> s ∈ sketches ->
               exists r, apply_init_rules (init_rules policy0) fuel p s = Ok r) ->
  (out_size - Z.of_nat (length out_states) <= Z.of_nat budget) ->
  exists out policy',
    sample_loop budget fuel sketches out_size policy out_states 0
    = Ok (out, 0, policy').
Proof.
  intros Hne Hpos. revert policy out_states.
  induction budget as [|budget IH]; intros p out0 Hf Hrules Hb;
    rewrite sample_loop_unfold.
  - destruct (Z.ltb_spec (Z.of_nat (length out0)) out_size); [lia|].
    simpl. eauto.
  - destruct (Z.ltb_spec (Z.of_nat (length out0)) out_size),
      (Z.ltb_spec 0 out_size); simpl; eauto; try lia.
    destruct (decide (sketches = [])); [done|].
    set (r := Z.of_N _).
    assert (Hidx : 0 <= r mod Z.of_nat (length sketches) < Z.of_nat (length sketches)).
    { apply Z.mod_pos_bound. destruct sketches; [done | simpl; lia]. }
    destruct (lookup_lt_is_Some_2 sketches
                (Z.to_nat (r mod Z.of_nat (length sketches)))) as [tmp_s Hs]; [lia|].
    assert (Hat : at_Z sketches (r mod Z.of_nat (length sketches)) = Ok tmp_s).
    { apply at_Z_Ok. split; [lia | done]. }
    rewrite Hat. simpl.
    pose proof (policy_frame_trans _ _ _ Hf (policy_frame_rand p)) as Hf1.
    unfold policy_rand, rand in Hf1. simpl in Hf1.
    destruct (Hrules _ tmp_s Hf1 (list_elem_of_lookup_2 _ _ _ Hs)) as ([[valid p1] s1] & Hr).
    assert (Hir : init_rules p = init_rules policy0) by apply Hf.
    rewrite Hir, Hr. simpl.
    destruct (apply_init_rules_valid _ _ _ _ _ _ _ Hr) as (-> & Hf2).
    apply IH; [eapply policy_frame_trans; eauto | done |].
    rewrite length_app. simpl. lia.
Qed.

(** C10: none of the five init population rules ever answers [kInvalid]; so a
    sample is never found invalid, [fail_ct] is 0 whenever
    [SampleInitPopulation] returns, and for [out_size > 0] what it returns are
    exactly [out_size] states (and the sketch list was not empty); and it does
    return, with exactly [out_size] states, for every non-empty sketch list and
    [out_size > 0] on which no rule aborts. *)
Theorem init_rules_never_invalid :
  (forall rule fuel policy state kind policy' state',
      InitPopulationRule_Apply rule fuel policy state = Ok (kind, policy', state') ->
      kind = kValid)
  /\ (forall rules fuel policy tmp_s valid policy' tmp_s',
        apply_init_rules rules fuel policy tmp_s = Ok (valid, policy', tmp_s') ->
        valid = true)
  /\ (forall fuel policy sketches out_size out fail_ct policy',
        SampleInitPopulation_ct fuel policy sketches out_size
        = Ok (out, fail_ct, policy') ->
        fail_ct = 0
        /\ (0 < out_size -> Z.of_nat (length out) = out_size /\ sketches <> []))
  /\ (forall fuel policy sketches out_size,
        sketches <> [] ->
        0 < out_size ->
        (forall p s, policy_frame policy p -> s ∈ sketches ->
                     exists r, apply_init_rules (init_rules policy) fuel p s = Ok r) ->
        exists out policy',
          SampleInitPopulation_ct fuel policy sketches out_size = Ok (out, 0, policy')
          /\ Z.of_nat (length out) = out_size).
Proof.
  split; [|split; [|split]].
  - intros rule fuel p s kind p' s' Ha.
    by apply InitPopulationRule_Apply_kValid in Ha as (-> & _).
  - intros rules fuel p s valid p' s' Ha.
    by apply apply_init_rules_valid in Ha as (-> & _).
  - intros fuel p sketches out_size out fc p' Hs.
    unfold SampleInitPopulation_ct in Hs.
    apply sample_loop_returns in Hs as (-> & _ & Hlen & Hne).
    split; [done|]. intros Hpos. split; [|apply Hne; simpl; lia].
    rewrite Hlen by done. simpl. lia.
  - intros fuel p sketches out_size Hne Hpos Hrules.
    unfold SampleInitPopulation_ct.
    destruct (sample_loop_total (Z.to_nat (2 * out_size)) fuel sketches out_size
                                p p [] Hne Hpos (policy_frame_refl p) Hrules)
      as (out & p' & Hs); [simpl; lia|].
    exists out, p'. split; [exact Hs|].
    apply sample_loop_returns in Hs as (_ & _ & Hlen & _).
    rewrite Hlen by done. simpl. lia.
Qed.

End SampleFacts.

(** ** The rfactor pass of GenerateSketches *)

Lemma unset_rfactor_split_invariant (k : nat) (cur cur' : list Step) :
  rfactor_pass_invariant k cur ->
  unset_rfactor_split k cur = Ok cur' ->
  length cur' = length cur /\ rfactor_pass_invariant (Datatypes.S k) cur'.
Proof.
  intros Hinv Hstep. unfold unset_rfactor_split in Hstep.
  destruct (cur !! k) as [step|] eqn:Hk; [|discriminate].
  destruct (is_RfactorStep step) eqn:Hrf.
  - destruct (Nat.leb_spec 1 k) as [Hk1|]; [|discriminate].
    destruct (cur !! (k - 1)%nat) as [prev|] eqn:Hprev; [|discriminate].
    destruct prev as [sid iid ext lens ito| | | | | | | | | | |]; try discriminate.
    injection Hstep as <-. rewrite length_insert. split; [done|].
    assert (Hlt : (k - 1 < length cur)%nat) by (by apply lookup_lt_Some in Hprev).
    intros i st Hi Hst Hr.
    destruct (decide (i = k)) as [->|Hne].
    + split; [done|]. exists sid, iid, ext, ito.
      by rewrite list_lookup_insert_eq.
    + destruct (decide (i = (k - 1)%nat)) as [->|Hne'].
      * rewrite list_lookup_insert_eq in Hst by done.
        injection Hst as <-. discriminate.
      * rewrite list_lookup_insert_ne in Hst by done.
        destruct (Hinv i st ltac:(lia) Hst Hr) as (Hi1 & s & it & e & io & Hb).
        split; [done|]. exists s, it, e, io.
        rewrite list_lookup_insert_ne by lia. exact Hb.
  - injection Hstep as <-. split; [done|].
    intros i st Hi Hst Hr. destruct (decide (i = k)) as [->|Hne].
    + congruence.
    + apply (Hinv i st); [lia | done | done].
Qed.

Lemma rfactor_pass_invariant_all (todo k : nat) (cur cur' : list Step) :
  rfactor_pass_invariant k cur ->
  rfactor_pass todo k cur = Ok cur' ->
  length cur' = length cur /\ rfactor_pass_invariant (k + todo) cur'.
Proof.
  revert k cur. induction todo as [|todo IH]; intros k cur Hinv Hp; simpl in Hp.
  - injection Hp as <-. by rewrite Nat.add_0_r.
  - apply bind_Ok in Hp as (cur1 & Hs & Hp).
    apply (unset_rfactor_split_invariant _ _ _ Hinv) in Hs as (Hl1 & Hinv1).
    apply (IH _ _ Hinv1) in Hp as (Hl2 & Hinv2).
    split; [congruence|].
    by replace (k + Datatypes.S todo)%nat with (Datatypes.S k + todo)%nat by lia.
Qed.

Lemma rfactor_hack_unset (state state' : State) :
  rfactor_hack state = Ok state' ->
  stages state' = stages state
  /\ length (transform_steps state') = length (transform_steps state)
  /\ forall i step, transform_steps state' !! i = Some step ->
                    is_RfactorStep step = true ->
                    split_unset_before (transform_steps state') i.
Proof.
  unfold rfactor_hack. intros Hh.
  apply bind_Ok in Hh as (steps & Hp & Hh). injection Hh as <-. simpl.
  apply rfactor_pass_invariant_all in Hp as (Hlen & Hinv).
  2:{ intros i step Hi. lia. }
  split; [done|]. split; [done|].
  intros i step Hi Hr. apply (Hinv i step); [|done|done].
  apply lookup_lt_Some in Hi. simpl. lia.
Qed.

Lemma rfactor_hack_all_elem (states out : list State) (state' : State) :
  rfactor_hack_all states = Ok out -> state' ∈ out ->
  exists state, state ∈ states /\ rfactor_hack state = Ok state'.
Proof.
  revert out. induction states as [|s rest IH]; intros out Ha Hin; simpl in Ha.
  - injection Ha as <-. inversion Hin.
  - apply bind_Ok in Ha as (s' & Hs & Ha).
    apply bind_Ok in Ha as (rest' & Hr & Ha). injection Ha as <-.
    apply elem_of_cons in Hin as [->|Hin].
    + exists s. split; [left | done].
    + destruct (IH _ Hr Hin) as (x & Hx & Hhx). exists x. split; [by right | done].
Qed.

Section SketchFacts.
Context `{Externals}.

(** C8: in every state [GenerateSketches] returns, every rfactor step of the
    history is immediately preceded by a split step, and that split step has
    all its lengths unset (it has the single length, unset), so that it is one
    of the steps [InitFillTileSize] fills. *)
Theorem GenerateSketches_rfactor_split_unset (fuel : nat) (policy : Policy)
        (out : list State) (policy' : Policy) :
  GenerateSketches fuel policy = Ok (out, policy') ->
  forall state, state ∈ out ->
  forall i stage_id iter_id factor_iter_id,
    transform_steps state !! i = Some (RfactorStep stage_id iter_id factor_iter_id) ->
    (1 <= i)%nat
    /\ exists split_stage_id split_iter_id extent lengths inner_to_outer,
         transform_steps state !! (i - 1)%nat
         = Some (SplitStep split_stage_id split_iter_id extent lengths inner_to_outer)
         /\ lengths = [None]
         /\ Forall (fun len => len = None) lengths
         /\ needs_fill (SplitStep split_stage_id split_iter_id extent lengths
                                  inner_to_outer) = true.
Proof.
  unfold GenerateSketches. intros Hg state Hin i sid iid fid Hi.
  apply bind_Ok in Hg as ([pre rules] & _ & Hg).
  apply bind_Ok in Hg as (out' & Hall & Hg). injection Hg as <- <-.
  destruct (rfactor_hack_all_elem _ _ _ Hall Hin) as (s0 & _ & Hh).
  apply rfactor_hack_unset in Hh as (_ & _ & Hun).
  destruct (Hun i _ Hi eq_refl) as (Hi1 & s & it & e & io & Hb).
  split; [done|]. exists s, it, e, [None], io.
  split; [exact Hb|]. split; [done|]. split; [|done].
  constructor; [done | constructor].
Qed.

End SketchFacts.

(** ** PickStatesWithEpsGreedy *)

Section PickFacts.
Context `{Externals}.

Lemma pick_loop_unfold (budget : nat) (best_states random_states : list State)
      (limit num_good : Z) (policy : Policy) (inputs : list MeasureInput)
      (offset_best offset_random : nat) :
  pick_loop budget best_states random_states limit num_good policy inputs
            offset_best offset_random
  = if Z.of_nat (length inputs) <? limit then
      match budget with
      | O => OutOfFuel
      | Datatypes.S budget' =>
          let has_best := best_states !! offset_best in
          let has_random := random_states !! offset_random in
          let picked :=
            if Z.of_nat (length inputs) <? num_good then
              match has_best, has_random with
              | Some state, _ => Some (state, Datatypes.S offset_best, offset_random)
              | None, Some state => Some (state, offset_best, Datatypes.S offset_random)
              | None, None => None
              end
            else
              match has_random, has_best with
              | Some state, _ => Some (state, offset_best, Datatypes.S offset_random)
              | None, Some state => Some (state, Datatypes.S offset_best, offset_random)
              | None, None => None
              end in
          match picked with
          | None => Ok (inputs, policy)
          | Some (state, offset_best, offset_random) =>
              let state_str := ToStr state in
              if bool_decide (state_str ∈ measured_states_set_ policy) then
                pick_loop budget' best_states random_states limit num_good policy
                          inputs offset_best offset_random
              else
                pick_loop budget' best_states random_states limit num_good
                          (record_measured policy state_str state)
                          (inputs ++ [mkMeasureInput (search_task policy) state])
                          offset_best offset_random
          end
      end
    else Ok (inputs, policy).
Proof. destruct budget; reflexivity. Qed.

Lemma pick_loop_spec (budget : nat) (best_states random_states : list State)
      (limit num_good : Z) (policy : Policy) (inputs : list MeasureInput)
      (offset_best offset_random : nat) (inputs' : list MeasureInput)
      (policy' : Policy) :
  pick_loop budget best_states random_states limit num_good policy inputs
            offset_best offset_random = Ok (inputs', policy') ->
  picked_since policy inputs policy' inputs'.
Proof.
  assert (Hnone : forall p i, picked_since p i p i).
  { intros p i. exists []. rewrite app_nil_r. simpl.
    split; [done|]. split; [constructor|].
    split; [intros x Hx; inversion Hx|].
    split; [by rewrite (left_id_L ∅ (∪))|]. split; [by rewrite app_nil_r|].
    split; [constructor|]. unfold policy_frame_but_measured. tauto. }
  revert policy inputs offset_best offset_random.
  induction budget as [|budget IH]; intros p inp ob or Hl;
    rewrite pick_loop_unfold in Hl.
  - destruct (_ <? limit); [discriminate|]. injection Hl as <- <-. apply Hnone.
  - destruct (_ <? limit); [|injection Hl as <- <-; apply Hnone].
    cbv zeta in Hl.
    match type of Hl with
    | match ?pk with _ => _ end = _ => destruct pk as [[[state ob'] or']|]
    end; [|injection Hl as <- <-; apply Hnone].
    destruct (bool_decide (ToStr state ∈ measured_states_set_ p)) eqn:Hmem.
    + by apply IH in Hl.
    + apply bool_decide_eq_false in Hmem.
      apply IH in Hl as (new & -> & Hnd & Hfresh & Hset & Hvec & Htask & Hframe).
      simpl in *.
      exists (mkMeasureInput (search_task p) state :: new).
      split; [by rewrite <- app_assoc|]. simpl.
      split.
      { constructor; [|done]. intros Hin. apply Hfresh in Hin.
        apply Hin, elem_of_union_l, elem_of_singleton. reflexivity. }
      split.
      { intros x [->|Hx]%elem_of_cons; [done|].
        apply Hfresh in Hx. intros Hc. apply Hx, elem_of_union_r, Hc. }
      split.
      { rewrite Hset. apply set_eq. intros y.
        rewrite !elem_of_union, elem_of_singleton. tauto. }
      split; [by rewrite Hvec, <- app_assoc|].
      split; [constructor; [done|]; exact Htask|].
      exact Hframe.
Qed.

Lemma pick_loop_returns (budget : nat) (best_states random_states : list State)
      (limit num_good : Z) (policy : Policy) (inputs : list MeasureInput)
      (offset_best offset_random : nat) :
  ((length best_states - offset_best) + (length random_states - offset_random)
   < budget)%nat ->
  exists r, pick_loop budget best_states random_states limit num_good policy inputs
                      offset_best offset_random = Ok r.
Proof.
  revert policy inputs offset_best offset_random.
  induction budget as [|budget IH]; intros p inp ob or Hb; [lia|].
  rewrite pick_loop_unfold.
  destruct (_ <? limit); [|eauto]. cbv zeta.
  destruct (best_states !! ob) as [sb|] eqn:Hbest,
           (random_states !! or) as [sr|] eqn:Hrand;
    try apply lookup_lt_Some in Hbest; try apply lookup_lt_Some in Hrand;
    try apply lookup_ge_None in Hbest; try apply lookup_ge_None in Hrand;
    destruct (_ <? num_good); eauto;
    destruct (bool_decide _); apply IH; lia.
Qed.

Lemma PickStatesWithEpsGreedy_spec (policy : Policy)
      (best_states random_states : list State) (remaining_n_trials : Z) :
  exists inputs policy',
    PickStatesWithEpsGreedy policy best_states random_states remaining_n_trials
    = Ok (inputs, policy')
    /\ picked_since policy [] policy' inputs.
Proof.
  unfold PickStatesWithEpsGreedy.
  edestruct pick_loop_returns as ([inputs p'] & Hl);
    [|exists inputs, p'; split; [exact Hl|]; eapply pick_loop_spec; exact Hl].
  lia.
Qed.

Lemma PickStatesWithEpsGreedy_run_distinct (policy : Policy)
      (outs : list (list MeasureInput)) (policy' : Policy) :
  pick_run policy outs policy' ->
  NoDup (input_strs (concat outs))
  /\ (forall str, str ∈ input_strs (concat outs) ->
                  str ∉ measured_states_set_ policy)
  /\ measured_states_set_ policy'
     = list_to_set (input_strs (concat outs)) ∪ measured_states_set_ policy.
Proof.
  induction 1 as [p | p p1 p2 outs Hset Hrun IH
                  | p p1 p2 best random rem inputs outs Hpick Hrun IH].
  - simpl. split; [constructor|]. split; [intros x Hx; inversion Hx|].
    by rewrite (left_id_L ∅ (∪)).
  - by rewrite <- Hset.
  - destruct (PickStatesWithEpsGreedy_spec p best random rem)
      as (inputs' & p1' & Hpick' & new & Hnew & Hnd & Hfresh & Hset & _).
    rewrite Hpick in Hpick'. injection Hpick' as <- <-.
    simpl in Hnew. subst new.
    destruct IH as (IHnd & IHfresh & IHset).
    simpl. unfold input_strs in *. rewrite fmap_app.
    split; [|split].
    + apply NoDup_app. split; [done|]. split; [|done].
      intros x Hx Hx'. apply IHfresh in Hx'. apply Hx'.
      rewrite Hset. apply elem_of_union_l, elem_of_list_to_set, Hx.
    + intros x [Hx|Hx]%elem_of_app; [by apply Hfresh|].
      apply IHfresh in Hx. intros Hc. apply Hx. rewrite Hset.
      apply elem_of_union_r, Hc.
    + rewrite IHset, Hset. apply set_eq. intros y.
      rewrite !elem_of_union, !elem_of_list_to_set, elem_of_app. tauto.
Qed.

(** C3: [PickStatesWithEpsGreedy] always returns; and over any sequence of
    calls on one policy object, whatever else happens to the object in between
    as long as [measured_states_set_] is left alone, the canonical strings of
    all the states returned are pairwise distinct, none of them was in
    [measured_states_set_] before the first call, and the set after the last
    call is the set before the first one plus exactly these strings (each is
    inserted when its state is picked). *)
Theorem PickStatesWithEpsGreedy_never_repeats :
  (forall policy best_states random_states remaining_n_trials,
      exists inputs policy',
        PickStatesWithEpsGreedy policy best_states random_states remaining_n_trials
        = Ok (inputs, policy'))
  /\ forall policy outs policy',
      pick_run policy outs policy' ->
      let returned := input_strs (concat outs) in
      NoDup returned
      /\ (forall str, str ∈ returned ->
            (str ∉ measured_states_set_ policy) /\ str ∈ measured_states_set_ policy')
      /\ measured_states_set_ policy'
         = list_to_set returned ∪ measured_states_set_ policy.
Proof.
  split.
  { intros p b r n. destruct (PickStatesWithEpsGreedy_spec p b r n)
      as (inputs & p' & Hp & _). eauto. }
  intros p outs p' Hrun. cbv zeta.
  destruct (PickStatesWithEpsGreedy_run_distinct _ _ _ Hrun) as (Hnd & Hfresh & Hset).
  split; [done|]. split; [|done].
  intros str Hstr. split; [by apply Hfresh|].
  rewrite Hset. apply elem_of_union_l, elem_of_list_to_set, Hstr.
Qed.

End PickFacts.

(** ** Search and SearchOneRound *)

Section SearchFacts.
Context `{Externals}.

Lemma GenerateSketches_frame (fuel : nat) (policy : Policy) (out : list State)
      (policy' : Policy) :
  GenerateSketches fuel policy = Ok (out, policy') -> policy_frame policy policy'.
Proof.
  unfold GenerateSketches. intros Hg.
  apply bind_Ok in Hg as ([pre rules] & _ & Hg).
  apply bind_Ok in Hg as (out' & _ & Hg). injection Hg as <- <-.
  apply policy_frame_set_sketch_rules.
Qed.

Lemma SampleInitPopulation_frame (fuel : nat) (policy : Policy)
      (sketches : list State) (out_size : Z) (out : list State) (policy' : Policy) :
  SampleInitPopulation fuel policy sketches out_size = Ok (out, policy') ->
  policy_frame policy policy'.
Proof.
  unfold SampleInitPopulation, SampleInitPopulation_ct. intros Hs.
  apply bind_Ok in Hs as ([[o fc] p1] & Hl & Hs). injection Hs as <- <-.
  by apply sample_loop_returns in Hl as (_ & Hf & _).
Qed.

Lemma SearchOneRound_frame (fuel : nat) (policy : Policy) (num_random_states : Z)
      (random_states : option (list State)) (best random : list State)
      (policy' : Policy) :
  SearchOneRound fuel policy num_random_states random_states
  = Ok (best, random, policy') ->
  policy_frame policy policy'
  /\ (is_RandomModelNode (schedule_cost_model policy) = false -> best = []).
Proof.
  unfold SearchOneRound. intros Hs.
  apply bind_Ok in Hs as ([sketches p1] & Hg & Hs).
  apply bind_Ok in Hs as ([pop p2] & Hp & Hs).
  apply GenerateSketches_frame in Hg. apply SampleInitPopulation_frame in Hp.
  pose proof (policy_frame_trans _ _ _ Hg Hp) as Hf.
  destruct (is_RandomModelNode (schedule_cost_model policy)); simpl in Hs.
  - destruct (RandomSampleStates pop (rand_gen p2) _) as [b g].
    injection Hs as <- <- <-. split; [|discriminate].
    eapply policy_frame_trans; [exact Hf | apply policy_frame_set_rand_gen].
  - apply bind_Ok in Hs as (pop' & _ & Hs).
    destruct (RandomSampleStates pop' (rand_gen p2) _) as [r g].
    injection Hs as <- <- <-. split; [|done].
    eapply policy_frame_trans; [exact Hf | apply policy_frame_set_rand_gen].
Qed.

(** C2: [EvolutionarySearch] returns the empty array whatever it is given; so
    when the cost model is not a [RandomModel], every [SearchOneRound] that
    returns returns no best state, and [Search] with [n_trials <= 1] never
    returns a state: it fails its [CHECK] as soon as its search round
    returns. *)
Theorem SearchOneRound_empty_without_RandomModel (policy : Policy) :
  is_RandomModelNode (schedule_cost_model policy) = false ->
  (forall p init_populations out_size,
      EvolutionarySearch p init_populations out_size = [])
  /\ (forall fuel num_random_states random_states best random policy',
        SearchOneRound fuel policy num_random_states random_states
        = Ok (best, random, policy') ->
        best = [])
  /\ (forall fuel n_trials early_stopping num_measure_per_iter measurer,
        n_trials <= 1 ->
        (forall r, Search fuel policy n_trials early_stopping num_measure_per_iter
                          measurer <> Ok r)
        /\ (forall r,
              SearchOneRound fuel (set_num_measure_per_iter policy num_measure_per_iter)
                             0 None = Ok r ->
              Search fuel policy n_trials early_stopping num_measure_per_iter measurer
              = Fatal)).
Proof.
  intros Hnr. split; [reflexivity|]. split.
  - intros fuel nr rs best random p' Hs.
    by apply SearchOneRound_frame in Hs as (_ & ->).
  - intros fuel n es nmpi m Hn. unfold Search.
    destruct (Z.leb_spec n 1); [|lia].
    destruct (SearchOneRound fuel (set_num_measure_per_iter policy nmpi) 0 None)
      as [[[best random] p']| |] eqn:Hs; simpl.
    + apply SearchOneRound_frame in Hs as (_ & ->); [|exact Hnr].
      simpl. split; [discriminate|]. reflexivity.
    + split; [discriminate|]. intros r [=].
    + split; [discriminate|]. intros r [=].
Qed.

(** C1 (as the code has it): with [n_trials <= 1], [Search] stores
    [num_measure_per_iter], runs [SearchOneRound(0)] once and, if the list of
    best states it gets is not empty, returns its first state; if the list is
    empty the [CHECK] fails and no state is returned.  When it returns, the
    measurer has received no call ([Measure] is not invoked) and the cost model
    has not been updated; nothing of the policy object has changed but the
    generator, the rule objects and [num_measure_per_iter_]. *)
Theorem Search_without_trials (fuel : nat) (policy : Policy)
        (n_trials early_stopping num_measure_per_iter : Z)
        (measurer : ProgramMeasurer) :
  n_trials <= 1 ->
  let policy0 := set_num_measure_per_iter policy num_measure_per_iter in
  Search fuel policy n_trials early_stopping num_measure_per_iter measurer
  = match SearchOneRound fuel policy0 0 None with
    | Ok (first :: _, _, policy') => Ok (first, policy', measurer)
    | Ok ([], _, _) => Fatal
    | Fatal => Fatal
    | OutOfFuel => OutOfFuel
    end
  /\ forall state policy' measurer',
      Search fuel policy n_trials early_stopping num_measure_per_iter measurer
      = Ok (state, policy', measurer') ->
      measurer' = measurer
      /\ schedule_cost_model policy' = schedule_cost_model policy
      /\ policy_frame policy0 policy'
      /\ exists rest random,
           SearchOneRound fuel policy0 0 None = Ok (state :: rest, random, policy').
Proof.
  intros Hn. cbv zeta.
  assert (Heq : Search fuel policy n_trials early_stopping num_measure_per_iter measurer
    = match SearchOneRound fuel (set_num_measure_per_iter policy num_measure_per_iter)
                           0 None with
      | Ok (first :: _, _, policy') => Ok (first, policy', measurer)
      | Ok ([], _, _) => Fatal
      | Fatal => Fatal
      | OutOfFuel => OutOfFuel
      end).
  { unfold Search. destruct (Z.leb_spec n_trials 1); [|lia].
    destruct (SearchOneRound _ _ 0 None) as [[[best random] p']| |]; simpl; auto.
    destruct best; reflexivity. }
  split; [exact Heq|].
  intros state p' m'. rewrite Heq.
  destruct (SearchOneRound _ _ 0 None) as [[[best random] p1]| |] eqn:Hs;
    try discriminate.
  destruct best as [|first rest]; [discriminate|].
  intros [= <- <- <-].
  apply SearchOneRound_frame in Hs as Hf. destruct Hf as (Hf & _).
  split; [done|]. split; [apply Hf|]. split; [exact Hf|]. eauto.
Qed.

End SearchFacts.

(** ** One search measures no state twice *)

Section SearchMeasures.
Context `{Externals}.

Lemma measured_inputs_app (cs cs' : list MeasurerCall) :
  measured_inputs (cs ++ cs') = measured_inputs cs ++ measured_inputs cs'.
Proof. unfold measured_inputs. apply bind_app. Qed.

Lemma push_throughputs_set (results : list MeasureResult) (p : Policy) :
  measured_states_set_
    (foldl (fun p res => push_throughput p (inverse_mean (costs res))) p results)
  = measured_states_set_ p.
Proof.
  revert p. induction results as [|res rest IH]; intros p; simpl; [done|].
  by rewrite IH.
Qed.

Lemma search_loop_pick_run (budget fuel : nat)
      (n_trials early_stopping num_random ct : Z) (inputs : list MeasureInput)
      (results : list MeasureResult) (policy : Policy) (measurer : ProgramMeasurer)
      (policy' : Policy) (measurer' : ProgramMeasurer) :
  search_loop budget fuel n_trials early_stopping num_random ct inputs results
              policy measurer = Ok (policy', measurer') ->
  exists outs,
    pick_run policy outs policy'
    /\ measured_inputs (calls measurer')
       = measured_inputs (calls measurer) ++ concat outs.
Proof.
  assert (Hstop : forall p m, exists outs,
             pick_run p outs p
             /\ measured_inputs (calls m) = measured_inputs (calls m) ++ concat outs).
  { intros p m. exists []. split; [constructor | by rewrite app_nil_r]. }
  revert ct inputs results policy measurer.
  induction budget as [|budget IH]; intros ct inputs results p m Hl; simpl in Hl.
  - destruct (ct <? n_trials); [discriminate|]. injection Hl as <- <-. apply Hstop.
  - destruct (ct <? n_trials); [|injection Hl as <- <-; apply Hstop].
    set (p0 := if decide (inputs = []) then p else _) in Hl.
    assert (Hp0 : measured_states_set_ p0 = measured_states_set_ p).
    { unfold p0. by destruct (decide (inputs = [])). }
    apply bind_Ok in Hl as ([[best random] p1] & Hround & Hl).
    apply SearchOneRound_frame in Hround as (Hf1 & _).
    apply bind_Ok in Hl as (best' & _ & Hl).
    apply bind_Ok in Hl as (random' & _ & Hl).
    apply bind_Ok in Hl as ([new_inputs p2] & Hpick & Hl).
    assert (Hp1 : measured_states_set_ p1 = measured_states_set_ p).
    { rewrite <- Hp0. apply Hf1. }
    destruct (decide (new_inputs = [])) as [->|Hne].
    + injection Hl as <- <-. exists [[]]. split; [|by rewrite app_nil_r].
      eapply pick_run_between; [exact Hp1|].
      eapply pick_run_pick; [exact Hpick | constructor].
    + simpl in Hl.
      match type of Hl with
      | (if ?c then _ else _) = _ => destruct c
      end.
      * injection Hl as <- <-. exists [new_inputs]. simpl.
        rewrite measured_inputs_app, app_nil_r. simpl. rewrite app_nil_r.
        split; [|done].
        eapply pick_run_between; [exact Hp1|].
        eapply pick_run_pick; [exact Hpick | constructor].
      * apply IH in Hl as (outs & Hrun & Hm). simpl in Hm.
        exists (new_inputs :: outs). simpl.
        rewrite measured_inputs_app in Hm. simpl in Hm.
        rewrite app_nil_r, <- app_assoc in Hm. split; [|exact Hm].
        eapply pick_run_between; [exact Hp1|].
        eapply pick_run_pick; [exact Hpick|].
        eapply pick_run_between; [|exact Hrun].
        apply push_throughputs_set.
Qed.

(** The states one call of [Search] has measured have pairwise distinct
    canonical strings, none of which was in [measured_states_set_] before. *)
Lemma Search_measures_no_state_twice (fuel : nat) (policy : Policy)
      (n_trials early_stopping num_measure_per_iter : Z)
      (measurer : ProgramMeasurer) (state : State) (policy' : Policy)
      (measurer' : ProgramMeasurer) :
  Search fuel policy n_trials early_stopping num_measure_per_iter measurer
  = Ok (state, policy', measurer') ->
  exists measured,
    measured_inputs (calls measurer') = measured_inputs (calls measurer) ++ measured
    /\ NoDup (input_strs measured)
    /\ forall str, str ∈ input_strs measured -> str ∉ measured_states_set_ policy.
Proof.
  unfold Search. destruct (n_trials <=? 1).
  - intros Hs. apply bind_Ok in Hs as ([[best random] p1] & _ & Hs).
    destruct (0 <? _); [|discriminate].
    apply bind_Ok in Hs as (first & _ & Hs). injection Hs as <- <- <-.
    exists []. rewrite app_nil_r. split; [done|]. split; [constructor|].
    intros x Hx. inversion Hx.
  - intros Hs. apply bind_Ok in Hs as ([p1 m1] & Hl & Hs). injection Hs as <- <- <-.
    apply search_loop_pick_run in Hl as (outs & Hrun & Hm).
    exists (concat outs). simpl in Hm.
    rewrite measured_inputs_app in Hm. simpl in Hm. rewrite app_nil_r in Hm.
    split; [exact Hm|].
    destruct PickStatesWithEpsGreedy_run_distinct with (1 := Hrun) as (Hnd & Hfresh & _).
    split; [exact Hnd|]. intros x Hx. apply (Hfresh x Hx).
Qed.

End SearchMeasures.

(** ** The rules on small examples *)

(** The tagged stage [B] of [Demo.tagged_state] is inlined although the
    analyzer does not find it strictly inlineable: the condition of the rule
    table is not the condition of the rule. *)
Lemma RuleAlwaysInline_not_condition_in_words :
  exists stage,
    at_Z (stages Demo.tagged_state) 1 = Ok stage
    /\ ~ (RuleAlwaysInline_MeetCondition (H := Demo.externals)
            Demo.tagged_policy Demo.tagged_state 1 = Ok kApplyAndSkipRest
          <-> AlwaysInline_condition_in_words (H := Demo.externals)
                Demo.tagged_policy Demo.tagged_state 1 stage = true).
Proof.
  eexists. split; [reflexivity|].
  intros [Hfires _].
  assert (Hc : RuleAlwaysInline_MeetCondition (H := Demo.externals)
                 Demo.tagged_policy Demo.tagged_state 1 = Ok kApplyAndSkipRest)
    by (vm_compute; reflexivity).
  specialize (Hfires Hc). vm_compute in Hfires. discriminate.
Qed.

Lemma RuleAlwaysInline_fires_iff_witness :
  RuleAlwaysInline_MeetCondition (H := Demo.externals)
    Demo.tagged_policy Demo.tagged_state 1 = Ok kApplyAndSkipRest
  /\ RuleAlwaysInline_MeetCondition (H := Demo.externals)
       Demo.tagged_policy Demo.tagged_state 0 = Ok kPass.
Proof.
  pose proof (RuleAlwaysInline_fires_iff (H := Demo.externals) Demo.tagged_policy
                Demo.tagged_state 1 _ eq_refl) as (Hiff & _).
  pose proof (RuleAlwaysInline_fires_iff (H := Demo.externals) Demo.tagged_policy
                Demo.tagged_state 0 _ eq_refl) as (_ & Hph & _).
  split.
  - apply Hiff. repeat split; try (vm_compute; congruence). left. vm_compute. reflexivity.
  - apply Hph. reflexivity.
Defined.

Lemma RuleAddRfactor_spec_witness :
  exists ret,
    RuleAddRfactor_Apply (H := Demo.externals) Demo.reduce_policy Demo.reduce_state 1
    = Ok ret
    /\ length ret = 2%nat.
Proof.
  pose proof (RuleAddRfactor_spec (H := Demo.externals) Demo.reduce_policy
                Demo.reduce_state 1) as (_ & _ & Happ).
  edestruct Happ as [Heq Hlen].
  - vm_compute. reflexivity.
  - vm_compute. reflexivity.
  - eexists. split; [vm_compute; reflexivity|].
    apply Hlen. vm_compute. reflexivity.
Defined.

(** The extent [2 ^ 32 + 12] is narrowed to the [int] 12 before its schemes
    are asked for: the split is filled with two positive lengths of product
    12, which is not a factorization of its extent. *)
Lemma InitFillTileSize_narrows_extent :
  exists policy' state' scheme,
    InitFillTileSize_Apply Demo.unfilled_policy Demo.wide_state
    = Ok (kValid, policy', state')
    /\ transform_steps state'
       = [SplitStep 0 0 (Some (2 ^ 32 + 12)) (Some <$> scheme) true]
    /\ Forall (fun x => 0 < x) scheme
    /\ product scheme = 12
    /\ product scheme <> 2 ^ 32 + 12.
Proof.
  eexists _, _, [1; 12]. split; [vm_compute; reflexivity|].
  split; [reflexivity|]. split; [repeat constructor|].
  split; [reflexivity | discriminate].
Qed.

Lemma InitFillTileSize_fills_every_split_witness :
  exists kind policy' state',
    InitFillTileSize_Apply Demo.unfilled_policy Demo.unfilled_state
    = Ok (kind, policy', state')
    /\ kind = kValid
    /\ concrete state' = true
    /\ transform_steps state' !! 0%nat
       = Some (SplitStep 0 0 (Some 12) [Some 1; Some 1; Some 12] true)
    /\ forall i stage_id iter_id extent lengths inner_to_outer,
         transform_steps state' !! i
         = Some (SplitStep stage_id iter_id extent lengths inner_to_outer) ->
         Forall is_Some lengths.
Proof.
  eexists _, _, _. split; [vm_compute; reflexivity|].
  edestruct (InitFillTileSize_fills_every_split Demo.unfilled_policy
               Demo.unfilled_state) as (Hk & Hc & _ & _ & _ & _ & Hall).
  - vm_compute. reflexivity.
  - split; [exact Hk|]. split; [exact Hc|]. split; [reflexivity | exact Hall].
Defined.

(** Stage [C] of [Demo.attached_state] has two innermost iterators that are
    spatial, not annotated and of cumulative extent 16, within
    [max_vectorize_size]: the walk of the design document counts two, the
    rule counts none (a stage is attached to the innermost iterator) and
    leaves the stage as it is. *)
Lemma InitVectorization_count_not_in_words :
  exists stage,
    at_Z (stages Demo.attached_state) 1 = Ok stage
    /\ num_fusible_in_words (H := Demo.externals)
         (max_vectorize_size (params Demo.attached_policy)) (rev (iters stage)) 1 = 2
    /\ count_fusible (H := Demo.externals) Demo.attached_policy Demo.attached_state
         stage 1 (unroll_name_set (H := Demo.externals) (op stage) always_unroll)
         (length (iters stage)) 0 1 = 0
    /\ init_vectorization_stage (H := Demo.externals) 1
         (Demo.attached_policy, Demo.attached_state)
       = Ok (Demo.attached_policy, Demo.attached_state).
Proof.
  eexists. split; [reflexivity|]. repeat split; vm_compute; reflexivity.
Qed.

Lemma InitVectorization_stage_spec_witness :
  exists (stage : Stage) (num_fusible : nat) (back : Iterator),
    at_Z (stages Demo.loops_state) 0 = Ok stage
    /\ (num_fusible <= 3)%nat
    /\ iters stage !! 2%nat = Some back
    /\ (num_fusible = 1%nat ->
        init_vectorization_stage (H := Demo.externals) 0
          (Demo.loops_policy, Demo.loops_state)
        = (s ← State_vectorize (Externals := Demo.externals) Demo.loops_state 0 back;
           Ok (Demo.loops_policy, s))).
Proof.
  eexists. 
  destruct (InitVectorization_stage_spec (H := Demo.externals) Demo.loops_policy
              Demo.loops_state 0 _ eq_refl) as (_ & Hmain).
  destruct Hmain as (m & Hle & _ & _ & _ & H1 & _);
    [vm_compute; congruence | vm_compute; congruence | vm_compute; reflexivity|].
  exists m. eexists. split; [reflexivity|]. split; [exact Hle|].
  split; [reflexivity|].
  intros Hm. destruct (H1 Hm) as (back & Hb & Hout).
  vm_compute in Hb. injection Hb as <-. exact Hout.
Defined.

(** With a cost model that is not a [RandomModel], [Search] with no trial
    runs its round, gets no best state and fails its [CHECK]: no first state
    is returned. *)
Lemma Search_returns_no_first_state :
  (exists random policy',
      SearchOneRound (H := Demo.externals) 10
        (set_num_measure_per_iter Demo.reduce_policy_trained 2) 0 None
      = Ok ([], random, policy'))
  /\ Search (H := Demo.externals) 10 Demo.reduce_policy_trained 0 0 2
            Demo.fresh_measurer = Fatal.
Proof.
  split; [eexists _, _|]; vm_compute; reflexivity.
Qed.

Lemma Search_without_trials_witness :
  exists state policy',
    Search (H := Demo.externals) 10 Demo.reduce_policy 0 0 2 Demo.fresh_measurer
    = Ok (state, policy', Demo.fresh_measurer)
    /\ schedule_cost_model policy' = schedule_cost_model Demo.reduce_policy.
Proof.
  destruct (Search_without_trials (H := Demo.externals) 10 Demo.reduce_policy
              0 0 2 Demo.fresh_measurer ltac:(lia)) as [_ Hret].
  eexists _, _. split; [vm_compute; reflexivity|].
  eapply Hret. vm_compute. reflexivity.
Defined.

Lemma SearchOneRound_empty_without_RandomModel_witness :
  is_RandomModelNode (schedule_cost_model Demo.reduce_policy_trained) = false
  /\ Search (H := Demo.externals) 10 Demo.reduce_policy_trained 1 0 2
            Demo.fresh_measurer = Fatal.
Proof.
  split; [reflexivity|].
  destruct (SearchOneRound_empty_without_RandomModel (H := Demo.externals)
              Demo.reduce_policy_trained eq_refl) as (_ & _ & Hs).
  destruct (Hs 10%nat 1 0 2 Demo.fresh_measurer ltac:(lia)) as [_ Hf].
  eapply Hf. vm_compute. reflexivity.
Defined.

Lemma PickStatesWithEpsGreedy_never_repeats_witness :
  exists outs policy',
    pick_run (H := Demo.externals)
             (set_num_measure_per_iter Demo.reduce_policy 4) outs policy'
    /\ length (concat outs) = 3%nat
    /\ NoDup (input_strs (H := Demo.externals) (concat outs)).
Proof.
  assert (Hrun : exists outs policy',
             pick_run (H := Demo.externals)
                      (set_num_measure_per_iter Demo.reduce_policy 4) outs policy'
             /\ length (concat outs) = 3%nat).
  { eexists _, _. split.
    - eapply (pick_run_pick _ _ _
                [Demo.reduce_state; Demo.tagged_state; Demo.reduce_state]
                [Demo.tagged_state] 5);
        [vm_compute; reflexivity|].
      eapply (pick_run_pick _ _ _
                [Demo.tagged_state; Demo.unfilled_state]
                [Demo.reduce_state] 5);
        [vm_compute; reflexivity|].
      apply pick_run_done.
    - reflexivity. }
  destruct Hrun as (outs & p' & Hrun & Hlen).
  exists outs, p'. split; [exact Hrun|]. split; [exact Hlen|].
  destruct (PickStatesWithEpsGreedy_never_repeats (H := Demo.externals)) as [_ Hnr].
  apply (Hnr _ _ _ Hrun).
Defined.

Lemma GenerateSketches_rfactor_split_unset_witness :
  exists out policy' state,
    GenerateSketches (H := Demo.externals) 10 Demo.reduce_policy = Ok (out, policy')
    /\ state ∈ out
    /\ transform_steps state !! 2%nat = Some (RfactorStep 1 1 1)
    /\ exists split_stage_id split_iter_id extent inner_to_outer,
         transform_steps state !! 1%nat
         = Some (SplitStep split_stage_id split_iter_id extent [None] inner_to_outer).
Proof.
  eexists _, _, _. split; [vm_compute; reflexivity|].
  split; [apply list_elem_of_here|]. split; [reflexivity|].
  pose proof (fun out p' Hg st Hin =>
                GenerateSketches_rfactor_split_unset (H := Demo.externals) 10
                  Demo.reduce_policy out p' Hg st Hin 2%nat 1 1 1) as Hthm.
  edestruct Hthm as (_ & s & it & e & l & io & Hs & -> & _ & _).
  - vm_compute. reflexivity.
  - apply list_elem_of_here.
  - reflexivity.
  - exists s, it, e, io. exact Hs.
Defined.

Lemma init_rules_never_invalid_witness :
  exists out policy',
    SampleInitPopulation_ct (H := Demo.externals) 2 Demo.input_policy
                            [Demo.input_state] 3 = Ok (out, 0, policy')
    /\ Z.of_nat (length out) = 3.
Proof.
  destruct (init_rules_never_invalid (H := Demo.externals)) as (_ & _ & _ & Htotal).
  apply Htotal; [discriminate | lia |].
  intros p s (_ & _ & Hpar & _) ->%list_elem_of_singleton.
  simpl. unfold InitChangeComputeLocation_Apply. rewrite Hpar. simpl.
  eexists. reflexivity.
Defined.

(** On [Demo.fusion_state] the fusion rule finds the consumer of [conv],
    applies without skipping the other rules (there is no cache-write stage)
    and, both levels of "SSRSRS" being spatial, emits two successors. *)
Example RuleMultiLevelTilingWithFusion_on_conv :
  RuleMultiLevelTilingWithFusion_MeetCondition (H := Demo.externals)
    Demo.fusion_policy 0 Demo.fusion_state 1 = Ok (kApply, 2)
  /\ exists s1 s2,
       RuleMultiLevelTilingWithFusion_Apply (H := Demo.externals)
         Demo.fusion_policy 2 Demo.fusion_state 1 = Ok [(s1, 0); (s2, 0)]
       /\ List.last (transform_steps s1) (ComputeRootStep 0) = ComputeAtStep 1 2 0
       /\ List.last (transform_steps s2) (ComputeRootStep 0) = ComputeAtStep 1 2 1.
Proof.
  split; [vm_compute; reflexivity|].
  eexists _, _. split; [vm_compute; reflexivity|]. split; reflexivity.
Qed.

(** * Further properties of the policy *)

(** ** PickStatesWithEpsGreedy: how many, from where, and when nothing *)

Section PickMore.
Context `{Externals}.

Lemma pick_loop_candidates (budget : nat) (best_states random_states : list State)
      (limit num_good : Z) (policy : Policy) (inputs : list MeasureInput)
      (offset_best offset_random : nat) (inputs' : list MeasureInput)
      (policy' : Policy) :
  pick_loop budget best_states random_states limit num_good policy inputs
            offset_best offset_random = Ok (inputs', policy') ->
  Z.of_nat (length inputs') <= Z.max (Z.of_nat (length inputs)) limit
  /\ (exists new, inputs' = inputs ++ new
                  /\ Forall (fun mi => mi_state mi ∈ best_states ++ random_states) new)
  /\ (Z.of_nat (length inputs) < limit -> inputs' = inputs ->
      forall s, s ∈ drop offset_best best_states ++ drop offset_random random_states ->
                ToStr s ∈ measured_states_set_ policy).
Proof.
  revert policy inputs offset_best offset_random.
  induction budget as [|budget IH]; intros p inp ob or Hl;
    rewrite pick_loop_unfold in Hl.
  - destruct (Z.ltb_spec (Z.of_nat (length inp)) limit); [discriminate|].
    injection Hl as <- <-. split; [lia|]. split; [|lia].
    exists []. by rewrite app_nil_r.
  - destruct (Z.ltb_spec (Z.of_nat (length inp)) limit) as [Hlt|Hge].
    2:{ injection Hl as <- <-. split; [lia|]. split; [|lia].
        exists []. by rewrite app_nil_r. }
    cbv zeta in Hl.
    match type of Hl with
    | match ?pk with _ => _ end = _ => destruct pk as [[[state ob'] or']|] eqn:Hpk
    end.
    + assert (Hsrc : (best_states !! ob = Some state /\ ob' = Datatypes.S ob /\ or' = or)
                     \/ (random_states !! or = Some state /\ ob' = ob
                         /\ or' = Datatypes.S or)).
      { destruct (best_states !! ob), (random_states !! or), (_ <? num_good);
          simplify_eq; auto. }
      assert (Hmem : state ∈ best_states ++ random_states).
      { apply elem_of_app.
        destruct Hsrc as [(Hb & _)|(Hr & _)];
          [left | right]; eapply list_elem_of_lookup_2; eauto. }
      assert (Hrest : forall s,
                 s ∈ drop ob best_states ++ drop or random_states ->
                 s = state \/ s ∈ drop ob' best_states ++ drop or' random_states).
      { intros s Hs. destruct Hsrc as [(Hb & -> & ->)|(Hr & -> & ->)].
        - rewrite (drop_S _ _ _ Hb) in Hs.
          apply elem_of_cons in Hs as [->|Hs]; auto.
        - rewrite (drop_S _ _ _ Hr) in Hs.
          apply elem_of_app in Hs as [Hs|Hs].
          + right. apply elem_of_app. auto.
          + apply elem_of_cons in Hs as [->|Hs]; [auto|].
            right. apply elem_of_app. auto. }
      destruct (bool_decide (ToStr state ∈ measured_states_set_ p)) eqn:Hin.
      * apply bool_decide_eq_true in Hin.
        apply IH in Hl as (Hlen & Hnew & Hall).
        split; [exact Hlen|]. split; [exact Hnew|].
        intros _ Heq s Hs. destruct (Hrest s Hs) as [->|Hs']; [exact Hin|].
        apply Hall; auto.
      * apply IH in Hl as (Hlen & (new & -> & Hnew) & _).
        rewrite !length_app in *. simpl in *.
        split; [lia|]. split.
        { exists (mkMeasureInput (search_task p) state :: new).
          split; [by rewrite <- app_assoc|]. constructor; [exact Hmem | exact Hnew]. }
        intros _ Heq. apply (f_equal length) in Heq.
        rewrite !length_app in Heq. simpl in Heq. lia.
    + injection Hl as <- <-. split; [lia|]. split.
      { exists []. by rewrite app_nil_r. }
      intros _ _ s Hs.
      assert (Hb : best_states !! ob = None /\ random_states !! or = None).
      { destruct (best_states !! ob), (random_states !! or), (_ <? num_good);
          simplify_eq; auto. }
      destruct Hb as [Hb Hr].
      apply lookup_ge_None in Hb, Hr.
      rewrite (drop_ge _ _ Hb), (drop_ge _ _ Hr) in Hs. inversion Hs.
Qed.

(** X1: what [PickStatesWithEpsGreedy] returns is at most
    [min(num_measure_per_iter_, remaining_n_trials)] inputs (none when that is
    not positive), each wrapping the policy's task and a state taken from
    [best_states] or [random_states]; [measured_states_vector_] grows by exactly
    the returned states, in order, and nothing of the policy object changes
    but the two records of measured states. *)
Theorem PickStatesWithEpsGreedy_bounded (policy : Policy)
        (best_states random_states : list State) (remaining_n_trials : Z)
        (inputs : list MeasureInput) (policy' : Policy) :
  PickStatesWithEpsGreedy policy best_states random_states remaining_n_trials
  = Ok (inputs, policy') ->
  Z.of_nat (length inputs)
  <= Z.max 0 (Z.min (num_measure_per_iter_ policy) remaining_n_trials)
  /\ Forall (fun mi => mi_task mi = search_task policy
                       /\ mi_state mi ∈ best_states ++ random_states) inputs
  /\ measured_states_vector_ policy'
     = measured_states_vector_ policy ++ (mi_state <$> inputs)
  /\ policy_frame_but_measured policy policy'.
Proof.
  unfold PickStatesWithEpsGreedy. intros Hp.
  pose proof (pick_loop_candidates _ _ _ _ _ _ _ _ _ _ _ Hp)
    as (Hlen & (new & Hnew & Hfrom) & _).
  apply pick_loop_spec in Hp as (new' & Hnew' & _ & _ & _ & Hvec & Htask & Hframe).
  simpl in *. subst new new'. split; [exact Hlen|].
  split; [|split; [exact Hvec | exact Hframe]].
  apply Forall_forall. intros mi Hmi.
  rewrite Forall_forall in Hfrom, Htask. auto.
Qed.

(** X2: [PickStatesWithEpsGreedy] returns no input exactly when its budget
    [min(num_measure_per_iter_, remaining_n_trials)] is not positive or every
    state of [best_states] and [random_states] has its canonical string in
    [measured_states_set_] already (the search space is exhausted); in that
    case the policy object is left as it is. *)
Theorem PickStatesWithEpsGreedy_empty_iff (policy : Policy)
        (best_states random_states : list State) (remaining_n_trials : Z)
        (inputs : list MeasureInput) (policy' : Policy) :
  PickStatesWithEpsGreedy policy best_states random_states remaining_n_trials
  = Ok (inputs, policy') ->
  (inputs = [] <->
   Z.min (num_measure_per_iter_ policy) remaining_n_trials <= 0
   \/ forall s, s ∈ best_states ++ random_states ->
                ToStr s ∈ measured_states_set_ policy)
  /\ (inputs = [] ->
      measured_states_set_ policy' = measured_states_set_ policy
      /\ measured_states_vector_ policy' = measured_states_vector_ policy).
Proof.
  unfold PickStatesWithEpsGreedy. intros Hp.
  pose proof (pick_loop_candidates _ _ _ _ _ _ _ _ _ _ _ Hp)
    as (Hlen & (new & Hnew & Hfrom) & Hexh).
  apply pick_loop_spec in Hp as (new' & Hnew' & _ & Hfresh & Hset & Hvec & _).
  simpl in *. subst new new'. split; [split|].
  - intros ->.
    destruct (Z.le_gt_cases (Z.min (num_measure_per_iter_ policy) remaining_n_trials) 0)
      as [Hle|Hgt]; [by left | right].
    intros s Hs. apply Hexh; [lia | done | done].
  - intros [Hle|Hall].
    + apply nil_length_inv. lia.
    + destruct inputs as [|mi rest]; [done|]. exfalso.
      apply (Hfresh (ToStr (mi_state mi))); [left|].
      apply Hall. by inversion Hfrom.
  - intros ->. simpl in *. rewrite Hset, Hvec, app_nil_r.
    split; [by rewrite (left_id_L ∅ (∪)) | done].
Qed.

End PickMore.

Lemma PickStatesWithEpsGreedy_bounded_witness :
  exists inputs policy',
    PickStatesWithEpsGreedy (H := Demo.externals)
      (set_num_measure_per_iter Demo.reduce_policy 4)
      [Demo.reduce_state; Demo.tagged_state; Demo.reduce_state]
      [Demo.tagged_state] 3 = Ok (inputs, policy')
    /\ Z.of_nat (length inputs) <= 3
    /\ measured_states_vector_ policy' = mi_state <$> inputs.
Proof.
  assert (Hp : exists r,
             PickStatesWithEpsGreedy (H := Demo.externals)
               (set_num_measure_per_iter Demo.reduce_policy 4)
               [Demo.reduce_state; Demo.tagged_state; Demo.reduce_state]
               [Demo.tagged_state] 3 = Ok r).
  { eexists. vm_compute. reflexivity. }
  destruct Hp as ([inputs p'] & Hp).
  destruct (PickStatesWithEpsGreedy_bounded (H := Demo.externals) _ _ _ _ _ _ Hp)
    as (Hlen & _ & Hvec & _).
  exists inputs, p'. split; [exact Hp|]. split; [exact Hlen | exact Hvec].
Defined.

Lemma PickStatesWithEpsGreedy_empty_iff_witness :
  exists policy',
    PickStatesWithEpsGreedy (H := Demo.externals) DemoMore.seen_policy
      [Demo.tagged_state] [Demo.tagged_state] 5 = Ok ([], policy')
    /\ (Z.min (num_measure_per_iter_ DemoMore.seen_policy) 5 <= 0
        \/ forall s, s ∈ [Demo.tagged_state] ++ [Demo.tagged_state] ->
                     ToStr (Externals := Demo.externals) s
                     ∈ measured_states_set_ DemoMore.seen_policy).
Proof.
  assert (Hp : exists p',
             PickStatesWithEpsGreedy (H := Demo.externals) DemoMore.seen_policy
               [Demo.tagged_state] [Demo.tagged_state] 5 = Ok ([], p')).
  { eexists. vm_compute. reflexivity. }
  destruct Hp as (p' & Hp).
  destruct (PickStatesWithEpsGreedy_empty_iff (H := Demo.externals) _ _ _ _ _ _ Hp)
    as [[Hex _] _].
  exists p'. split; [exact Hp | exact (Hex eq_refl)].
Defined.

(** ** The measuring loop of Search *)

Section SearchLoop.
Context `{Externals}.

Lemma PickStatesWithEpsGreedy_spec_frame (policy : Policy)
      (best_states random_states : list State) (remaining_n_trials : Z)
      (inputs : list MeasureInput) (policy' : Policy) :
  PickStatesWithEpsGreedy policy best_states random_states remaining_n_trials
  = Ok (inputs, policy') ->
  search_task policy' = search_task policy
  /\ schedule_cost_model policy' = schedule_cost_model policy
  /\ params policy' = params policy
  /\ num_measure_per_iter_ policy' = num_measure_per_iter_ policy.
Proof.
  unfold PickStatesWithEpsGreedy. intros Hp.
  apply pick_loop_spec in Hp as (new & _ & _ & _ & _ & _ & _ & Hf).
  unfold policy_frame_but_measured in Hf. tauto.
Qed.

Lemma push_throughputs_keep (results : list MeasureResult) (p : Policy) :
  let p' := foldl (fun p res => push_throughput p (inverse_mean (costs res))) p results in
  search_task p' = search_task p
  /\ num_measure_per_iter_ p' = num_measure_per_iter_ p
  /\ params p' = params p
  /\ schedule_cost_model p' = schedule_cost_model p.
Proof.
  cbv zeta. revert p. induction results as [|res rest IH]; intros p; simpl; [done|].
  destruct (IH (push_throughput p (inverse_mean (costs res)))) as (-> & -> & -> & ->).
  done.
Qed.

Lemma search_loop_protocol (budget fuel : nat)
      (n_trials early_stopping num_random ct : Z) (inputs : list MeasureInput)
      (results : list MeasureResult) (policy : Policy) (measurer : ProgramMeasurer)
      (policy' : Policy) (measurer' : ProgramMeasurer) :
  search_loop budget fuel n_trials early_stopping num_random ct inputs results
              policy measurer = Ok (policy', measurer') ->
  exists batches fed,
    calls measurer' = calls measurer ++ (CallMeasure (search_task policy) <$> batches)
    /\ Forall (fun b => b <> []
                        /\ Z.of_nat (length b) <= num_measure_per_iter_ policy) batches
    /\ (ct <= n_trials -> ct + Z.of_nat (length (concat batches)) <= n_trials)
    /\ same_search policy policy'
    /\ updates (schedule_cost_model policy')
       = updates (schedule_cost_model policy) ++ fed
    /\ (let pending := if decide (inputs = []) then [] else [inputs] in
        fed.*1 `prefix_of` pending ++ batches
        /\ (length (pending ++ batches) <= length fed + 1)%nat).
Proof.
  assert (Hstop : forall p m,
    exists batches fed,
      calls m = calls m ++ (CallMeasure (search_task p) <$> batches)
      /\ Forall (fun b => b <> []
                          /\ Z.of_nat (length b) <= num_measure_per_iter_ p) batches
      /\ (ct <= n_trials -> ct + Z.of_nat (length (concat batches)) <= n_trials)
      /\ same_search p p
      /\ updates (schedule_cost_model p) = updates (schedule_cost_model p) ++ fed
      /\ (let pending := if decide (inputs = []) then [] else [inputs] in
          fed.*1 `prefix_of` pending ++ batches
          /\ (length (pending ++ batches) <= length fed + 1)%nat)).
  { intros p m. exists [], []. simpl. rewrite !app_nil_r.
    split; [done|]. split; [constructor|]. split; [lia|].
    split; [unfold same_search; tauto|]. split; [done|].
    split; [apply prefix_nil|]. destruct (decide (inputs = [])); simpl; lia. }
  revert ct inputs results policy measurer Hstop.
  induction budget as [|budget IH]; intros ct inputs results p m Hstop Hl;
    simpl in Hl.
  - destruct (ct <? n_trials); [discriminate|]. injection Hl as <- <-. apply Hstop.
  - destruct (Z.ltb_spec ct n_trials) as [Hct|Hct];
      [|injection Hl as <- <-; apply Hstop].
    clear Hstop.
    set (p0 := if decide (inputs = []) then p else _) in Hl.
    set (pending := if decide (inputs = []) then [] else [inputs]).
    assert (Hp0 : same_search p p0
                  /\ updates (schedule_cost_model p0)
                     = updates (schedule_cost_model p)
                       ++ ((fun i => (i, results)) <$> pending)).
    { unfold p0, pending, same_search.
      destruct (decide (inputs = [])); simpl; [by rewrite app_nil_r|]. done. }
    destruct Hp0 as ((Ht0 & Hn0 & Hpar0 & Hr0) & Hu0).
    apply bind_Ok in Hl as ([[best random] p1] & Hround & Hl).
    apply SearchOneRound_frame in Hround as ((Ht1 & Hc1 & Hpar1 & _ & _ & _ & _ & Hn1) & _).
    apply bind_Ok in Hl as (best' & _ & Hl).
    apply bind_Ok in Hl as (random' & _ & Hl).
    apply bind_Ok in Hl as ([new_inputs p2] & Hpick & Hl).
    pose proof Hpick as Hpick'. unfold PickStatesWithEpsGreedy in Hpick'.
    apply pick_loop_candidates in Hpick' as (Hlen & _ & _). simpl in Hlen.
    apply PickStatesWithEpsGreedy_spec_frame in Hpick as (Ht2 & Hc2 & Hpar2 & Hn2).
    assert (Hs2 : same_search p p2
                  /\ updates (schedule_cost_model p2)
                     = updates (schedule_cost_model p)
                       ++ ((fun i => (i, results)) <$> pending)).
    { unfold same_search. rewrite Ht2, Hn2, Hpar2, Hc2, Ht1, Hn1, Hpar1, Hc1. auto. }
    destruct Hs2 as (Hs2 & Hu2).
    assert (Hfed : ((fun i => (i, results)) <$> pending).*1 = pending).
    { unfold pending. by destruct (decide (inputs = [])). }
    destruct (decide (new_inputs = [])) as [->|Hne].
    + injection Hl as <- <-.
      exists [], ((fun i => (i, results)) <$> pending). simpl. rewrite !app_nil_r.
      split; [done|]. split; [constructor|]. split; [lia|].
      split; [exact Hs2|]. split; [exact Hu2|].
      fold pending. rewrite Hfed, length_fmap. split; [done | lia].
    + assert (Hb : new_inputs <> []
                   /\ Z.of_nat (length new_inputs) <= num_measure_per_iter_ p
                   /\ ct + Z.of_nat (length new_inputs) <= n_trials).
      { split; [done|].
        assert (0 < Z.of_nat (length new_inputs)).
        { destruct new_inputs; [done | simpl; lia]. }
        rewrite Hn1 in Hlen.
        replace (num_measure_per_iter_ p0) with (num_measure_per_iter_ p) in Hlen
          by (by rewrite Hn0).
        lia. }
      destruct Hb as (_ & Hbn & Hbt).
      simpl in Hl.
      match type of Hl with
      | (if ?c then _ else _) = _ => destruct c
      end.
      * injection Hl as <- <-.
        exists [new_inputs], ((fun i => (i, results)) <$> pending). simpl.
        rewrite app_nil_r.
        replace (search_task p2) with (search_task p) by (symmetry; apply Hs2).
        split; [done|]. split; [constructor; [done | constructor]|].
        split; [lia|]. split; [exact Hs2|]. split; [exact Hu2|].
        fold pending. rewrite Hfed, length_fmap, length_app. simpl.
        split; [by apply prefix_app_r | lia].
      * apply IH in Hl.
        2:{ intros p' m'. exists [], []. simpl. rewrite !app_nil_r.
            split; [done|]. split; [constructor|]. split; [lia|].
            split; [unfold same_search; tauto|]. split; [done|].
            split; [apply prefix_nil|].
            destruct (decide (new_inputs = [])); simpl; lia. }
        destruct Hl as (batches & fed & Hcalls & Hall & Hsum & Hs3 & Hu3 & Hpre & Hlenf).
        destruct (decide (new_inputs = [])); [done|].
        pose proof (push_throughputs_keep
                      (Measure_results m (search_task p2) new_inputs) p2)
          as (Htk & Hnk & Hpk & Hck).
        cbv zeta in Htk, Hnk, Hpk, Hck.
        rewrite Htk in Hcalls. rewrite Hnk in Hall. rewrite Hck in Hu3.
        simpl in Hcalls.
        replace (search_task p2) with (search_task p) in Hcalls
          by (symmetry; apply Hs2).
        replace (num_measure_per_iter_ p2) with (num_measure_per_iter_ p) in Hall
          by (symmetry; apply Hs2).
        exists (new_inputs :: batches), (((fun i => (i, results)) <$> pending) ++ fed).
        split; [rewrite Hcalls, <- app_assoc; done|].
        split; [constructor; [done | exact Hall]|].
        split.
        { intros _. simpl. rewrite length_app.
          specialize (Hsum ltac:(lia)). lia. }
        split.
        { destruct Hs3 as (H1 & H2 & H3 & H4). destruct Hs2 as (G1 & G2 & G3 & G4).
          unfold same_search.
          rewrite H1, H2, H3, H4, Htk, Hnk, Hpk, Hck. auto. }
        split; [rewrite Hu3, Hu2, <- app_assoc; done|].
        fold pending. rewrite fmap_app, Hfed, !length_app, length_fmap.
        simpl in Hpre, Hlenf. split.
        { apply prefix_app. exact Hpre. }
        rewrite length_app. simpl. lia.
Qed.

Lemma nonempty_batches_count {A} (batches : list (list A)) :
  Forall (fun b => b <> []) batches -> (length batches <= length (concat batches))%nat.
Proof.
  induction 1 as [|b rest Hb _ IH]; simpl; [lia|].
  rewrite length_app. destruct b; [done | simpl; lia].
Qed.

(** X3: a [Search] with [n_trials > 1] that returns has called the measurer
    like this: [Reset] once, first, then only [Measure], each time for the
    policy's task with a non-empty batch of at most [num_measure_per_iter]
    inputs; all batches together hold at most [n_trials] inputs (so there are at
    most [n_trials] calls); the state returned is the measurer's [best_state]
    for the task's workload key after the last call. *)
Theorem Search_measurer_protocol (fuel : nat) (policy : Policy)
        (n_trials early_stopping num_measure_per_iter : Z)
        (measurer : ProgramMeasurer) (state : State) (policy' : Policy)
        (measurer' : ProgramMeasurer) :
  1 < n_trials ->
  Search fuel policy n_trials early_stopping num_measure_per_iter measurer
  = Ok (state, policy', measurer') ->
  exists batches,
    calls measurer'
    = calls measurer ++ CallReset :: (CallMeasure (search_task policy) <$> batches)
    /\ Forall (fun b => b <> []
                        /\ Z.of_nat (length b) <= num_measure_per_iter) batches
    /\ Z.of_nat (length (concat batches)) <= n_trials
    /\ Z.of_nat (length batches) <= n_trials
    /\ state = best_state measurer' (workload_key (search_task policy))
    /\ num_measure_per_iter_ policy' = num_measure_per_iter.
Proof.
  intros Hn. unfold Search. destruct (Z.leb_spec n_trials 1); [lia|].
  intros Hs. apply bind_Ok in Hs as ([p1 m1] & Hl & Hs). injection Hs as <- <- <-.
  apply search_loop_protocol in Hl
    as (batches & fed & Hcalls & Hall & Hsum & (Ht & Hnm & _) & _).
  simpl in *. exists batches.
  split; [by rewrite Hcalls, <- app_assoc|]. split; [exact Hall|].
  specialize (Hsum ltac:(lia)).
  split; [lia|]. split.
  { assert (length batches <= length (concat batches))%nat; [|lia].
    apply nonempty_batches_count. eapply Forall_impl; [exact Hall|]. by intros b [? _]. }
  by rewrite Ht, Hnm.
Qed.

(** X4: over a [Search] with [n_trials > 1] the cost model keeps its dynamic
    type and is updated only with batches that were measured before, in the
    order of measurement, each at most once and none skipped: the inputs of the
    new updates are the measured batches but possibly the last one. *)
Theorem Search_feeds_measured_batches (fuel : nat) (policy : Policy)
        (n_trials early_stopping num_measure_per_iter : Z)
        (measurer : ProgramMeasurer) (state : State) (policy' : Policy)
        (measurer' : ProgramMeasurer) :
  1 < n_trials ->
  Search fuel policy n_trials early_stopping num_measure_per_iter measurer
  = Ok (state, policy', measurer') ->
  is_RandomModelNode (schedule_cost_model policy')
  = is_RandomModelNode (schedule_cost_model policy)
  /\ exists fed,
       updates (schedule_cost_model policy')
       = updates (schedule_cost_model policy) ++ fed
       /\ fed.*1 `prefix_of`
            measure_batches (drop (length (calls measurer)) (calls measurer'))
       /\ (length (measure_batches (drop (length (calls measurer)) (calls measurer')))
           <= length fed + 1)%nat.
Proof.
  intros Hn. unfold Search. destruct (Z.leb_spec n_trials 1); [lia|].
  intros Hs. apply bind_Ok in Hs as ([p1 m1] & Hl & Hs). injection Hs as <- <- <-.
  apply search_loop_protocol in Hl
    as (batches & fed & Hcalls & _ & _ & (_ & _ & _ & Hty) & Hup & Hpre & Hlen).
  simpl in *. split; [exact Hty|]. exists fed. split; [exact Hup|].
  assert (Hb : measure_batches (drop (length (calls measurer)) (calls m1)) = batches).
  { rewrite Hcalls, <- app_assoc, drop_app_length. simpl.
    unfold measure_batches. simpl. clear. induction batches as [|b rest IH]; [done|].
    rewrite fmap_cons. simpl. f_equal. exact IH. }
  rewrite Hb. split; [exact Hpre | exact Hlen].
Qed.

End SearchLoop.

Lemma Search_measurer_protocol_witness :
  exists state policy' measurer' batches,
    Search (H := Demo.externals) 10 Demo.reduce_policy 5 (-1) 2 Demo.fresh_measurer
    = Ok (state, policy', measurer')
    /\ calls measurer'
       = CallReset :: (CallMeasure (search_task Demo.reduce_policy) <$> batches)
    /\ Z.of_nat (length (concat batches)) <= 5.
Proof.
  assert (Hs : exists r,
             Search (H := Demo.externals) 10 Demo.reduce_policy 5 (-1) 2
                    Demo.fresh_measurer = Ok r).
  { eexists. vm_compute. reflexivity. }
  destruct Hs as ([[state p'] m'] & Hs).
  destruct (Search_measurer_protocol (H := Demo.externals) 10 Demo.reduce_policy
              5 (-1) 2 Demo.fresh_measurer state p' m' ltac:(lia) Hs)
    as (batches & Hc & _ & Hsum & _).
  exists state, p', m', batches. split; [exact Hs|]. split; [exact Hc | exact Hsum].
Defined.

Lemma Search_feeds_measured_batches_witness :
  exists state policy' measurer',
    Search (H := Demo.externals) 10 Demo.reduce_policy 5 (-1) 2 Demo.fresh_measurer
    = Ok (state, policy', measurer')
    /\ is_RandomModelNode (schedule_cost_model policy')
       = is_RandomModelNode (schedule_cost_model Demo.reduce_policy).
Proof.
  assert (Hs : exists r,
             Search (H := Demo.externals) 10 Demo.reduce_policy 5 (-1) 2
                    Demo.fresh_measurer = Ok r).
  { eexists. vm_compute. reflexivity. }
  destruct Hs as ([[state p'] m'] & Hs).
  destruct (Search_feeds_measured_batches (H := Demo.externals) 10
              Demo.reduce_policy 5 (-1) 2 Demo.fresh_measurer state p' m'
              ltac:(lia) Hs) as (Hty & _).
  exists state, p', m'. split; [exact Hs | exact Hty].
Defined.

(** ** The rfactor pass of [GenerateSketches] *)

Lemma is_RfactorStep_unset_lengths (step : Step) :
  is_RfactorStep (unset_lengths step) = is_RfactorStep step.
Proof. by destruct step. Qed.

Lemma rfactor_pass_state_start (steps0 : list Step) :
  rfactor_pass_state steps0 0 steps0.
Proof. split; [done|]. intros i step Hi. by rewrite Hi. Qed.

Lemma rfactor_pass_state_here (steps0 cur : list Step) (k : nat) :
  rfactor_pass_state steps0 k cur ->
  cur !! k = steps0 !! k
  /\ ((1 <= k)%nat -> cur !! (k - 1)%nat = steps0 !! (k - 1)%nat).
Proof.
  intros [Hlen Hst]. split.
  - destruct (steps0 !! k) as [step|] eqn:Hk.
    + rewrite (Hst _ _ Hk).
      destruct (Nat.ltb_spec (Datatypes.S k) k); [lia | done].
    + apply lookup_ge_None in Hk. apply lookup_ge_None. lia.
  - intros Hk1. destruct (steps0 !! (k - 1)%nat) as [step|] eqn:Hk.
    + rewrite (Hst _ _ Hk).
      destruct (Nat.ltb_spec (Datatypes.S (k - 1)) k); [lia | done].
    + apply lookup_ge_None in Hk. apply lookup_ge_None. lia.
Qed.

(** One iteration of the pass: it aborts exactly at an [RfactorStep] that is
    first or does not follow a split. *)
Lemma unset_rfactor_split_exact (steps0 cur : list Step) (k : nat) (step : Step) :
  rfactor_pass_state steps0 k cur ->
  steps0 !! k = Some step ->
  (is_RfactorStep step = false ->
   unset_rfactor_split k cur = Ok cur)
  /\ (is_RfactorStep step = true ->
      match k, steps0 !! (k - 1)%nat with
      | Datatypes.S _, Some (SplitStep stage_id iter_id extent _ inner_to_outer) =>
          unset_rfactor_split k cur
          = Ok (<[(k - 1)%nat :=
                    SplitStep stage_id iter_id extent [None] inner_to_outer]> cur)
      | _, _ => unset_rfactor_split k cur = Fatal
      end)
  /\ forall cur', unset_rfactor_split k cur = Ok cur' ->
                  rfactor_pass_state steps0 (Datatypes.S k) cur'.
Proof.
  intros Hst Hk. destruct (rfactor_pass_state_here _ _ _ Hst) as [Hhere Hprev].
  unfold unset_rfactor_split. rewrite Hhere, Hk.
  destruct (is_RfactorStep step) eqn:Hrf.
  - split; [discriminate|].
    destruct k as [|k']; simpl.
    { split; [done|]. discriminate. }
    specialize (Hprev ltac:(lia)). simpl in Hprev.
    rewrite Nat.sub_0_r in *. rewrite Hprev.
    destruct (steps0 !! k') as [prev|] eqn:Hp; [|split; [done | discriminate]].
    destruct prev as [sid iid ext lens ito| | | | | | | | | | |];
      try (split; [done | discriminate]).
    split; [done|]. intros cur' [= <-].
    destruct Hst as [Hlen Hall]. split; [by rewrite length_insert|].
    intros i st Hi.
    destruct (decide (i = k')) as [->|Hne].
    + rewrite list_lookup_insert_eq by (rewrite Hlen; by apply lookup_lt_Some in Hi).
      rewrite Hp in Hi. injection Hi as <-.
      destruct (Nat.ltb_spec (Datatypes.S k') (Datatypes.S (Datatypes.S k'))); [|lia].
      unfold before_rfactor. rewrite Hk, Hrf. done.
    + rewrite list_lookup_insert_ne by done. rewrite (Hall _ _ Hi).
      destruct (Nat.ltb_spec (Datatypes.S i) (Datatypes.S k')),
        (Nat.ltb_spec (Datatypes.S i) (Datatypes.S (Datatypes.S k')));
        try done; lia.
  - split; [done|]. split; [discriminate|]. intros cur' [= <-].
    destruct Hst as [Hlen Hall]. split; [done|].
    intros i st Hi. rewrite (Hall _ _ Hi).
    destruct (Nat.ltb_spec (Datatypes.S i) k),
      (Nat.ltb_spec (Datatypes.S i) (Datatypes.S k)); try done; try lia.
    assert (Datatypes.S i = k) as <- by lia.
    unfold before_rfactor. rewrite Hk, Hrf. done.
Qed.

Lemma rfactor_pass_exact (steps0 : list Step) (todo k : nat) (cur : list Step) :
  (k + todo = length steps0)%nat ->
  rfactor_pass_state steps0 k cur ->
  (forall cur', rfactor_pass todo k cur = Ok cur' ->
                rfactor_pass_state steps0 (length steps0) cur')
  /\ rfactor_pass todo k cur <> OutOfFuel
  /\ ((exists cur', rfactor_pass todo k cur = Ok cur') <->
      forall i step, (k <= i)%nat -> steps0 !! i = Some step ->
                     is_RfactorStep step = true ->
                     (1 <= i)%nat
                     /\ exists prev, steps0 !! (i - 1)%nat = Some prev
                                     /\ is_SplitStep prev = true).
Proof.
  revert k cur. induction todo as [|todo IH]; intros k cur Hk Hst; simpl.
  - rewrite Nat.add_0_r in Hk. subst k. split; [by intros cur' [= <-]|].
    split; [done|]. split; [|eauto].
    intros _ i step Hi Hs. apply lookup_lt_Some in Hs. lia.
  - destruct (lookup_lt_is_Some_2 steps0 k ltac:(lia)) as [step Hstep].
    destruct (unset_rfactor_split_exact _ _ _ _ Hst Hstep) as (Hno & Hyes & Hnext).
    destruct (unset_rfactor_split k cur) as [cur1| |] eqn:Hu; simpl.
    + specialize (Hnext _ eq_refl).
      destruct (IH (Datatypes.S k) cur1 ltac:(lia) Hnext) as (Hfin & Hfuel & Hiff).
      split; [exact Hfin|]. split; [exact Hfuel|].
      rewrite Hiff. split.
      * intros Hall i st Hi Hs Hr.
        destruct (decide (i = k)) as [->|Hne]; [|apply (Hall i st); [lia|done|done]].
        rewrite Hstep in Hs. injection Hs as <-.
        specialize (Hyes Hr). destruct k as [|k']; [discriminate|].
        simpl in *. rewrite Nat.sub_0_r in *.
        destruct (steps0 !! k') as [prev|]; [|discriminate].
        split; [lia|]. exists prev. split; [done|].
        by destruct prev.
      * intros Hall i st Hi. apply Hall. lia.
    + split; [discriminate|]. split; [discriminate|]. split; [by intros [? [=]]|].
      intros Hall. exfalso.
      destruct (is_RfactorStep step) eqn:Hr; [|by specialize (Hno eq_refl)].
      specialize (Hyes eq_refl).
      destruct (Hall k step (le_n _) Hstep Hr) as (Hk1 & prev & Hp & Hsp).
      destruct k as [|k']; [lia|]. rewrite Hp in Hyes.
      destruct prev; discriminate.
    + exfalso. destruct (is_RfactorStep step) eqn:Hr; [|by specialize (Hno eq_refl)].
      specialize (Hyes eq_refl). destruct k as [|k']; [discriminate|].
      destruct (steps0 !! (Datatypes.S k' - 1)%nat) as [[]|]; discriminate.
Qed.

(** A history without [RfactorStep] passes unchanged. *)
Lemma rfactor_pass_no_rfactor (steps : list Step) (todo k : nat) :
  Forall (fun step => is_RfactorStep step = false) steps ->
  (k + todo <= length steps)%nat ->
  rfactor_pass todo k steps = Ok steps.
Proof.
  intros Hno. revert k. induction todo as [|todo IH]; intros k Hk; simpl; [done|].
  destruct (lookup_lt_is_Some_2 steps k ltac:(lia)) as [step Hstep].
  unfold unset_rfactor_split. rewrite Hstep.
  rewrite Forall_forall in Hno.
  rewrite (Hno step (list_elem_of_lookup_2 _ _ _ Hstep)). simpl.
  apply IH. lia.
Qed.

Lemma rfactor_hack_no_rfactor (state : State) :
  Forall (fun step => is_RfactorStep step = false) (transform_steps state) ->
  rfactor_hack state = Ok state.
Proof.
  intros Hno. unfold rfactor_hack.
  rewrite (rfactor_pass_no_rfactor _ _ _ Hno) by (simpl; lia). simpl.
  by destruct state.
Qed.

(** X5: the rfactor pass at the end of [GenerateSketches], on one state.  It
    returns exactly when every [RfactorStep] of the history comes directly
    after a [SplitStep], and aborts otherwise.  When it returns, the history
    has the same number of steps; a step directly before an [RfactorStep] is
    the same split with the single undefined length, every other step is
    kept, and nothing but the history changes.  A state without
    [RfactorStep] is returned as it is. *)
Theorem rfactor_hack_exact (state : State) :
  let steps := transform_steps state in
  ((exists state', rfactor_hack state = Ok state') <-> rfactor_after_split steps)
  /\ (~ rfactor_after_split steps -> rfactor_hack state = Fatal)
  /\ (forall state', rfactor_hack state = Ok state' ->
        state' = set_transform_steps state (transform_steps state')
        /\ length (transform_steps state') = length steps
        /\ forall i step, steps !! i = Some step ->
             transform_steps state' !! i
             = Some (if before_rfactor steps i then unset_lengths step else step))
  /\ (Forall (fun step => is_RfactorStep step = false) steps ->
      rfactor_hack state = Ok state).
Proof.
  cbv zeta.
  destruct (rfactor_pass_exact (transform_steps state)
              (length (transform_steps state)) 0 (transform_steps state) eq_refl
              (rfactor_pass_state_start _)) as (Hfin & Hfuel & Hiff).
  assert (Hwf : (exists state', rfactor_hack state = Ok state')
                <-> rfactor_after_split (transform_steps state)).
  { unfold rfactor_hack, rfactor_after_split. split.
    - intros [state' Hh]. apply bind_Ok in Hh as (steps' & Hp & _).
      intros i step. apply (proj1 Hiff (ex_intro _ _ Hp)). lia.
    - intros Hall. destruct (proj2 Hiff) as [cur' Hp]; [intros; by eapply Hall|].
      rewrite Hp. simpl. eauto. }
  assert (Hret : forall state', rfactor_hack state = Ok state' ->
            state' = set_transform_steps state (transform_steps state')
            /\ length (transform_steps state') = length (transform_steps state)
            /\ forall i step, transform_steps state !! i = Some step ->
                 transform_steps state' !! i
                 = Some (if before_rfactor (transform_steps state) i
                         then unset_lengths step else step)).
  { intros state' Hh. unfold rfactor_hack in Hh.
    apply bind_Ok in Hh as (steps' & Hp & Hh). injection Hh as <-.
    destruct (Hfin _ Hp) as [Hlen Hall]. simpl.
    split; [done|]. split; [done|].
    intros i step Hi. rewrite (Hall _ _ Hi).
    destruct (Nat.ltb_spec (Datatypes.S i) (length (transform_steps state)));
      [done|].
    unfold before_rfactor. rewrite (proj2 (lookup_ge_None _ _)) by lia.
    by rewrite andb_false_r. }
  split; [exact Hwf|]. split; [|split; [exact Hret|]].
  - intros Hn. unfold rfactor_hack in *.
    destruct (rfactor_pass _ 0 _) as [s'| |] eqn:Hp; simpl;
      [exfalso; apply Hn, Hwf; simpl; eauto | done | by destruct Hfuel].
  - apply rfactor_hack_no_rfactor.
Qed.


(** ** The rule loop of [GenerateSketches] with the constructor's rules *)

Section DefaultRules.
Context `{Externals}.

(** A stage to inline: [RuleAlwaysInline] comes first and skips the rest. *)
Lemma try_rules_inline (policy : Policy) (t : Z) (state : State) (stage_id : Z) :
  ShouldAlwaysBeInlined policy state stage_id = Ok true ->
  try_rules policy (default_sketch_rules t) state stage_id
  = (tmp_s ← State_compute_inline state stage_id;
     Ok ([(tmp_s, stage_id - 1)], default_sketch_rules t)).
Proof.
  intros Hi. unfold default_sketch_rules. simpl.
  unfold RuleAlwaysInline_MeetCondition, RuleAlwaysInline_Apply. rewrite Hi. simpl.
  unfold RuleAlwaysInline_Apply.
  by destruct (State_compute_inline state stage_id).
Qed.

(** A stage on which no rule but [RuleSkipStage] meets its condition. *)
Lemma try_rules_only_skip (policy : Policy) (t : Z) (state : State) (stage_id : Z) :
  ShouldAlwaysBeInlined policy state stage_id = Ok false ->
  NeedsRfactor (search_task policy) state stage_id = false ->
  NeedsMultilevelTiling (search_task policy) state stage_id = false ->
  try_rules policy (default_sketch_rules t) state stage_id
  = Ok ([(state, stage_id - 1)], default_sketch_rules t).
Proof.
  intros Hi Hr Hm. unfold default_sketch_rules. simpl.
  unfold RuleAlwaysInline_MeetCondition, RuleAddRfactor_MeetCondition,
    RuleAddCacheWrite_MeetCondition, RuleMultiLevelTilingWithFusion_MeetCondition,
    RuleMultiLevelTiling_MeetCondition, RuleSkipStage_MeetCondition,
    RuleSkipStage_Apply.
  rewrite Hi, Hr, Hm. simpl.
  by destruct (HasAttrsFlag state stage_id no_cache_write).
Qed.

(** X6: the rule loop of [GenerateSketches] for one state, with the rules in
    the order of the constructor.  If the stage should be inlined, the only
    successor is the state with the stage inlined, at the stage before.
    Otherwise the state itself, at the stage before, is the last successor
    (the stage can always be left as it is), unless the stage is tiled and
    fused after a cache write ([RuleMultiLevelTilingWithFusion] answers
    apply-and-skip-rest); and it is the only successor when the stage needs
    neither multi-level tiling nor rfactor.  The rule objects stay in their
    order; only the member of the fusion rule may change. *)
Theorem try_rules_default_order (policy : Policy) (t : Z) (state : State)
        (stage_id : Z) (pairs : list (State * Z))
        (rules' : list SketchGenerationRule) :
  try_rules policy (default_sketch_rules t) state stage_id = Ok (pairs, rules') ->
  let task := search_task policy in
  exists inline,
    ShouldAlwaysBeInlined policy state stage_id = Ok inline
    /\ (inline = true ->
        exists tmp_s, State_compute_inline state stage_id = Ok tmp_s
                      /\ pairs = [(tmp_s, stage_id - 1)]
                      /\ rules' = default_sketch_rules t)
    /\ (inline = false ->
        (exists t', rules' = default_sketch_rules t')
        /\ (NeedsMultilevelTiling task state stage_id
            && (HasSingleElementwiseMatchedConsumer task state stage_id).1
            && HasCacheWriteStage state stage_id = false ->
            last pairs = Some (state, stage_id - 1))
        /\ (NeedsMultilevelTiling task state stage_id = false ->
            NeedsRfactor task state stage_id = false ->
            pairs = [(state, stage_id - 1)] /\ rules' = default_sketch_rules t)).
Proof.
  intros Ht. cbv zeta.
  destruct (ShouldAlwaysBeInlined policy state stage_id) as [inline| |] eqn:Hi.
  2,3: unfold default_sketch_rules in Ht; simpl in Ht;
       unfold RuleAlwaysInline_MeetCondition in Ht; rewrite Hi in Ht; discriminate.
  exists inline. split; [done|]. split.
  - intros ->. rewrite (try_rules_inline _ _ _ _ Hi) in Ht.
    apply bind_Ok in Ht as (tmp_s & Hc & Ht). injection Ht as <- <-. eauto.
  - intros ->.
    assert (Honly : NeedsMultilevelTiling (search_task policy) state stage_id = false ->
                    NeedsRfactor (search_task policy) state stage_id = false ->
                    pairs = [(state, stage_id - 1)] /\ rules' = default_sketch_rules t).
    { intros Hm Hr. rewrite (try_rules_only_skip _ _ _ _ Hi Hr Hm) in Ht.
      by injection Ht as <- <-. }
    split; [|split; [|exact Honly]]; clear Honly.
    all: unfold default_sketch_rules in *; simpl in Ht;
      unfold RuleAlwaysInline_MeetCondition, RuleAddRfactor_MeetCondition,
        RuleAddCacheWrite_MeetCondition,
        RuleMultiLevelTilingWithFusion_MeetCondition,
        RuleMultiLevelTiling_MeetCondition, RuleSkipStage_MeetCondition,
        RuleSkipStage_Apply in Ht;
      rewrite Hi in Ht; simpl in Ht;
      destruct (HasSingleElementwiseMatchedConsumer (search_task policy) state
                  stage_id) as [matched stored]; simpl in *.
    all: repeat match goal with
             | Hh : (?m ≫= _) = Ok _ |- _ =>
                 let E := fresh "E" in apply bind_Ok in Hh as (? & E & Hh)
             | Hh : Ok _ = Ok _ |- _ => injection Hh as ?; subst
             | Hh : (let '(_, _) := ?x in _) = Ok _ |- _ => destruct x
             | Hh : context [if ?c then _ else _] |- _ => destruct c eqn:?
             | Hh : _ = Ok _ |- _ => progress simpl in Hh
             end;
        try discriminate.
    all: try (intros _).
    all: try (by eexists).
    all: rewrite ?app_assoc, ?last_snoc; try done.
    all: try (change [(state, stage_id - 1)] with ([] ++ [(state, stage_id - 1)]);
              by rewrite last_snoc).
Qed.

(** X7: a stage that needs multi-level tiling gets a cache-write stage or is
    fused into its consumer, never both: [RuleAddCacheWrite] and
    [RuleMultiLevelTilingWithFusion] do not meet their conditions on the same
    stage, one of them does on every stage that needs multi-level tiling and
    is not flagged [no_cache_write], and [RuleMultiLevelTiling] does whenever
    one of them does.  Only the fusion rule can answer apply-and-skip-rest,
    and does so exactly when the cache-write stage is there already; its
    member is left alone on a stage that needs no multi-level tiling. *)
Theorem cache_write_or_fusion (policy : Policy) (t : Z) (state : State)
        (stage_id : Z) :
  let task := search_task policy in
  exists c_cache c_fusion t' c_tiling,
    RuleAddCacheWrite_MeetCondition policy state stage_id = Ok c_cache
    /\ RuleMultiLevelTilingWithFusion_MeetCondition policy t state stage_id
       = Ok (c_fusion, t')
    /\ RuleMultiLevelTiling_MeetCondition policy state stage_id = Ok c_tiling
    /\ (c_cache = kPass \/ c_fusion = kPass)
    /\ (c_tiling = kApply <-> NeedsMultilevelTiling task state stage_id = true)
    /\ (c_cache <> kPass \/ c_fusion <> kPass -> c_tiling = kApply)
    /\ (NeedsMultilevelTiling task state stage_id = true ->
        HasAttrsFlag state stage_id no_cache_write = false ->
        c_cache = kApply \/ c_fusion <> kPass)
    /\ c_cache <> kApplyAndSkipRest
    /\ c_tiling <> kApplyAndSkipRest
    /\ (c_fusion = kApplyAndSkipRest <->
        NeedsMultilevelTiling task state stage_id
        && (HasSingleElementwiseMatchedConsumer task state stage_id).1
        && HasCacheWriteStage state stage_id = true)
    /\ (NeedsMultilevelTiling task state stage_id = false -> t' = t).
Proof.
  cbv zeta.
  unfold RuleAddCacheWrite_MeetCondition, RuleMultiLevelTilingWithFusion_MeetCondition,
    RuleMultiLevelTiling_MeetCondition.
  destruct (NeedsMultilevelTiling (search_task policy) state stage_id);
    destruct (HasSingleElementwiseMatchedConsumer (search_task policy) state
                stage_id) as [[] stored];
    destruct (HasAttrsFlag state stage_id no_cache_write);
    destruct (HasCacheWriteStage state stage_id); simpl;
    eexists _, _, _, _; (split; [reflexivity|]); (split; [reflexivity|]);
    (split; [reflexivity|]); intuition congruence.
Qed.

(** The enumeration from stage [k - 1] down when no rule but [RuleSkipStage]
    meets its condition on a stage below [k]. *)
Lemma enumerate_sketches_only_skip (policy : Policy) (t : Z) (state : State)
      (k fuel : nat) :
  (forall stage_id, 0 <= stage_id < Z.of_nat k ->
     ShouldAlwaysBeInlined policy state stage_id = Ok false
     /\ NeedsRfactor (search_task policy) state stage_id = false
     /\ NeedsMultilevelTiling (search_task policy) state stage_id = false) ->
  (k + 2 <= fuel)%nat ->
  enumerate_sketches fuel policy [(state, Z.of_nat k - 1)] (default_sketch_rules t) []
  = Ok ([state], default_sketch_rules t).
Proof.
  revert fuel. induction k as [|k IH]; intros fuel Hall Hfuel.
  - destruct fuel as [|[|fuel]]; [lia | lia |]. reflexivity.
  - destruct fuel as [|fuel]; [lia|].
    replace (Z.of_nat (Datatypes.S k) - 1) with (Z.of_nat k) by lia.
    cbn [enumerate_sketches expand_frontier].
    destruct (Z.ltb_spec (Z.of_nat k) 0); [lia|].
    destruct (Hall (Z.of_nat k) ltac:(lia)) as (Hi & Hr & Hm).
    rewrite (try_rules_only_skip _ _ _ _ Hi Hr Hm). simpl.
    apply IH; [|lia]. intros sid Hs. apply Hall. lia.
Qed.

(** X8: when no rule but [RuleSkipStage] meets its condition on any stage of
    the initial state (no stage is to be inlined, none needs multi-level
    tiling or rfactor), [GenerateSketches] with the constructor's rules
    returns, after one round for each stage and two more, exactly one sketch:
    the initial state, unchanged; the rule objects are unchanged too. *)
Theorem GenerateSketches_only_skip (fuel : nat) (policy : Policy) (t : Z) :
  let task := search_task policy in
  let init := init_state task in
  sketch_rules policy = default_sketch_rules t ->
  (forall stage_id, 0 <= stage_id < Z.of_nat (length (stages init)) ->
     ShouldAlwaysBeInlined policy init stage_id = Ok false
     /\ NeedsRfactor task init stage_id = false
     /\ NeedsMultilevelTiling task init stage_id = false) ->
  Forall (fun step => is_RfactorStep step = false) (transform_steps init) ->
  (length (stages init) + 2 <= fuel)%nat ->
  GenerateSketches fuel policy = Ok ([init], policy).
Proof.
  cbv zeta. intros Hrules Hall Hno Hfuel. unfold GenerateSketches.
  rewrite Hrules, (enumerate_sketches_only_skip _ _ _ _ _ Hall Hfuel). simpl.
  rewrite (rfactor_hack_no_rfactor _ Hno). simpl. f_equal. f_equal.
  rewrite <- Hrules. by destruct policy.
Qed.

End DefaultRules.

Lemma try_rules_default_order_witness :
  exists tmp_s,
    try_rules (H := Demo.externals) Demo.tagged_policy (default_sketch_rules 0)
              Demo.tagged_state 1
    = Ok ([(tmp_s, 0)], default_sketch_rules 0).
Proof.
  assert (Ht : exists r,
             try_rules (H := Demo.externals) Demo.tagged_policy
                       (default_sketch_rules 0) Demo.tagged_state 1 = Ok r).
  { eexists. vm_compute. reflexivity. }
  destruct Ht as ([pairs rules'] & Ht).
  destruct (try_rules_default_order (H := Demo.externals) _ _ _ _ _ _ Ht)
    as (inline & Hi & Hyes & _).
  assert (inline = true) as -> by (vm_compute in Hi; congruence).
  destruct (Hyes eq_refl) as (tmp_s & _ & -> & ->).
  exists tmp_s. exact Ht.
Defined.

Lemma GenerateSketches_only_skip_witness :
  GenerateSketches (H := Demo.externals) 4 DemoMore.plain_policy
  = Ok ([DemoMore.plain_state], DemoMore.plain_policy).
Proof.
  apply (GenerateSketches_only_skip (H := Demo.externals) 4 DemoMore.plain_policy 0).
  - reflexivity.
  - intros stage_id Hs.
    assert (stage_id = 0 \/ stage_id = 1) as [-> | ->] by (simpl in Hs; lia);
      vm_compute; auto.
  - constructor.
  - simpl. lia.
Defined.



Lemma rfactor_hack_exact_witness :
  exists state',
    rfactor_hack (mkState [] [SplitStep 1 1 (Some 8) [Some 1] true; RfactorStep 1 1 1]
                          (mkAttachMap ∅ ∅) false) = Ok state'
    /\ transform_steps state' !! 0%nat = Some (SplitStep 1 1 (Some 8) [None] true).
Proof.
  destruct (rfactor_hack_exact
              (mkState [] [SplitStep 1 1 (Some 8) [Some 1] true; RfactorStep 1 1 1]
                       (mkAttachMap ∅ ∅) false)) as (Hiff & _ & Hret & _).
  destruct (proj2 Hiff) as [state' Hh].
  { intros i step Hi Hr. destruct i as [|[|i]]; simpl in *.
    - injection Hi as <-. discriminate.
    - split; [lia|]. eexists. split; reflexivity.
    - discriminate. }
  exists state'. split; [exact Hh|].
  destruct (Hret _ Hh) as (_ & _ & Hall).
  exact (Hall 0%nat _ eq_refl).
Defined.

(** ** Init population rules on stages that are not scheduled *)

Lemma for_loop_skips {S} (fuel i : nat) (bound : S -> nat)
      (body : nat -> S -> result S) (s : S) :
  (forall j, (j < bound s)%nat -> body j s = Ok s) ->
  (bound s - i < fuel)%nat ->
  for_loop fuel i bound body s = Ok s.
Proof.
  intros Hbody. revert i. induction fuel as [|fuel IH]; intros i Hf; simpl.
  - lia.
  - destruct (Nat.ltb_spec i (bound s)); [|done].
    rewrite Hbody by done. simpl. apply IH. lia.
Qed.

Section NotScheduled.
Context `{Externals}.

Lemma change_compute_location_loop_skips (policy : Policy) (state : State) (n : nat) :
  Forall not_scheduled (stages state) ->
  (n <= length (stages state))%nat ->
  change_compute_location_loop n (policy, state) = Ok (policy, state).
Proof.
  intros Hall. induction n as [|n IH]; intros Hn; simpl; [done|].
  destruct (lookup_lt_is_Some_2 (stages state) n ltac:(lia)) as [stage Hs].
  rewrite at_Z_of_nat, Hs. simpl.
  rewrite Forall_forall in Hall.
  destruct (Hall stage (list_elem_of_lookup_2 _ _ _ Hs)) as [Hp | Hi].
  - rewrite (bool_decide_eq_true_2 _ Hp). simpl. apply IH. lia.
  - rewrite (bool_decide_eq_true_2 _ Hi), orb_true_r. simpl. apply IH. lia.
Qed.

(** X9: on a state whose stages are all placeholders or inlined, the four
    init rules after [InitFillTileSize] schedule nothing and draw no random
    number: [InitParallel], [InitVectorization] and [InitUnroll] return
    [kValid] with the state and the policy they were given, and
    [InitChangeComputeLocation] does as well but for the final [InferBound]
    (which it does not call when the rule is disabled). *)
Theorem init_rules_skip_unscheduled_stages (fuel : nat) (policy : Policy)
        (state : State) :
  Forall not_scheduled (stages state) ->
  (length (stages state) < fuel)%nat ->
  InitParallel_Apply fuel policy state = Ok (kValid, policy, state)
  /\ InitVectorization_Apply fuel policy state = Ok (kValid, policy, state)
  /\ InitUnroll_Apply fuel policy state = Ok (kValid, policy, state)
  /\ InitChangeComputeLocation_Apply policy state
     = if negb (disable_change_compute_location (params policy) =? 0)
       then Ok (kValid, policy, state)
       else (state' ← InferBound (search_task policy) state;
             Ok (kValid, policy, state')).
Proof.
  intros Hall Hfuel.
  assert (Hstage : forall j, (j < length (stages state))%nat ->
            exists stage, at_Z (stages state) (Z.of_nat j) = Ok stage
                          /\ not_scheduled stage).
  { intros j Hj. destruct (lookup_lt_is_Some_2 (stages state) j Hj) as [stage Hs].
    exists stage. rewrite at_Z_of_nat, Hs. split; [done|].
    rewrite Forall_forall in Hall. apply Hall. by eapply list_elem_of_lookup_2. }
  split; [|split; [|split]].
  - unfold InitParallel_Apply. rewrite for_loop_skips; [done| |lia].
    intros j Hj. destruct (Hstage j Hj) as (stage & Hs & Hn).
    unfold init_parallel_stage. rewrite Hs. simpl.
    destruct Hn as [Hp | Hi].
    + by rewrite (bool_decide_eq_true_2 _ Hp), orb_true_r.
    + rewrite (bool_decide_eq_false_2 (compute_at stage = kRoot)); [done|].
      rewrite Hi. discriminate.
  - unfold InitVectorization_Apply. rewrite for_loop_skips; [done| |simpl; lia].
    simpl. intros j Hj. destruct (Hstage j Hj) as (stage & Hs & Hn).
    unfold init_vectorization_stage. rewrite Hs. simpl.
    destruct Hn as [Hp | Hi].
    + by rewrite (bool_decide_eq_true_2 _ Hp), orb_true_r.
    + by rewrite (bool_decide_eq_true_2 _ Hi).
  - unfold InitUnroll_Apply. rewrite for_loop_skips; [done| |simpl; lia].
    simpl. intros j Hj. destruct (Hstage j Hj) as (stage & Hs & Hn).
    unfold init_unroll_stage. rewrite Hs. simpl.
    destruct Hn as [Hp | Hi].
    + by rewrite (bool_decide_eq_true_2 _ Hp), orb_true_r.
    + by rewrite (bool_decide_eq_true_2 _ Hi).
  - unfold InitChangeComputeLocation_Apply.
    destruct (negb _); [done|].
    by rewrite change_compute_location_loop_skips.
Qed.

End NotScheduled.

Lemma init_rules_skip_unscheduled_stages_witness :
  InitParallel_Apply (H := Demo.externals) 3 DemoMore.inlined_policy
                     DemoMore.inlined_state
  = Ok (kValid, DemoMore.inlined_policy, DemoMore.inlined_state)
  /\ InitUnroll_Apply (H := Demo.externals) 3 DemoMore.inlined_policy
                      DemoMore.inlined_state
     = Ok (kValid, DemoMore.inlined_policy, DemoMore.inlined_state).
Proof.
  destruct (init_rules_skip_unscheduled_stages (H := Demo.externals) 3
              DemoMore.inlined_policy DemoMore.inlined_state)
    as (Hp & _ & Hu & _).
  - apply Forall_cons. split; [by left|].
    apply Forall_cons. split; [by right | apply Forall_nil_2].
  - simpl. lia.
  - split; [exact Hp | exact Hu].
Defined.


(** ** The scan of [InitParallel] *)

Lemma to_int32_range (z : Z) : - 2 ^ 31 <= to_int32 z < 2 ^ 31.
Proof.
  unfold to_int32.
  pose proof (Z.mod_pos_bound (z + 2 ^ 31) (2 ^ 32) ltac:(lia)). lia.
Qed.

Lemma to_int64_id (z : Z) : - 2 ^ 63 <= z < 2 ^ 63 -> to_int64 z = z.
Proof.
  intros Hz. unfold to_int64. rewrite Z.mod_small; lia.
Qed.

Section ParallelScan.
Context `{Externals}.

Lemma parallel_degree_of_cons (d : Z) (it : Iterator) (its : list Iterator) :
  parallel_degree_of d (it :: its)
  = parallel_degree_of (to_int64 (d * GetExtent it)) its.
Proof. reflexivity. Qed.

(** While the degree stays below [2 ^ 31] and the extents are positive
    [int]s, the 64-bit product does not wrap. *)
Lemma parallel_degree_of_exact (its : list Iterator) (d : Z) :
  1 <= d < 2 ^ 31 ->
  Forall (fun it => 1 <= GetExtent it < 2 ^ 31) its ->
  (forall k, (Datatypes.S k < length its)%nat ->
             parallel_degree_of d (take (Datatypes.S k) its) < 2 ^ 31) ->
  parallel_degree_of d its = d * product (GetExtent <$> its).
Proof.
  revert d. induction its as [|it rest IH]; intros d Hd Hext Hpre.
  - unfold parallel_degree_of, product. simpl. lia.
  - apply Forall_cons in Hext as [He Hext].
    assert (Hone : to_int64 (d * GetExtent it) = d * GetExtent it).
    { apply to_int64_id. nia. }
    rewrite parallel_degree_of_cons, Hone, fmap_cons.
    change (product (GetExtent it :: (GetExtent <$> rest)))
      with (GetExtent it * product (GetExtent <$> rest)).
    destruct rest as [|it' rest'].
    { unfold parallel_degree_of, product. simpl. lia. }
    rewrite IH; [lia| |exact Hext|].
    + split; [nia|].
      specialize (Hpre 0%nat ltac:(simpl; lia)).
      change (take 1 (it :: it' :: rest')) with [it] in Hpre.
      unfold parallel_degree_of in Hpre. simpl in Hpre. by rewrite Hone in Hpre.
    + intros k Hk. specialize (Hpre (Datatypes.S k) ltac:(simpl in *; lia)).
      change (take (Datatypes.S (Datatypes.S k)) (it :: it' :: rest'))
        with (it :: take (Datatypes.S k) (it' :: rest')) in Hpre.
      by rewrite parallel_degree_of_cons, Hone in Hpre.
Qed.

Lemma parallel_scan_from (policy : Policy) (state : State) (stage_id : Z)
      (todo : list Iterator) (i : nat) (acc : list Iterator) (d : Z)
      (to_fuse : list Iterator) (degree : Z) (iter_id : nat) :
  parallel_scan policy state stage_id todo i acc d = (to_fuse, degree, iter_id) ->
  let limit := to_int32 (num_cores (search_task policy) * 16) in
  exists new,
    to_fuse = acc ++ new
    /\ new `prefix_of` todo
    /\ Forall (fun it => iter_kind it <> kReduction /\ annotation it = kNone) new
    /\ degree = parallel_degree_of d new
    /\ (forall k, (Datatypes.S k < length new)%nat ->
          parallel_degree_of d (take (Datatypes.S k) new) <= limit
          /\ has_attached state stage_id (Z.of_nat (i + k)) = false)
    /\ ((iter_id = (i + length new)%nat
         /\ match todo !! length new with
            | Some it => iter_kind it = kReduction \/ annotation it <> kNone
            | None => True
            end)
        \/ (Datatypes.S iter_id = (i + length new)%nat
            /\ (limit < degree
                \/ has_attached state stage_id (Z.of_nat iter_id) = true))).
Proof.
  cbv zeta. revert i acc d.
  induction todo as [|it rest IH]; intros i acc d Hs; simpl in Hs.
  - injection Hs as <- <- <-. exists []. rewrite app_nil_r.
    split; [done|]. split; [done|]. split; [constructor|].
    split; [done|]. split; [simpl; intros; lia|].
    left. split; [simpl; lia | done].
  - destruct (bool_decide (iter_kind it = kReduction)
              || negb (bool_decide (annotation it = kNone))) eqn:Hbreak.
    { injection Hs as <- <- <-. exists []. rewrite app_nil_r.
      split; [done|]. split; [apply prefix_nil|]. split; [constructor|].
      split; [done|]. split; [simpl; intros; lia|].
      left. split; [simpl; lia|]. simpl.
      apply orb_true_iff in Hbreak as [Hk | Ha].
      - left. by apply bool_decide_eq_true_1 in Hk.
      - right. apply negb_true_iff in Ha. by apply bool_decide_eq_false_1 in Ha. }
    apply orb_false_iff in Hbreak as [Hk Ha].
    apply bool_decide_eq_false_1 in Hk.
    apply negb_false_iff, bool_decide_eq_true_1 in Ha.
    destruct (Z.ltb_spec (to_int32 (num_cores (search_task policy) * 16))
                         (to_int64 (d * GetExtent it))) as [Hover | Hfits].
    { injection Hs as <- <- <-. exists [it].
      split; [done|]. split; [by apply prefix_cons, prefix_nil|].
      split; [by repeat constructor|].
      split; [done|]. split; [simpl; intros; lia|].
      right. simpl. split; [lia | by left]. }
    destruct (has_attached state stage_id (Z.of_nat i)) eqn:Hatt.
    { injection Hs as <- <- <-. exists [it].
      split; [done|]. split; [by apply prefix_cons, prefix_nil|].
      split; [by repeat constructor|].
      split; [done|]. split; [simpl; intros; lia|].
      right. simpl. split; [lia | by right]. }
    apply IH in Hs as (new & -> & Hpre & Hall & -> & Hmid & Hend).
    exists (it :: new). rewrite <- app_assoc.
    split; [done|]. split; [by apply prefix_cons|].
    split; [by constructor|].
    split; [by rewrite parallel_degree_of_cons|]. split.
    + intros [|k] Hk'.
      * rewrite Nat.add_0_r. split; [|done].
        change (take 1 (it :: new)) with (it :: take 0 new).
        by rewrite take_0.
      * destruct (Hmid k ltac:(simpl in Hk'; lia)) as [Hle Hna].
        replace (i + Datatypes.S k)%nat with (Datatypes.S i + k)%nat by lia.
        split; [|done].
        change (take (Datatypes.S (Datatypes.S k)) (it :: new))
          with (it :: take (Datatypes.S k) new).
        by rewrite parallel_degree_of_cons.
    + destruct Hend as [[-> Hnext] | [Hi' Hwhy]].
      * left. split; [simpl; lia | done].
      * right. split; [simpl; lia | done].
Qed.

(** X10: the scan of [annotate_parallel] from [iter_offset].  What it fuses
    are consecutive iterators of the stage from [iter_offset] on, none of them
    a reduction iterator or annotated; the parallel degree is the product of
    their extents as the [int64_t] accumulates it, which is their product
    when the extents are positive [int]s.  All of them but the last kept the
    degree within [16 * num_cores] (an [int]) and have no stage attached.
    The scan ends at the end of the stage or before a reduction or annotated
    iterator, or with the iterator that brought the degree above
    [16 * num_cores] or has a stage attached; in this second case [iter_id]
    is the position of that iterator. *)
Theorem parallel_scan_spec (policy : Policy) (state : State) (stage_id : Z)
        (todo : list Iterator) (iter_offset : nat)
        (to_fuse : list Iterator) (degree : Z) (iter_id : nat) :
  parallel_scan policy state stage_id todo iter_offset [] 1
  = (to_fuse, degree, iter_id) ->
  let limit := to_int32 (num_cores (search_task policy) * 16) in
  to_fuse `prefix_of` todo
  /\ Forall (fun it => iter_kind it <> kReduction /\ annotation it = kNone) to_fuse
  /\ degree = parallel_degree_of 1 to_fuse
  /\ (Forall (fun it => 1 <= GetExtent it < 2 ^ 31) to_fuse ->
      degree = product (GetExtent <$> to_fuse))
  /\ (forall k, (Datatypes.S k < length to_fuse)%nat ->
        parallel_degree_of 1 (take (Datatypes.S k) to_fuse) <= limit
        /\ has_attached state stage_id (Z.of_nat (iter_offset + k)) = false)
  /\ ((iter_id = (iter_offset + length to_fuse)%nat
       /\ match todo !! length to_fuse with
          | Some it => iter_kind it = kReduction \/ annotation it <> kNone
          | None => True
          end)
      \/ (Datatypes.S iter_id = (iter_offset + length to_fuse)%nat
          /\ (limit < degree
              \/ has_attached state stage_id (Z.of_nat iter_id) = true))).
Proof.
  intros Hs. apply parallel_scan_from in Hs
    as (new & -> & Hpre & Hall & -> & Hmid & Hend).
  cbv zeta. simpl. split; [done|]. split; [done|]. split; [done|].
  split; [|split; [exact Hmid | exact Hend]].
  intros Hext. rewrite parallel_degree_of_exact; [lia | lia | exact Hext |].
  intros k Hk. destruct (Hmid k Hk) as [Hle _].
  pose proof (to_int32_range (num_cores (search_task policy) * 16)). lia.
Qed.

End ParallelScan.

Lemma parallel_scan_spec_witness :
  exists to_fuse,
    parallel_scan (H := Demo.externals) Demo.loops_policy Demo.loops_state 1
      [Demo.spatial "i" 8; Demo.spatial "j" 16; Demo.reduction "k" 4] 0 [] 1
    = (to_fuse, 128, 1%nat)
    /\ to_fuse `prefix_of`
         [Demo.spatial "i" 8; Demo.spatial "j" 16; Demo.reduction "k" 4]
    /\ 128 = product (GetExtent (Externals := Demo.externals) <$> to_fuse).
Proof.
  assert (Hs : exists to_fuse,
             parallel_scan (H := Demo.externals) Demo.loops_policy Demo.loops_state 1
               [Demo.spatial "i" 8; Demo.spatial "j" 16; Demo.reduction "k" 4]
               0 [] 1 = (to_fuse, 128, 1%nat)
             /\ forallb (fun it => (1 <=? GetExtent (Externals := Demo.externals) it)
                                   && (GetExtent (Externals := Demo.externals) it
                                       <? 2 ^ 31)) to_fuse = true).
  { eexists. split; [vm_compute; reflexivity | vm_compute; reflexivity]. }
  destruct Hs as (to_fuse & Hs & Hext). exists to_fuse. split; [exact Hs|].
  destruct (parallel_scan_spec (H := Demo.externals) _ _ _ _ _ _ _ _ Hs)
    as (Hpre & _ & _ & Hprod & _).
  split; [exact Hpre|]. apply Hprod.
  apply Forall_forall. intros it Hit.
  rewrite forallb_forall in Hext.
  specialize (Hext it (proj1 (list_elem_of_In _ _) Hit)).
  apply andb_true_iff in Hext as [H1 H2].
  apply Z.leb_le in H1. apply Z.ltb_lt in H2. lia.
Defined.


(** ** The locations of [InitChangeComputeLocation] *)

Section ComputeLocation.
Context `{Externals}.





End ComputeLocation.



(** ** [InitFillTileSize] on a filled history *)

Lemma all_defined_Some (scheme : list Z) : all_defined (Some <$> scheme) = true.
Proof.
  unfold all_defined. induction scheme as [|x rest IH]; [done|].
  rewrite fmap_cons. cbn [forallb]. apply andb_true_iff. split; [|exact IH].
  apply bool_decide_eq_true_2. eauto.
Qed.

Lemma filled_step_filled (max : Z) (g : mt19937) (steps : list Step) (i : nat)
      (step step' : Step) :
  filled_step max g steps i step step' -> needs_fill step' = false.
Proof.
  unfold filled_step. destruct step as [sid iid ext lens ito| | | | | | | | | | |];
    try (by intros ->).
  destruct (all_defined lens) eqn:Hd.
  - intros ->. simpl. by rewrite Hd.
  - intros (e & scheme & _ & _ & ->). simpl. by rewrite all_defined_Some.
Qed.

(** The loop passes over a history with nothing to fill, and draws nothing. *)
Lemma fill_tile_size_loop_filled (policy : Policy) (state : State) (todo k : nat) :
  (forall i step, transform_steps state !! i = Some step -> needs_fill step = false) ->
  (k + todo <= length (transform_steps state))%nat ->
  fill_tile_size_loop todo k (policy, state) = Ok (policy, state).
Proof.
  intros Hno. revert k. induction todo as [|todo IH]; intros k Hk; simpl; [done|].
  destruct (lookup_lt_is_Some_2 (transform_steps state) k ltac:(lia)) as [step Hstep].
  rewrite Hstep. specialize (Hno _ _ Hstep).
  destruct step as [sid iid ext lens ito| | | | | | | | | | |]; simpl;
    try (apply IH; lia).
  simpl in Hno. apply negb_false_iff in Hno. rewrite Hno. simpl. apply IH. lia.
Qed.

(** X12: [InitFillTileSize] is idempotent: applied to a state it has returned,
    it returns that state again and leaves the policy, and so its random
    generator, as they are. *)
Theorem InitFillTileSize_idempotent (policy : Policy) (state : State)
        (kind : ResultKind) (policy' : Policy) (state' : State) :
  InitFillTileSize_Apply policy state = Ok (kind, policy', state') ->
  InitFillTileSize_Apply policy' state' = Ok (kValid, policy', state').
Proof.
  unfold InitFillTileSize_Apply. intros Ha.
  apply bind_Ok in Ha as ([p1 s1] & Hloop & Ha). injection Ha as <- <- <-.
  apply (fill_tile_size_loop_invariant policy state) in Hloop; [|simpl; lia|].
  2:{ unfold fill_invariant. simpl. repeat split; auto. intros; lia. }
  destruct Hloop as (_ & _ & _ & _ & _ & _ & Hlen & Hdone & _). simpl in *.
  rewrite fill_tile_size_loop_filled.
  - simpl. by destruct s1.
  - simpl. intros i step' Hi.
    assert (Hlt : (i < length (transform_steps state))%nat)
      by (rewrite <- Hlen; by apply lookup_lt_Some in Hi).
    destruct (lookup_lt_is_Some_2 _ _ Hlt) as [step Hstep].
    destruct (Hdone i step Hlt Hstep) as (step'' & Hi' & Hf).
    rewrite Hi in Hi'. injection Hi' as <-.
    by eapply filled_step_filled.
  - simpl. lia.
Qed.

Lemma InitFillTileSize_idempotent_witness :
  exists policy' state',
    InitFillTileSize_Apply Demo.unfilled_policy
                           Demo.unfilled_state = Ok (kValid, policy', state')
    /\ InitFillTileSize_Apply policy' state'
       = Ok (kValid, policy', state').
Proof.
  assert (Ha : exists policy' state',
             InitFillTileSize_Apply Demo.unfilled_policy
                                    Demo.unfilled_state = Ok (kValid, policy', state')).
  { eexists _, _. vm_compute. reflexivity. }
  destruct Ha as (p' & s' & Ha). exists p', s'. split; [exact Ha|].
  exact (InitFillTileSize_idempotent _ _ _ _ _ Ha).
Defined.


(** ** Where the initial population comes from *)

Section SampleMore.
Context `{Externals}.

Lemma apply_init_rules_applied (rules : list InitPopulationRule) (fuel : nat)
      (policy : Policy) (tmp_s : State) (valid : bool) (policy' : Policy)
      (tmp_s' : State) :
  apply_init_rules rules fuel policy tmp_s = Ok (valid, policy', tmp_s') ->
  rules_applied fuel rules policy tmp_s policy' tmp_s'.
Proof.
  revert policy tmp_s. induction rules as [|rule rest IH]; intros p s Ha;
    simpl in Ha.
  - injection Ha as <- <- <-. constructor.
  - apply bind_Ok in Ha as ([[kind p1] s1] & Hr & Ha).
    pose proof (InitPopulationRule_Apply_kValid _ _ _ _ _ _ _ Hr) as [-> _].
    destruct (decide (kValid = kInvalid)); [discriminate|].
    econstructor; [exact Hr | by apply IH].
Qed.

Lemma sample_loop_samples (budget fuel : nat) (sketches : list State) (out_size : Z)
      (policy : Policy) (out_states : list State) (fail_ct : Z)
      (out : list State) (fail_ct' : Z) (policy' : Policy) :
  sample_loop budget fuel sketches out_size policy out_states fail_ct
  = Ok (out, fail_ct', policy') ->
  exists new, out = out_states ++ new /\ samples fuel sketches policy new policy'.
Proof.
  revert policy out_states fail_ct.
  induction budget as [|budget IH]; intros p out0 fc Hl;
    rewrite sample_loop_unfold in Hl.
  - destruct ((Z.of_nat (length out0) <? out_size) && (fc <? out_size));
      [discriminate|]. injection Hl as <- <- <-.
    exists []. rewrite app_nil_r. split; [done | constructor].
  - destruct ((Z.of_nat (length out0) <? out_size) && (fc <? out_size)).
    2:{ injection Hl as <- <- <-.
        exists []. rewrite app_nil_r. split; [done | constructor]. }
    destruct (policy_rand p) as [r p1] eqn:Hrand.
    destruct (decide (sketches = [])); [discriminate|].
    apply bind_Ok in Hl as (tmp_s & Hat & Hl).
    apply bind_Ok in Hl as ([[valid p2] s2] & Hrules & Hl).
    assert (Hir : init_rules p1 = init_rules p).
    { rewrite policy_rand_draw in Hrand. by injection Hrand as _ <-. }
    destruct (apply_init_rules_valid _ _ _ _ _ _ _ Hrules) as (-> & _).
    apply apply_init_rules_applied in Hrules.
    apply IH in Hl as (new & -> & Hnew).
    exists (s2 :: new). rewrite <- app_assoc. split; [done|].
    apply at_Z_Ok in Hat as [_ Hat].
    eapply samples_cons; [| |exact Hnew]; rewrite Hrand; simpl.
    + exact Hat.
    + by rewrite <- Hir.
Qed.

(** X13: the states [SampleInitPopulation] returns are sampled one after the
    other with the policy's generator: each is the sketch at index
    [r mod sketches.size()], [r] the next word of the generator, after every
    init rule of the policy in order, none of which found it invalid; the
    next sample starts from the policy as these rules leave it, and the
    policy returned is the policy after the last one.  There are
    [max(0, out_size)] of them; with [out_size <= 0] the policy is left as it
    is. *)
Theorem SampleInitPopulation_from_sketches (fuel : nat) (policy : Policy)
        (sketches : list State) (out_size : Z) (out : list State)
        (policy' : Policy) :
  SampleInitPopulation fuel policy sketches out_size = Ok (out, policy') ->
  samples fuel sketches policy out policy'
  /\ Z.of_nat (length out) = Z.max 0 out_size
  /\ (out_size <= 0 -> out = [] /\ policy' = policy).
Proof.
  unfold SampleInitPopulation, SampleInitPopulation_ct. intros Hs.
  apply bind_Ok in Hs as ([[out1 fc] p1] & Hl & Hs). injection Hs as <- <-.
  assert (Hempty : out_size <= 0 -> out1 = [] /\ p1 = policy).
  { intros Hle. rewrite sample_loop_unfold in Hl.
    assert (Hlt : (0 <? out_size) = false) by (apply Z.ltb_ge; lia).
    change (Z.of_nat (length (@nil State))) with 0 in Hl.
    rewrite Hlt in Hl. simpl in Hl.
    by injection Hl as <- _ <-. }
  split; [|split; [|exact Hempty]].
  - apply sample_loop_samples in Hl as (new & -> & Hnew). exact Hnew.
  - destruct (Z.le_gt_cases out_size 0) as [Hle|Hgt].
    + destruct (Hempty Hle) as [-> _]. simpl. lia.
    + apply sample_loop_returns in Hl as (_ & _ & Hlen & _).
      rewrite Hlen by lia. simpl. lia.
Qed.

End SampleMore.

Lemma SampleInitPopulation_from_sketches_witness :
  exists out policy',
    SampleInitPopulation (H := Demo.externals) 2 Demo.input_policy
                         [Demo.input_state] 3 = Ok (out, policy')
    /\ samples (H := Demo.externals) 2 [Demo.input_state] Demo.input_policy
               out policy'
    /\ Z.of_nat (length out) = 3.
Proof.
  assert (Hs : exists r,
             SampleInitPopulation (H := Demo.externals) 2 Demo.input_policy
                                  [Demo.input_state] 3 = Ok r).
  { eexists. vm_compute. reflexivity. }
  destruct Hs as ([out p'] & Hs). exists out, p'. split; [exact Hs|].
  destruct (SampleInitPopulation_from_sketches (H := Demo.externals)
              _ _ _ _ _ _ Hs) as (Hsam & Hlen & _).
  split; [exact Hsam | exact Hlen].
Defined.


(** ** What the sketches are derived from *)

Section SketchClosure.
Context `{Externals}.
Variable policy : Policy.
Variable P : State -> Prop.
Hypothesis P_rule :
  forall rule rule' state stage_id cond pairs,
    0 <= stage_id -> P state ->
    MeetCondition rule policy state stage_id = Ok (cond, rule') ->
    cond <> kPass ->
    Apply rule' policy state stage_id = Ok pairs ->
    Forall (fun pair => P pair.1) pairs.

Lemma try_rules_closure (rules : list SketchGenerationRule) (state : State)
      (stage_id : Z) (pairs : list (State * Z)) (rules' : list SketchGenerationRule) :
  0 <= stage_id -> P state ->
  try_rules policy rules state stage_id = Ok (pairs, rules') ->
  Forall (fun pair => P pair.1) pairs.
Proof.
  intros Hs HP. revert pairs rules'.
  induction rules as [|rule rest IH]; intros pairs rules' Ht; simpl in Ht.
  - injection Ht as <- <-. constructor.
  - apply bind_Ok in Ht as ([cond rule1] & Hm & Ht).
    destruct (decide (cond = kPass)) as [|Hnp].
    + apply bind_Ok in Ht as ([pairs1 rest1] & Hr & Ht). injection Ht as <- <-.
      by eapply IH.
    + apply bind_Ok in Ht as (applied & Ha & Ht).
      pose proof (P_rule _ _ _ _ _ _ Hs HP Hm Hnp Ha) as Happ.
      destruct (decide (cond = kApplyAndSkipRest)).
      * by injection Ht as <- <-.
      * apply bind_Ok in Ht as ([pairs1 rest1] & Hr & Ht). injection Ht as <- <-.
        apply Forall_app. split; [done | by eapply IH].
Qed.

Lemma expand_frontier_closure (pnow : list (State * Z))
      (rules : list SketchGenerationRule) (pnext : list (State * Z))
      (out_states : list State) (pnext' : list (State * Z))
      (out_states' : list State) (rules' : list SketchGenerationRule) :
  Forall (fun pair => P pair.1) pnow ->
  Forall (fun pair => P pair.1) pnext ->
  Forall P out_states ->
  expand_frontier policy pnow rules pnext out_states
  = Ok (pnext', out_states', rules') ->
  Forall (fun pair => P pair.1) pnext' /\ Forall P out_states'.
Proof.
  revert rules pnext out_states.
  induction pnow as [|[state stage_id] rest IH]; intros rules pnext outs Hnow Hnext
    Hout He; simpl in He.
  - by injection He as <- <- <-.
  - apply Forall_cons in Hnow as [HP Hnow]. simpl in HP.
    destruct (Z.ltb_spec stage_id 0).
    + eapply IH; [exact Hnow | exact Hnext | | exact He].
      apply Forall_app. split; [done | by apply Forall_singleton].
    + apply bind_Ok in He as ([pairs rules1] & Ht & He).
      eapply IH; [exact Hnow | | exact Hout | exact He].
      apply Forall_app. split; [done|]. by eapply try_rules_closure.
Qed.

Lemma enumerate_sketches_closure (fuel : nat) (pnow : list (State * Z))
      (rules : list SketchGenerationRule) (out_states out_states' : list State)
      (rules' : list SketchGenerationRule) :
  Forall (fun pair => P pair.1) pnow ->
  Forall P out_states ->
  enumerate_sketches fuel policy pnow rules out_states = Ok (out_states', rules') ->
  Forall P out_states'.
Proof.
  revert pnow rules out_states.
  induction fuel as [|fuel IH]; intros pnow rules outs Hnow Hout He; simpl in He;
    [discriminate|].
  destruct pnow as [|pair rest]; [by injection He as <- <-|].
  apply bind_Ok in He as ([[pnext outs1] rules1] & Hx & He).
  apply expand_frontier_closure in Hx as [Hnext Hout1];
    [|exact Hnow | constructor | exact Hout].
  by eapply IH.
Qed.

(** X14: the sketches of [GenerateSketches] are derived from the initial state
    by applications of rules whose condition is not pass, at stage ids that
    are not negative, and by the rfactor pass at the end: a property of
    states that holds of the initial state and is kept by every such
    application and by the pass holds of every sketch. *)
Theorem GenerateSketches_closure (fuel : nat) (out : list State) (policy' : Policy) :
  P (init_state (search_task policy)) ->
  (forall s s', P s -> rfactor_hack s = Ok s' -> P s') ->
  GenerateSketches fuel policy = Ok (out, policy') ->
  Forall P out.
Proof.
  intros Hinit Hhack Hg. unfold GenerateSketches in Hg.
  apply bind_Ok in Hg as ([outs rules] & He & Hg).
  apply bind_Ok in Hg as (outs' & Hh & Hg). injection Hg as <- <-.
  apply enumerate_sketches_closure in He;
    [|by apply Forall_singleton | constructor].
  apply Forall_forall. intros s' Hin.
  destruct (rfactor_hack_all_elem _ _ _ Hh Hin) as (s & Hs & Hhs).
  rewrite Forall_forall in He. eauto.
Qed.

End SketchClosure.

(** With the externals of [Demo] no rule sets the concrete flag. *)
Lemma Demo_split_concrete (st : State) (stage_id : Z) (it : Iterator)
      (lens : list (option Z)) (st' : State) (res : list Iterator) :
  Demo.split st stage_id it lens = Ok (st', res) -> concrete st' = concrete st.
Proof.
  unfold Demo.split. intros Hs. apply bind_Ok in Hs as (stage & _ & Hs).
  by injection Hs as <- <-.
Qed.

Lemma Demo_fuse_concrete (st : State) (stage_id : Z) (its : list Iterator)
      (st' : State) (fused : Iterator) :
  Demo.fuse st stage_id its = Ok (st', fused) -> concrete st' = concrete st.
Proof.
  unfold Demo.fuse. intros Hs. apply bind_Ok in Hs as (stage & _ & Hs).
  apply bind_Ok in Hs as (first & _ & Hs). by injection Hs as <- <-.
Qed.

Lemma Demo_multi_level_tiling_concrete (st : State) (stage_id : Z)
      (structure : string) (st' : State) (ids : list Z) :
  Demo.multi_level_tiling st stage_id structure = Ok (st', ids) ->
  concrete st' = concrete st.
Proof.
  unfold Demo.multi_level_tiling. intros Hs.
  apply bind_Ok in Hs as (stage & _ & Hs). apply bind_Ok in Hs as (it & _ & Hs).
  apply bind_Ok in Hs as ([st1 res] & Hsp & Hs). injection Hs as <- <-.
  by eapply Demo_split_concrete.
Qed.

Lemma Demo_fuse_all_reduction_concrete (st : State) (stage_id : Z) (st' : State)
      (fused : Iterator) (space_iters reduce_iters : list Iterator) :
  Demo.fuse_all_reduction st stage_id = Ok (st', fused, space_iters, reduce_iters) ->
  concrete st' = concrete st.
Proof.
  unfold Demo.fuse_all_reduction. intros Hs.
  apply bind_Ok in Hs as (stage & _ & Hs).
  destruct (filter _ (iters stage)) as [|r [|r' rest]]; [discriminate| |].
  - by injection Hs as <- _ _ _.
  - apply bind_Ok in Hs as ([st1 f] & Hf & Hs). injection Hs as <- _ _ _.
    by eapply Demo_fuse_concrete.
Qed.

Lemma Demo_rfactor_variants_concrete (policy : Policy) (base_state : State)
      (stage_id : Z) (space_iters split_res : list Iterator) (i : nat)
      (todo : list Iterator) (pairs : list (State * Z)) :
  rfactor_variants (H := Demo.externals) policy base_state stage_id space_iters
                   split_res i todo = Ok pairs ->
  Forall (fun pair => concrete pair.1 = concrete base_state) pairs.
Proof.
  revert i pairs. induction todo as [|it rest IH]; intros i pairs Hv; simpl in Hv.
  - injection Hv as <-. constructor.
  - apply bind_Ok in Hv as ([s1 id1] & Hone & Hv).
    apply bind_Ok in Hv as (ret & Hrest & Hv). injection Hv as <-.
    constructor; [|by eapply IH].
    unfold rfactor_variant in Hone.
    apply bind_Ok in Hone as ([s2 rid] & Hrf & Hone).
    apply bind_Ok in Hone as (second & _ & Hone).
    apply bind_Ok in Hone as (s3 & Hre & Hone). injection Hone as <- <-.
    assert (Hc2 : concrete s2 = concrete base_state).
    { simpl in Hrf. unfold Demo.rfactor in Hrf.
      apply bind_Ok in Hrf as (stage & _ & Hrf). by injection Hrf as <- <-. }
    simpl. rewrite <- Hc2.
    destruct (i =? 1)%nat; [|by injection Hre as <-].
    apply bind_Ok in Hre as (rstage & _ & Hre).
    apply bind_Ok in Hre as (space_iter & _ & Hre).
    simpl in Hre. apply bind_Ok in Hre as (stage & _ & Hre).
    by injection Hre as <-.
Qed.

Lemma Demo_fusion_levels_concrete (structure : string) (base_state : State)
      (target_stage_id stage_id : Z) (ids levels : list Z)
      (pairs : list (State * Z)) :
  fusion_levels (H := Demo.externals) structure base_state target_stage_id
                stage_id ids levels = Ok pairs ->
  Forall (fun pair => concrete pair.1 = concrete base_state) pairs.
Proof.
  revert pairs. induction levels as [|level rest IH]; intros pairs Hl; simpl in Hl.
  - injection Hl as <-. constructor.
  - destruct (negb (level_is_spatial structure level)); [by apply IH|].
    apply bind_Ok in Hl as ([s2 id2] & Hv & Hl).
    apply bind_Ok in Hl as (ret & Hrest & Hl). injection Hl as <-.
    constructor; [|by apply IH].
    unfold fusion_variant in Hv. simpl in Hv.
    apply bind_Ok in Hv as (tstage & _ & Hv).
    apply bind_Ok in Hv as (titer & _ & Hv).
    apply bind_Ok in Hv as (s3 & Hat & Hv). injection Hv as <- <-.
    apply bind_Ok in Hat as (tstage' & _ & Hat). by injection Hat as <-.
Qed.

Lemma Demo_Apply_concrete (rule : SketchGenerationRule) (policy : Policy)
      (state : State) (stage_id : Z) (pairs : list (State * Z)) :
  Apply (H := Demo.externals) rule policy state stage_id = Ok pairs ->
  Forall (fun pair => concrete pair.1 = concrete state) pairs.
Proof.
  destruct rule as [| | |target| |]; simpl; intros Ha.
  - unfold RuleAlwaysInline_Apply in Ha. simpl in Ha. injection Ha as <-.
    by repeat constructor.
  - unfold RuleAddRfactor_Apply in Ha.
    apply bind_Ok in Ha as ([[[s1 fused] space_iters] reduce_iters] & Hf & Ha).
    apply bind_Ok in Ha as ([s2 split_res] & Hs & Ha).
    apply Demo_rfactor_variants_concrete in Ha.
    apply Demo_fuse_all_reduction_concrete in Hf.
    apply Demo_split_concrete in Hs.
    eapply Forall_impl; [exact Ha|]. intros pair Hp. simpl in Hp. congruence.
  - unfold RuleAddCacheWrite_Apply in Ha. simpl in Ha. injection Ha as <-.
    by repeat constructor.
  - unfold RuleMultiLevelTilingWithFusion_Apply in Ha.
    apply bind_Ok in Ha as ([s1 ids] & Hm & Ha).
    apply Demo_multi_level_tiling_concrete in Hm.
    apply Demo_fusion_levels_concrete in Ha.
    eapply Forall_impl; [exact Ha|]. intros pair Hp. simpl in Hp. congruence.
  - unfold RuleMultiLevelTiling_Apply in Ha.
    apply bind_Ok in Ha as ([s1 ids] & Hm & Ha). injection Ha as <-.
    apply Demo_multi_level_tiling_concrete in Hm. by repeat constructor.
  - unfold RuleSkipStage_Apply in Ha. injection Ha as <-. by repeat constructor.
Qed.

Lemma GenerateSketches_closure_witness :
  exists out policy',
    GenerateSketches (H := Demo.externals) 10 Demo.reduce_policy = Ok (out, policy')
    /\ (2 <= length out)%nat
    /\ Forall (fun s => concrete s = false) out.
Proof.
  assert (Hg : exists out policy',
             GenerateSketches (H := Demo.externals) 10 Demo.reduce_policy
             = Ok (out, policy')
             /\ (2 <=? length out)%nat = true).
  { eexists _, _. split; [vm_compute; reflexivity | vm_compute; reflexivity]. }
  destruct Hg as (out & p' & Hg & Hlen). exists out, p'. split; [exact Hg|].
  split; [by apply Nat.leb_le|].
  apply (GenerateSketches_closure (H := Demo.externals) Demo.reduce_policy
           (fun s => concrete s = false)) with (fuel := 10%nat) (policy' := p').
  - intros rule rule' state stage_id cond pairs _ HP _ _ Ha.
    apply Demo_Apply_concrete in Ha.
    eapply Forall_impl; [exact Ha|]. intros pair Hp. simpl in Hp. congruence.
  - reflexivity.
  - intros s s' HP Hh. unfold rfactor_hack in Hh.
    apply bind_Ok in Hh as (steps & _ & Hh). by injection Hh as <-.
  - exact Hg.
Defined.

Lemma cache_write_or_fusion_witness :
  exists c_cache c_tiling,
    RuleAddCacheWrite_MeetCondition (H := Demo.externals) Demo.reduce_policy
                                    Demo.reduce_state 1 = Ok c_cache
    /\ RuleMultiLevelTiling_MeetCondition (H := Demo.externals) Demo.reduce_policy
                                          Demo.reduce_state 1 = Ok c_tiling
    /\ (c_tiling = kApply <->
        NeedsMultilevelTiling (Externals := Demo.externals)
          (search_task Demo.reduce_policy) Demo.reduce_state 1 = true).
Proof.
  destruct (cache_write_or_fusion (H := Demo.externals) Demo.reduce_policy 0
              Demo.reduce_state 1)
    as (c_cache & c_fusion & t' & c_tiling & Hc & _ & Ht & _ & Hiff & _).
  exists c_cache, c_tiling. split; [exact Hc|]. split; [exact Ht | exact Hiff].
Defined.


(** ** The records of measured states over a search *)

Section Bookkeeping.
Context `{Externals}.

Lemma push_throughputs_lengths (results : list MeasureResult) (p : Policy) :
  let p' := foldl (fun p res => push_throughput p (inverse_mean (costs res))) p results in
  measured_states_vector_ p' = measured_states_vector_ p
  /\ length (measured_states_throughputs_ p')
     = (length (measured_states_throughputs_ p) + length results)%nat.
Proof.
  cbv zeta. revert p. induction results as [|res rest IH]; intros p; simpl;
    [split; [done | lia]|].
  destruct (IH (push_throughput p (inverse_mean (costs res)))) as (-> & ->).
  simpl. rewrite length_app. simpl. split; [done | lia].
Qed.

Lemma search_loop_bookkeeping (budget fuel : nat)
      (n_trials early_stopping num_random ct : Z) (inputs : list MeasureInput)
      (results : list MeasureResult) (policy : Policy) (measurer : ProgramMeasurer)
      (policy' : Policy) (measurer' : ProgramMeasurer) :
  (forall m task batch, length (Measure_results m task batch) = length batch) ->
  length (measured_states_throughputs_ policy)
  = length (measured_states_vector_ policy) ->
  search_loop budget fuel n_trials early_stopping num_random ct inputs results
              policy measurer = Ok (policy', measurer') ->
  length (measured_states_throughputs_ policy')
  = length (measured_states_vector_ policy')
  \/ exists batch,
       last (calls measurer') = Some (CallMeasure (search_task policy) batch)
       /\ measured_states_vector_ policy'
          = take (length (measured_states_throughputs_ policy'))
                 (measured_states_vector_ policy') ++ (mi_state <$> batch).
Proof.
  intros Hmeasure.
  revert ct inputs results policy measurer.
  induction budget as [|budget IH]; intros ct inputs results p m Heq Hl;
    simpl in Hl.
  - destruct (ct <? n_trials); [discriminate|]. injection Hl as <- <-. by left.
  - destruct (Z.ltb_spec ct n_trials) as [Hct|Hct];
      [|injection Hl as <- <-; by left].
    set (p0 := if decide (inputs = []) then p else _) in Hl.
    assert (Hp0 : search_task p0 = search_task p
                  /\ measured_states_vector_ p0 = measured_states_vector_ p
                  /\ measured_states_throughputs_ p0 = measured_states_throughputs_ p).
    { unfold p0. by destruct (decide (inputs = [])). }
    destruct Hp0 as (Ht0 & Hv0 & Hth0).
    apply bind_Ok in Hl as ([[best random] p1] & Hround & Hl).
    apply SearchOneRound_frame in Hround
      as ((Ht1 & _ & _ & _ & _ & Hv1 & Hth1 & _) & _).
    apply bind_Ok in Hl as (best' & _ & Hl).
    apply bind_Ok in Hl as (random' & _ & Hl).
    apply bind_Ok in Hl as ([new_inputs p2] & Hpick & Hl).
    unfold PickStatesWithEpsGreedy in Hpick.
    apply pick_loop_spec in Hpick
      as (new & Hnew & _ & _ & _ & Hv2 & _ & (Ht2 & _ & _ & _ & _ & _ & Hth2 & _)).
    simpl in Hnew. subst new.
    assert (Hlen1 : length (measured_states_throughputs_ p1)
                    = length (measured_states_vector_ p1))
      by (by rewrite Hth1, Hv1, Hth0, Hv0).
    destruct (decide (new_inputs = [])) as [->|Hne].
    + injection Hl as <- <-. left.
      rewrite Hth2, Hv2. simpl. by rewrite app_nil_r.
    + simpl in Hl.
      match type of Hl with
      | (if ?c then _ else _) = _ => destruct c
      end.
      * injection Hl as <- <-. right. exists new_inputs. simpl.
        rewrite last_snoc, Ht2, Ht1, Ht0. split; [done|].
        rewrite Hth2, Hv2, Hlen1. by rewrite take_app_length.
      * apply IH in Hl.
        -- destruct Hl as [Hl | (batch & Hlast & Hvec)]; [by left | right].
           exists batch. split; [|exact Hvec].
           rewrite Hlast. f_equal. f_equal.
           destruct (push_throughputs_keep
                       (Measure_results m (search_task p2) new_inputs) p2)
             as (-> & _). by rewrite Ht2, Ht1, Ht0.
        -- destruct (push_throughputs_lengths
                       (Measure_results m (search_task p2) new_inputs) p2)
             as (-> & ->).
           rewrite Hmeasure, Hth2, Hv2, length_app, length_fmap. lia.
Qed.

(** X15: [measured_states_throughputs_] follows [measured_states_vector_].
    If every [Measure] gives one result for each input and the two records
    have the same length before a [Search] with [n_trials > 1], then they
    have the same length when it returns, unless the search stopped early: in
    that case the last call of the measurer is a [Measure] and the states of
    its batch are in [measured_states_vector_], at its end, without their
    throughputs. *)
Theorem Search_throughputs_follow (fuel : nat) (policy : Policy)
        (n_trials early_stopping num_measure_per_iter : Z)
        (measurer : ProgramMeasurer) (state : State) (policy' : Policy)
        (measurer' : ProgramMeasurer) :
  (forall m task batch, length (Measure_results m task batch) = length batch) ->
  length (measured_states_throughputs_ policy)
  = length (measured_states_vector_ policy) ->
  1 < n_trials ->
  Search fuel policy n_trials early_stopping num_measure_per_iter measurer
  = Ok (state, policy', measurer') ->
  length (measured_states_throughputs_ policy')
  = length (measured_states_vector_ policy')
  \/ exists batch,
       last (calls measurer') = Some (CallMeasure (search_task policy) batch)
       /\ measured_states_vector_ policy'
          = take (length (measured_states_throughputs_ policy'))
                 (measured_states_vector_ policy') ++ (mi_state <$> batch).
Proof.
  intros Hmeasure Heq Hn. unfold Search.
  destruct (Z.leb_spec n_trials 1); [lia|].
  intros Hs. apply bind_Ok in Hs as ([p1 m1] & Hl & Hs). injection Hs as <- <- <-.
  by apply (search_loop_bookkeeping _ _ _ _ _ _ _ _ _ _ _ _ Hmeasure) in Hl.
Qed.

End Bookkeeping.

Lemma Search_throughputs_follow_witness :
  exists state policy' measurer',
    Search (H := Demo.externals) 10 Demo.reduce_policy 5 (-1) 2 Demo.fresh_measurer
    = Ok (state, policy', measurer')
    /\ (length (measured_states_throughputs_ policy')
        = length (measured_states_vector_ policy')
        \/ exists batch,
             last (calls measurer')
             = Some (CallMeasure (search_task Demo.reduce_policy) batch)
             /\ measured_states_vector_ policy'
                = take (length (measured_states_throughputs_ policy'))
                       (measured_states_vector_ policy') ++ (mi_state <$> batch)).
Proof.
  assert (Hs : exists r,
             Search (H := Demo.externals) 10 Demo.reduce_policy 5 (-1) 2
                    Demo.fresh_measurer = Ok r).
  { eexists. vm_compute. reflexivity. }
  destruct Hs as ([[state p'] m'] & Hs). exists state, p', m'.
  split; [exact Hs|].
  apply (Search_throughputs_follow (H := Demo.externals) 10 Demo.reduce_policy
           5 (-1) 2 Demo.fresh_measurer state p' m').
  - intros m task batch. apply length_fmap.
  - reflexivity.
  - lia.
  - exact Hs.
Defined.
